(** * Briefcase: the resumable batch collection pipeline

    A shallow embedding of [StockDataCollector] from
    [src/research/data_collection/stock_data_collector.py], of the
    driver [run_full_collection.main] and of the command lines
    [stock_data_collector.main] and [collect_data.main], followed by the
    properties of the batch scheduler and progress tracker, of ticker
    discovery, of the savers and of the command lines.

    Conventions of the embedding.
    - Python integers are [Z]; [len] is [Z.of_nat (length _)]; [//] is
      floor division and raises [ZeroDivisionError] on a zero divisor;
      list slices follow Python's rules for negative and out-of-range
      bounds.
    - The collector object, the files under the data directory and the
      sequence of observable effects form an explicit [State] threaded
      through a state-and-exception monad [M].
    - The market-data provider, the disk and the clock are a [World] of
      oracles: what [yf.download] and [yf.Ticker(t).info] answer, whether a
      per-ticker artifact can be written, today's date.
    - [KeyboardInterrupt] is an exception that [except Exception] does not
      catch.  It is delivered at an external effect: the state carries a
      [fuse], the number of effects that still complete before the
      interrupt ([None]: the run is never interrupted).
    - Log messages are not modelled. *)

From Stdlib Require Import Ascii String.
From stdpp Require Import base option numbers strings gmap list sorting.

Local Open Scope Z_scope.

(** ** Data model *)

(** A price series: rows of a date and its open/high/low/close/volume
    cells, kept as text. *)
Definition DataFrame : Type := list (string * list string).

Definition df_empty (d : DataFrame) : bool :=
  match d with [] => true | _ :: _ => false end.

(** What [yf.download] hands back: the frame as a whole (used for a
    one-ticker request) and, for a request of several tickers, the
    sub-frame that the column probing of [download_batch_historical]
    obtains for a ticker ([data[ticker].dropna()], or [data.xs] when
    the first probe raises); no entry when neither probe finds one. *)
Record RawFrame := {
  whole : DataFrame;
  groups : gmap string DataFrame
}.

(** A Python dict with string keys, in insertion order; [None] is the
    Python value [None]. *)
Definition Dict : Type := list (string * option string).

Fixpoint dict_get (k : string) (d : Dict) : option (option string) :=
  match d with
  | [] => None
  | (k', v) :: d' => if String.eqb k k' then Some v else dict_get k d'
  end.

Definition dict_truthy (d : Dict) : bool :=
  match d with [] => false | _ :: _ => true end.

(** The JSON object of [collection_progress.json]. A key may be missing
    from a file that this program did not write, hence the options read
    by [progress.get(key, default)]. *)
Record Progress := {
  p_successful_tickers : option (list string);
  p_failed_tickers : option (list string);
  p_last_batch_index : option Z;
  p_timestamp : option string
}.

(** The JSON object of [collection_summary.json]. Dates are day
    ordinals. *)
Record Summary := {
  total_tickers : Z;
  successful : Z;
  failed : Z;
  sum_successful_tickers : list string;
  sum_failed_tickers : list string;
  collection_date : string;
  sum_years_of_history : Z;
  data_start_date : Z;
  data_end_date : Z
}.

(** The files under the data directory. *)
Record Store := {
  historical : gmap string DataFrame;
  fundamentals : gmap string Dict;
  progress_file : option Progress;
  summary_file : option Summary
}.

(** The constructor arguments kept on the collector. The delay is a
    duration in milliseconds. *)
Record Config := {
  batch_size : Z;
  years_of_history : Z;
  delay_between_batches : N
}.

(** The environment of a run. *)
Record World := {
  (** [yf.download(tickers, start, end)]; [None] when the call raises *)
  yf_download : list string → Z → Z → option RawFrame;
  (** [yf.Ticker(t).info]; [None] when it raises *)
  yf_info : string → option (list (string * string));
  (** does [data.to_csv(historical_dir / f"{t}.csv")] succeed *)
  to_csv_ok : string → bool;
  (** does writing [fundamentals_dir / f"{t}.json"] succeed *)
  json_dump_ok : string → bool;
  (** what [get_all_tickers] returns (ticker discovery is an external
      collaborator of the pipeline) *)
  listed_tickers : list string;
  (** [datetime.now()] as a day ordinal and as an ISO string *)
  today : Z;
  now_iso : string
}.

(** Observable effects, in the order they happen. [EvMark t true] is
    [successful_tickers.append(t)], [EvMark t false] is
    [failed_tickers.append(t)]. *)
Inductive Event :=
  | EvListing
  | EvDownload (tickers : list string)
  | EvToCsv (ticker : string) (ok : bool)
  | EvInfo (ticker : string)
  | EvFundJson (ticker : string) (ok : bool)
  | EvMark (ticker : string) (ok : bool)
  | EvProgress (p : Progress)
  | EvSleep (d : N)
  | EvSummary (s : Summary).

Record State := {
  successful_tickers : list string;
  failed_tickers : list string;
  store : Store;
  trace : list Event;
  fuse : option nat
}.

(** ** The monad *)

Inductive exn := ZeroDivisionError | OSError | KeyboardInterrupt.

(** [except Exception] catches everything but [KeyboardInterrupt]. *)
Definition is_Exception (e : exn) : bool :=
  match e with KeyboardInterrupt => false | _ => true end.

Inductive Outcome (A : Type) :=
  | Ok (a : A)
  | Err (e : exn).
Arguments Ok {A} a.
Arguments Err {A} e.

Definition M (A : Type) : Type := State → Outcome A * State.

Definition ret {A} (a : A) : M A := λ s, (Ok a, s).

Definition bind {A B} (m : M A) (k : A → M B) : M B :=
  λ s, match m s with
       | (Ok a, s') => k a s'
       | (Err e, s') => (Err e, s')
       end.

Definition raise {A} (e : exn) : M A := λ s, (Err e, s).

(** [try: body  except Exception: handler] *)
Definition try_except {A} (body : M A) (handler : exn → M A) : M A :=
  λ s, match body s with
       | (Ok a, s') => (Ok a, s')
       | (Err e, s') => if is_Exception e then handler e s' else (Err e, s')
       end.

Notation "x <- m ;; k" := (bind m (λ x, k))
  (at level 100, m at next level, right associativity).
Notation "m ;; k" := (bind m (λ _, k))
  (at level 100, right associativity).

Definition get : M State := λ s, (Ok s, s).
Definition modify (f : State → State) : M unit := λ s, (Ok tt, f s).

Fixpoint for_each {A} (xs : list A) (body : A → M unit) : M unit :=
  match xs with
  | [] => ret tt
  | x :: xs' => body x ;; for_each xs' body
  end.

(** ** State updates *)

Definition set_successful (l : list string) (s : State) : State :=
  {| successful_tickers := l; failed_tickers := failed_tickers s;
     store := store s; trace := trace s; fuse := fuse s |}.

Definition set_failed (l : list string) (s : State) : State :=
  {| successful_tickers := successful_tickers s; failed_tickers := l;
     store := store s; trace := trace s; fuse := fuse s |}.

Definition set_store (st : Store) (s : State) : State :=
  {| successful_tickers := successful_tickers s;
     failed_tickers := failed_tickers s;
     store := st; trace := trace s; fuse := fuse s |}.

Definition set_fuse (f : option nat) (s : State) : State :=
  {| successful_tickers := successful_tickers s;
     failed_tickers := failed_tickers s;
     store := store s; trace := trace s; fuse := f |}.

Definition add_event (e : Event) (s : State) : State :=
  {| successful_tickers := successful_tickers s;
     failed_tickers := failed_tickers s;
     store := store s; trace := trace s ++ [e]; fuse := fuse s |}.

Definition write_historical (t : string) (d : DataFrame) (st : Store) : Store :=
  {| historical := <[t := d]> (historical st);
     fundamentals := fundamentals st;
     progress_file := progress_file st; summary_file := summary_file st |}.

Definition write_fundamentals (t : string) (d : Dict) (st : Store) : Store :=
  {| historical := historical st;
     fundamentals := <[t := d]> (fundamentals st);
     progress_file := progress_file st; summary_file := summary_file st |}.

Definition write_progress (p : Progress) (st : Store) : Store :=
  {| historical := historical st; fundamentals := fundamentals st;
     progress_file := Some p; summary_file := summary_file st |}.

Definition write_summary (x : Summary) (st : Store) : Store :=
  {| historical := historical st; fundamentals := fundamentals st;
     progress_file := progress_file st; summary_file := Some x |}.

(** An external effect is where a pending interrupt is delivered. *)
Definition tick : M unit :=
  λ s, match fuse s with
       | None => (Ok tt, s)
       | Some O => (Err KeyboardInterrupt, s)
       | Some (S n) => (Ok tt, set_fuse (Some n) s)
       end.

Definition log (e : Event) : M unit := modify (add_event e).

(** ** Python helpers *)

Definition len {A} (l : list A) : Z := Z.of_nat (length l).

(** A slice bound after Python's adjustment to a sequence of length [n]. *)
Definition slice_bound (n i : Z) : Z :=
  if i <? 0 then Z.max (i + n) 0 else Z.min i n.

(** [l[a:b]] *)
Definition py_slice {A} (l : list A) (a b : Z) : list A :=
  let a' := slice_bound (len l) a in
  let b' := slice_bound (len l) b in
  take (Z.to_nat (b' - a')) (drop (Z.to_nat a') l).

(** [a // b] *)
Definition floordiv (a b : Z) : M Z :=
  if b =? 0 then raise ZeroDivisionError else ret (a `div` b).

(** [range(a, b)] *)
Definition range (a b : Z) : list Z := seqZ a (b - a).

(** [sorted] on strings: insertion sort along the code-point order. *)
Fixpoint insert_sorted (x : string) (l : list string) : list string :=
  match l with
  | [] => [x]
  | y :: l' => if String.leb x y then x :: l else y :: insert_sorted x l'
  end.

Definition sorted (l : list string) : list string :=
  foldr insert_sorted [] l.

(** ** The collector *)

Section Collector.
Variable w : World.
Variable cfg : Config.

(** [get_all_tickers]: the listing comes from the exchanges' files. *)
Definition get_all_tickers : M (list string) :=
  tick ;; log EvListing ;; ret (listed_tickers w).

(** The parsing half of [download_batch_historical]: which tickers of
    the request get an entry in [result]. *)
Definition parse_download (tickers : list string) (data : RawFrame)
    : gmap string DataFrame :=
  if len tickers =? 1 then
    match tickers with
    | t0 :: _ => if df_empty (whole data) then ∅ else {[ t0 := whole data ]}
    | [] => ∅
    end
  else
    foldl (λ result ticker,
             match groups data !! ticker with
             | Some ticker_data =>
                 if df_empty ticker_data then result
                 else <[ ticker := ticker_data ]> result
             | None => result
             end) ∅ tickers.

Definition download_batch_historical (tickers : list string)
    (start_date end_date : Z) : M (gmap string DataFrame) :=
  try_except
    (tick ;; log (EvDownload tickers) ;;
     match yf_download w tickers start_date end_date with
     | Some data => ret (parse_download tickers data)
     | None => raise OSError
     end)
    (λ _, ret ∅).

Definition info_keys : list (string * string) :=
  [ ("market_cap", "marketCap"); ("enterprise_value", "enterpriseValue");
    ("trailing_pe", "trailingPE"); ("forward_pe", "forwardPE");
    ("peg_ratio", "pegRatio"); ("price_to_book", "priceToBook");
    ("price_to_sales", "priceToSalesTrailing12Months");
    ("enterprise_to_revenue", "enterpriseToRevenue");
    ("enterprise_to_ebitda", "enterpriseToEbitda");
    ("profit_margins", "profitMargins");
    ("operating_margins", "operatingMargins");
    ("return_on_assets", "returnOnAssets");
    ("return_on_equity", "returnOnEquity");
    ("revenue_growth", "revenueGrowth");
    ("earnings_growth", "earningsGrowth");
    ("current_ratio", "currentRatio"); ("quick_ratio", "quickRatio");
    ("debt_to_equity", "debtToEquity"); ("free_cashflow", "freeCashflow");
    ("dividend_yield", "dividendYield"); ("payout_ratio", "payoutRatio");
    ("beta", "beta"); ("shares_outstanding", "sharesOutstanding");
    ("float_shares", "floatShares"); ("sector", "sector");
    ("industry", "industry"); ("country", "country");
    ("website", "website"); ("description", "longBusinessSummary") ]%string.

(** [info.get(key)] *)
Fixpoint info_get (key : string) (info : list (string * string))
    : option string :=
  match info with
  | [] => None
  | (k, v) :: info' => if String.eqb key k then Some v else info_get key info'
  end.

(** The [fundamentals] dict literal (lines 197-229). *)
Definition extract_metrics (ticker : string) (info : list (string * string))
    : Dict :=
  ("ticker"%string, Some ticker)
  :: ("timestamp"%string, Some (now_iso w))
  :: map (λ kv, (kv.1, info_get kv.2 info)) info_keys.

Definition download_fundamentals (ticker : string) : M Dict :=
  try_except
    (tick ;; log (EvInfo ticker) ;;
     match yf_info w ticker with
     | Some info => ret (extract_metrics ticker info)
     | None => raise OSError
     end)
    (λ _, ret []).

Definition save_historical_data (ticker : string) (data : DataFrame)
    : M unit :=
  if df_empty data then ret tt
  else
    tick ;; log (EvToCsv ticker (to_csv_ok w ticker)) ;;
    if to_csv_ok w ticker
    then modify (λ s, set_store (write_historical ticker data (store s)) s)
    else raise OSError.

Definition save_fundamentals (fundamentals : Dict) : M unit :=
  match dict_truthy fundamentals, dict_get "ticker" fundamentals with
  | true, Some v =>
      (* [f"{ticker}.json"] *)
      let ticker := default "None"%string v in
      tick ;; log (EvFundJson ticker (json_dump_ok w ticker)) ;;
      if json_dump_ok w ticker
      then modify (λ s, set_store
                          (write_fundamentals ticker fundamentals (store s)) s)
      else raise OSError
  | _, _ => ret tt
  end.

Definition no_progress : Progress :=
  {| p_successful_tickers := Some []; p_failed_tickers := Some [];
     p_last_batch_index := Some 0; p_timestamp := None |}.

Definition load_progress : M Progress :=
  s <- get ;;
  match progress_file (store s) with
  | Some p => ret p
  | None => ret no_progress
  end.

(** The [progress] dict of [save_progress]. *)
Definition progress_record (succ fail : list string) (batch_index : Z)
    : Progress :=
  {| p_successful_tickers := Some succ;
     p_failed_tickers := Some fail;
     p_last_batch_index := Some batch_index;
     p_timestamp := Some (now_iso w) |}.

Definition save_progress (batch_index : Z) : M unit :=
  s <- get ;;
  let progress :=
    progress_record (successful_tickers s) (failed_tickers s) batch_index in
  tick ;; log (EvProgress progress) ;;
  modify (λ s, set_store (write_progress progress (store s)) s).

Definition mark_successful (ticker : string) : M unit :=
  modify (λ s, set_successful (successful_tickers s ++ [ticker]) s) ;;
  log (EvMark ticker true).

Definition mark_failed (ticker : string) : M unit :=
  modify (λ s, set_failed (failed_tickers s ++ [ticker]) s) ;;
  log (EvMark ticker false).

(** [time.sleep] *)
Definition sleep (d : N) : M unit := tick ;; log (EvSleep d).

(** The body of [for ticker in batch_tickers] (lines 334-355). *)
Definition collect_ticker (historical_data : gmap string DataFrame)
    (ticker : string) : M unit :=
  try_except
    (match historical_data !! ticker with
     | Some data =>
         save_historical_data ticker data ;;
         fundamentals <- download_fundamentals ticker ;;
         (if dict_truthy fundamentals
          then save_fundamentals fundamentals else ret tt) ;;
         mark_successful ticker
     | None => mark_failed ticker
     end)
    (λ _, mark_failed ticker).

(** [tickers[batch_start:batch_end]] of batch [batch_idx]. *)
Definition batch_of (tickers : list string) (batch_idx : Z) : list string :=
  let batch_start := batch_idx * batch_size cfg in
  let batch_end := Z.min (batch_start + batch_size cfg) (len tickers) in
  py_slice tickers batch_start batch_end.

(** The body of [for batch_idx in range(start_batch, total_batches)]
    (lines 318-364). *)
Definition collect_batch (tickers : list string) (total_batches : Z)
    (start_date end_date : Z) (batch_idx : Z) : M unit :=
  let batch_tickers := batch_of tickers batch_idx in
  historical_data <-
    download_batch_historical batch_tickers start_date end_date ;;
  for_each batch_tickers (collect_ticker historical_data) ;;
  save_progress (batch_idx + 1) ;;
  if batch_idx <? total_batches - 1
  then sleep (delay_between_batches cfg) else ret tt.

(** The [summary] dict (lines 373-383) from the two lists of [self]. *)
Definition make_summary (succ fail : list string)
    (start_date end_date : Z) : Summary :=
  {| total_tickers := len succ + len fail;
     successful := len succ;
     failed := len fail;
     sum_successful_tickers := sorted succ;
     sum_failed_tickers := sorted fail;
     collection_date := now_iso w;
     sum_years_of_history := years_of_history cfg;
     data_start_date := start_date;
     data_end_date := end_date |}.

(** The resume block (lines 292-304): restores the two lists from the
    progress record and returns [start_batch] and the filtered list. *)
Definition resume_from_progress (tickers : list string)
    : M (Z * list string) :=
  progress <- load_progress ;;
  modify (set_successful (default [] (p_successful_tickers progress))) ;;
  modify (set_failed (default [] (p_failed_tickers progress))) ;;
  let start_batch := default 0 (p_last_batch_index progress) in
  s <- get ;;
  let processed : gset string :=
    list_to_set (successful_tickers s ++ failed_tickers s) in
  ret (start_batch, filter (λ t, t ∉ processed) tickers).

Definition collect_all_data (tickers : option (list string))
    (resume : bool) : M unit :=
  tickers <- match tickers with
             | None => get_all_tickers
             | Some l => ret l
             end ;;
  plan <- (if resume then resume_from_progress tickers
           else ret (0, tickers)) ;;
  let start_batch := plan.1 in
  let tickers := plan.2 in
  let end_date := today w in
  let start_date := end_date - years_of_history cfg * 365 in
  total_batches <-
    floordiv (len tickers + batch_size cfg - 1) (batch_size cfg) ;;
  for_each (range start_batch total_batches)
    (collect_batch tickers total_batches start_date end_date) ;;
  s <- get ;;
  let summary := make_summary (successful_tickers s) (failed_tickers s)
                   start_date end_date in
  tick ;; log (EvSummary summary) ;;
  modify (λ s, set_store (write_summary summary (store s)) s).

End Collector.

(** [StockDataCollector(...)] in a fresh process over the files [st]:
    both lists start empty. *)
Definition new_collector (st : Store) (f : option nat) : State :=
  {| successful_tickers := []; failed_tickers := []; store := st;
     trace := []; fuse := f |}.

Definition empty_store : Store :=
  {| historical := ∅; fundamentals := ∅;
     progress_file := None; summary_file := None |}.

(** ** The driver, [run_full_collection.main] *)

Definition lower_ascii (c : ascii) : ascii :=
  let n := nat_of_ascii c in
  if ((65 <=? n) && (n <=? 90))%nat then ascii_of_nat (n + 32) else c.

(** [str.lower] *)
Fixpoint lower (s : string) : string :=
  match s with
  | EmptyString => EmptyString
  | String c s' => String (lower_ascii c) (lower s')
  end.

Definition full_config : Config :=
  {| batch_size := 100; years_of_history := 5;
     delay_between_batches := 2000 |}.

(** [main] over the files [st], given the answer typed at the prompt;
    returns the exit status and the final state. *)
Definition main (w : World) (response : string) (st : Store)
    (f : option nat) : Z * State :=
  if bool_decide (lower response ∈ ["yes"; "y"]%string) then
    match collect_all_data w full_config None true (new_collector st f) with
    | (Ok _, s') => (0, s')
    | (Err KeyboardInterrupt, s') => (0, s')
    | (Err _, s') => (1, s')
    end
  else (0, new_collector st f).

(** ** Reading a trace *)

Definition marks (evs : list Event) : list (string * bool) :=
  omap (λ e, match e with EvMark t b => Some (t, b) | _ => None end) evs.

(** The tickers appended to the successful ([b = true]) or to the failed
    ([b = false]) list, in order. *)
Definition marked (b : bool) (evs : list Event) : list string :=
  omap (λ e, match e with
             | EvMark t b' => if Bool.eqb b b' then Some t else None
             | _ => None
             end) evs.

Definition downloads (evs : list Event) : list (list string) :=
  omap (λ e, match e with EvDownload ts => Some ts | _ => None end) evs.

Definition persisted (evs : list Event) : list Progress :=
  omap (λ e, match e with EvProgress p => Some p | _ => None end) evs.

Definition summaries (evs : list Event) : list Summary :=
  omap (λ e, match e with EvSummary x => Some x | _ => None end) evs.

Definition csv_written (evs : list Event) : list string :=
  omap (λ e, match e with EvToCsv t true => Some t | _ => None end) evs.

Definition json_written (evs : list Event) : list string :=
  omap (λ e, match e with EvFundJson t true => Some t | _ => None end) evs.

(** The tickers an effect is about. *)
Definition touched (e : Event) : list string :=
  match e with
  | EvDownload ts => ts
  | EvToCsv t _ | EvInfo t | EvFundJson t _ | EvMark t _ => [t]
  | EvListing | EvProgress _ | EvSleep _ | EvSummary _ => []
  end.

(** The content of a file after the writes [ws], the last one winning. *)
Definition last_write {A} (old : option A) (ws : list A) : option A :=
  match last ws with Some x => Some x | None => old end.

(** ** The effects of an uninterrupted run, as lists *)

Section Effects.
Variable w : World.
Variable cfg : Config.

(** The mapping [download_batch_historical] returns. *)
Definition fetched (tickers : list string) (start_date end_date : Z)
    : gmap string DataFrame :=
  match yf_download w tickers start_date end_date with
  | Some data => parse_download tickers data
  | None => ∅
  end.

(** The dict [download_fundamentals] returns. *)
Definition fundamentals_of (t : string) : Dict :=
  match yf_info w t with
  | Some info => extract_metrics w t info
  | None => []
  end.

(** Does processing [t] end in [successful_tickers.append(t)]. *)
Definition ticker_ok (hist : gmap string DataFrame) (t : string) : bool :=
  match hist !! t with
  | Some data =>
      (df_empty data || to_csv_ok w t)
      && match yf_info w t with
         | Some _ => json_dump_ok w t
         | None => true
         end
  | None => false
  end.

Definition ticker_events (hist : gmap string DataFrame) (t : string)
    : list Event :=
  match hist !! t with
  | None => [EvMark t false]
  | Some data =>
      (if df_empty data then [] else [EvToCsv t (to_csv_ok w t)])
      ++ (if df_empty data || to_csv_ok w t then
            EvInfo t ::
            match yf_info w t with
            | Some _ => [EvFundJson t (json_dump_ok w t);
                         EvMark t (json_dump_ok w t)]
            | None => [EvMark t true]
            end
          else [EvMark t false])
  end.

(** The appends of a batch: every ticker once, in order, with its
    verdict. *)
Definition batch_marks (tickers : list string) (sd ed : Z) (i : Z)
    : list (string * bool) :=
  let batch := batch_of cfg tickers i in
  map (λ t, (t, ticker_ok (fetched batch sd ed) t)) batch.

(** The pause after a batch that is not the last. *)
Definition pause (total_batches batch_idx : Z) : list Event :=
  if batch_idx <? total_batches - 1
  then [EvSleep (delay_between_batches cfg)] else [].

(** The effects of the tickers of batch [batch_idx]. *)
Definition batch_ticker_events (tickers : list string)
    (start_date end_date : Z) (batch_idx : Z) : list Event :=
  let batch := batch_of cfg tickers batch_idx in
  flat_map (ticker_events (fetched batch start_date end_date)) batch.

Definition batch_events (tickers : list string) (total_batches : Z)
    (start_date end_date : Z) (succ fail : list string) (batch_idx : Z)
    : list Event :=
  let evs := batch_ticker_events tickers start_date end_date batch_idx in
  [EvDownload (batch_of cfg tickers batch_idx)]
  ++ evs
  ++ [EvProgress (progress_record w (succ ++ marked true evs)
                    (fail ++ marked false evs) (batch_idx + 1))]
  ++ pause total_batches batch_idx.

Fixpoint loop_events (tickers : list string) (total_batches : Z)
    (start_date end_date : Z) (succ fail : list string) (idxs : list Z)
    : list Event :=
  match idxs with
  | [] => []
  | i :: idxs' =>
      let evs :=
        batch_events tickers total_batches start_date end_date succ fail i in
      evs ++ loop_events tickers total_batches start_date end_date
               (succ ++ marked true evs) (fail ++ marked false evs) idxs'
  end.

(** The record [load_progress] returns over the files [st]. *)
Definition loaded (st : Store) : Progress :=
  default no_progress (progress_file st).

(** [start_batch] and the working list after the resume block. *)
Definition start_of (resume : bool) (st : Store) : Z :=
  if resume then default 0 (p_last_batch_index (loaded st)) else 0.

Definition working (resume : bool) (st : Store) (tickers : list string)
    : list string :=
  if resume then
    let processed : gset string :=
      list_to_set (default [] (p_successful_tickers (loaded st))
                   ++ default [] (p_failed_tickers (loaded st))) in
    filter (λ t, t ∉ processed) tickers
  else tickers.

(** [total_batches] for a working list. *)
Definition total_of (tickers : list string) : Z :=
  (len tickers + batch_size cfg - 1) `div` batch_size cfg.

(** The collector after the resume block. *)
Definition resumed (resume : bool) (s : State) : State :=
  if resume then
    set_failed (default [] (p_failed_tickers (loaded (store s))))
      (set_successful
         (default [] (p_successful_tickers (loaded (store s)))) s)
  else s.

(** The list [collect_all_data] starts from. *)
Definition given (tickers : option (list string)) : list string :=
  default (listed_tickers w) tickers.

Definition start_date_of : Z := today w - years_of_history cfg * 365.

(** The effects of the batch loop of [collect_all_data] from [s]. *)
Definition batches_events (tickers : option (list string)) (resume : bool)
    (s : State) : list Event :=
  let wk := working resume (store s) (given tickers) in
  loop_events wk (total_of wk) start_date_of (today w)
    (successful_tickers (resumed resume s))
    (failed_tickers (resumed resume s))
    (range (start_of resume (store s)) (total_of wk)).

Definition listing_events (tickers : option (list string)) : list Event :=
  match tickers with None => [EvListing] | Some _ => [] end.

End Effects.

(** The effects a run adds to the trace of the state [s] it starts in. *)
Definition new_events (s s' : State) : list Event :=
  drop (length (trace s)) (trace s').

(** How a piece of a run moves the state: the effects it adds to the
    trace, and what each part of the state is afterwards. *)
Record steps (s : State) (evs : list Event) (s' : State) : Prop := {
  st_trace : trace s' = trace s ++ evs;
  st_succ : successful_tickers s' = successful_tickers s ++ marked true evs;
  st_fail : failed_tickers s' = failed_tickers s ++ marked false evs;
  st_hist : ∀ t, t ∉ csv_written evs →
            historical (store s') !! t = historical (store s) !! t;
  st_fund : ∀ t, t ∉ json_written evs →
            fundamentals (store s') !! t = fundamentals (store s) !! t;
  st_prog : progress_file (store s')
            = last_write (progress_file (store s)) (persisted evs);
  st_summ : summary_file (store s')
            = last_write (summary_file (store s)) (summaries evs);
  st_fuse : fuse s = None → fuse s' = None
}.

(** ** Scenarios *)

(** The ten tickers of the collector's test mode. *)
Definition ten_tickers : list string :=
  ["AAPL"; "GOOGL"; "MSFT"; "AMZN"; "TSLA";
   "META"; "NVDA"; "NFLX"; "JPM"; "BAC"]%string.

Definition one_row : DataFrame :=
  [("2024-04-30", ["173.3"; "174.9"; "170.0"; "170.3"; "65934800"])]%string.

(** A provider with data for the tickers at even positions of
    [ten_tickers] only. *)
Definition world_even : World :=
  {| yf_download := λ ts _ _,
       Some {| whole := one_row;
               groups := list_to_map
                 ((λ t, (t, one_row))
                    <$> ["AAPL"; "MSFT"; "TSLA"; "NVDA"; "JPM"]%string) |};
     yf_info := λ _, Some [("sector", "Technology")]%string;
     to_csv_ok := λ _, true;
     json_dump_ok := λ _, true;
     listed_tickers := ten_tickers;
     today := 739006;
     now_iso := "2024-05-01T09:00:00"%string |}.

(** A provider whose bulk download fails for a request of several
    tickers and that has no fundamentals. *)
Definition world_flaky : World :=
  {| yf_download := λ ts _ _,
       if (length ts =? 1)%nat
       then Some {| whole := one_row; groups := ∅ |} else None;
     yf_info := λ _, None;
     to_csv_ok := λ _, true;
     json_dump_ok := λ _, true;
     listed_tickers := [];
     today := 739006;
     now_iso := "2024-05-01T09:00:00"%string |}.

Definition batches_of_four : Config :=
  {| batch_size := 4; years_of_history := 5;
     delay_between_batches := 2000 |}.

Definition batches_of_two : Config :=
  {| batch_size := 2; years_of_history := 5;
     delay_between_batches := 2000 |}.

(** The first run over [ten_tickers], interrupted during the pause after
    batch 1 of 3, and the run that resumes it in a new process. *)
Definition interrupted_run : Outcome unit * State :=
  collect_all_data world_even batches_of_four (Some ten_tickers) true
    (new_collector empty_store (Some 8%nat)).

Definition resumed_run : Outcome unit * State :=
  collect_all_data world_even batches_of_four (Some ten_tickers) true
    (new_collector (store interrupted_run.2) None).

(** A run over a list that names a ticker twice. *)
Definition repeated_ticker_run : Outcome unit * State :=
  collect_all_data world_flaky batches_of_two
    (Some ["AAPL"; "MSFT"; "AAPL"]%string) false
    (new_collector empty_store None).

(** ** Ticker discovery, [get_all_tickers] in full *)

Module exchanges.

(** The symbol column of each listing file as [pd.read_csv] gives it, a
    [None] cell being NaN; [None] for a file that cannot be read (or
    that lacks the column). *)
Record Listings := {
  nasdaq_github : option (list (option string));
  nasdaq_ftp : option (list (option string));
  other_listed : option (list (option string))
}.

(** [column.dropna().astype(str).tolist()] *)
Definition symbols (column : list (option string)) : list string :=
  omap id column.

(** [[t for t in tickers if t != 'File Creation Time']] *)
Definition without_footer (tickers : list string) : list string :=
  filter (λ t, t ≠ "File Creation Time"%string) tickers.

(** [c in t] for a one-character string [c] *)
Fixpoint contains (c : ascii) (t : string) : bool :=
  match t with
  | EmptyString => false
  | String c' t' => Ascii.eqb c c' || contains c t'
  end.

(** The test of line 115: a non-empty string without [$], [^] or [~]. *)
Definition clean (t : string) : bool :=
  negb (String.eqb t "")
  && negb (existsb (λ c, contains c t) ["$"; "^"; "~"]%char).

(** The NASDAQ listing: the GitHub copy, the FTP file when the first
    cannot be read, nothing when neither can. *)
Definition nasdaq_tickers (src : Listings) : list string :=
  match nasdaq_github src with
  | Some column => symbols column
  | None =>
      match nasdaq_ftp src with
      | Some column => without_footer (symbols column)
      | None => []
      end
  end.

Definition nyse_tickers (src : Listings) : list string :=
  match other_listed src with
  | Some column => without_footer (symbols column)
  | None => []
  end.

(** [list(set(all_tickers))]: the distinct elements, in the order the
    set happens to enumerate them. *)
Definition distinct (l : list string) : list string :=
  elements (list_to_set l : gset string).

(** [get_all_tickers]: the list written to [all_tickers.json] and the
    list returned. *)
Definition get_all_tickers (src : Listings) : list string * list string :=
  let all_tickers := nasdaq_tickers src ++ nyse_tickers src in
  let all_tickers := distinct all_tickers in
  let all_tickers := filter (λ t, clean t = true) all_tickers in
  (sorted all_tickers, sorted all_tickers).

End exchanges.

(** ** The command lines *)

(** [stock_data_collector.main], given the parsed arguments. *)
Module stock_data_collector.

Record Args := {
  opt_batch_size : Z;
  opt_years : Z;
  opt_delay : N;
  opt_no_resume : bool;
  opt_tickers : option (list string);
  opt_test : bool
}.

Definition config (args : Args) : Config :=
  {| batch_size := opt_batch_size args; years_of_history := opt_years args;
     delay_between_batches := opt_delay args |}.

Definition main (w : World) (args : Args) (st : Store) (f : option nat)
    : Outcome unit * State :=
  let tickers := if opt_test args then Some ten_tickers
                 else opt_tickers args in
  collect_all_data w (config args) tickers (negb (opt_no_resume args))
    (new_collector st f).

End stock_data_collector.

(** [collect_data.main], given the parsed arguments and the answer typed
    at the prompt of [--full]; returns the exit status and the final
    state. *)
Module collect_data.

Record Args := {
  opt_full : bool;
  opt_test : bool;
  opt_tickers : option (list string);
  opt_batch_size : Z;
  opt_years : Z
}.

Definition config (args : Args) : Config :=
  {| batch_size := opt_batch_size args; years_of_history := opt_years args;
     delay_between_batches := 2000 |}.

(** [tickers] after lines 56-63; an empty [--tickers] list is falsy. *)
Definition selection (args : Args) : option (list string) :=
  if opt_test args then Some ten_tickers
  else match opt_tickers args with
       | Some (t :: l) => Some (t :: l)
       | _ => None
       end.

Definition main (w : World) (args : Args) (response : string) (st : Store)
    (f : option nat) : Z * State :=
  if opt_full args && negb (bool_decide (lower response ∈ ["yes"; "y"]%string))
  then (0, new_collector st f)
  else
    match collect_all_data w (config args) (selection args) true
            (new_collector st f) with
    | (Ok _, s') => (0, s')
    | (Err KeyboardInterrupt, s') => (0, s')
    | (Err _, s') => (1, s')
    end.

End collect_data.

(** ** The artifacts of a ticker *)

(** [t] has a non-empty CSV under [historical/]. *)
Definition has_csv (st : Store) (t : string) : Prop :=
  ∃ d, historical st !! t = Some d ∧ df_empty d = false.

(** [t] has a JSON under [fundamentals/] whose [ticker] field is [t]. *)
Definition has_json (st : Store) (t : string) : Prop :=
  ∃ f, fundamentals st !! t = Some f
       ∧ dict_get "ticker" f = Some (Some t).

(** What a piece of a run does to the artifacts: none is lost, and a
    ticker appended to the successful list has its own. *)
Record artifacts_kept (w : World) (s s' : State) : Prop := {
  ak_trace : trace s `prefix_of` trace s';
  ak_csv : ∀ t, has_csv (store s) t → has_csv (store s') t;
  ak_json : ∀ t, has_json (store s) t → has_json (store s') t;
  ak_marked : ∀ t, t ∈ marked true (new_events s s') →
              has_csv (store s') t
              ∧ (is_Some (yf_info w t) → has_json (store s') t)
}.

Definition keeps {A} (w : World) (m : M A) : Prop :=
  ∀ s, artifacts_kept w s (m s).2.

(** A progress file that the resume block can trust: no ticker twice
    in its two lists, and a batch index that is not negative. *)
Definition progress_wf (st : Store) : Prop :=
  NoDup (default [] (p_successful_tickers (loaded st))
         ++ default [] (p_failed_tickers (loaded st)))
  ∧ 0 ≤ default 0 (p_last_batch_index (loaded st)).

(** The pauses of a trace, in order. *)
Definition sleeps (evs : list Event) : list N :=
  omap (λ e, match e with EvSleep d => Some d | _ => None end) evs.

(** ** Runs that do not read the files *)

(** Two collectors that differ in their files only. *)
Definition same_collector (s s' : State) : Prop :=
  successful_tickers s = successful_tickers s'
  ∧ failed_tickers s = failed_tickers s'
  ∧ trace s = trace s'
  ∧ fuse s = fuse s'.

(** [m] and [m'] end the same way and move such collectors alike. *)
Definition files_blind {A} (m m' : M A) : Prop :=
  ∀ s s', same_collector s s' →
    (m s).1 = (m' s').1 ∧ same_collector (m s).2 (m' s').2.

(** * Properties *)

Local Open Scope string_scope.
Local Open Scope list_scope.
Local Open Scope Z_scope.

(** ** Traces and steps *)

(** ** Traces *)

Lemma marks_app e1 e2 : marks (e1 ++ e2) = marks e1 ++ marks e2.
Proof. apply omap_app. Qed.
Lemma marked_app b e1 e2 : marked b (e1 ++ e2) = marked b e1 ++ marked b e2.
Proof. apply omap_app. Qed.
Lemma downloads_app e1 e2 : downloads (e1 ++ e2) = downloads e1 ++ downloads e2.
Proof. apply omap_app. Qed.
Lemma persisted_app e1 e2 : persisted (e1 ++ e2) = persisted e1 ++ persisted e2.
Proof. apply omap_app. Qed.
Lemma summaries_app e1 e2 : summaries (e1 ++ e2) = summaries e1 ++ summaries e2.
Proof. apply omap_app. Qed.
Lemma csv_written_app e1 e2 :
  csv_written (e1 ++ e2) = csv_written e1 ++ csv_written e2.
Proof. apply omap_app. Qed.
Lemma json_written_app e1 e2 :
  json_written (e1 ++ e2) = json_written e1 ++ json_written e2.
Proof. apply omap_app. Qed.

Lemma last_write_app {A} (old : option A) (w1 w2 : list A) :
  last_write (last_write old w1) w2 = last_write old (w1 ++ w2).
Proof.
  unfold last_write. rewrite last_app.
  destruct (last w2); [done|]. by destruct (last w1).
Qed.

Lemma steps_refl s : steps s [] s.
Proof. split; simpl; rewrite ?app_nil_r; done. Qed.

Lemma steps_trans s e1 s1 e2 s2 :
  steps s e1 s1 → steps s1 e2 s2 → steps s (e1 ++ e2) s2.
Proof.
  intros [T1 S1 F1 H1 U1 P1 M1 X1] [T2 S2 F2 H2 U2 P2 M2 X2]. split.
  - rewrite T2, T1. by rewrite app_assoc.
  - rewrite S2, S1, marked_app. by rewrite app_assoc.
  - rewrite F2, F1, marked_app. by rewrite app_assoc.
  - intros t Ht. rewrite csv_written_app in Ht.
    apply not_elem_of_app in Ht as [Ht1 Ht2]. by rewrite H2, H1.
  - intros t Ht. rewrite json_written_app in Ht.
    apply not_elem_of_app in Ht as [Ht1 Ht2]. by rewrite U2, U1.
  - by rewrite P2, P1, persisted_app, last_write_app.
  - by rewrite M2, M1, summaries_app, last_write_app.
  - auto.
Qed.

Lemma steps_set_fuse s f : (fuse s = None → f = None) → steps s [] (set_fuse f s).
Proof. intros. split; simpl; rewrite ?app_nil_r; done. Qed.

Lemma tick_inv s o s' :
  tick s = (o, s') →
  (o = Err KeyboardInterrupt ∧ s' = s ∧ fuse s ≠ None)
  ∨ (o = Ok tt ∧ steps s [] s').
Proof.
  unfold tick. destruct (fuse s) as [[|n]|] eqn:E; intros [= <- <-].
  - left. done.
  - right. split; [done|]. apply steps_set_fuse. by rewrite E.
  - right. split; [done|]. apply steps_refl.
Qed.


Section Runs.
Variable w : World.
Variable cfg : Config.

Ltac steps_now := split; simpl; rewrite ?app_nil_r; try done.

Lemma log_plain e s :
  marks [e] = [] → persisted [e] = [] → summaries [e] = [] →
  csv_written [e] = [] → json_written [e] = [] →
  steps s [e] (add_event e s).
Proof.
  intros Hm Hp Hs Hc Hj.
  split; simpl; rewrite ?Hp, ?Hs; try done.
  all: destruct e; try done; by rewrite app_nil_r.
Qed.

Lemma mark_successful_steps t s :
  mark_successful t s = (Ok tt, (mark_successful t s).2)
  ∧ steps s [EvMark t true] (mark_successful t s).2.
Proof. split; [done|]. steps_now. Qed.

Lemma mark_failed_steps t s :
  mark_failed t s = (Ok tt, (mark_failed t s).2)
  ∧ steps s [EvMark t false] (mark_failed t s).2.
Proof. split; [done|]. steps_now. Qed.

Lemma save_historical_data_inv t d s o s' :
  save_historical_data w t d s = (o, s') →
  (o = Ok tt ∧ (df_empty d || to_csv_ok w t) = true
   ∧ steps s (if df_empty d then [] else [EvToCsv t (to_csv_ok w t)]) s')
  ∨ (o = Err OSError ∧ (df_empty d || to_csv_ok w t) = false
     ∧ steps s [EvToCsv t (to_csv_ok w t)] s')
  ∨ (o = Err KeyboardInterrupt ∧ s' = s ∧ fuse s ≠ None).
Proof.
  unfold save_historical_data. destruct (df_empty d) eqn:Hd; simpl.
  - intros [= <- <-]. left. split_and!; [done..|apply steps_refl].
  - unfold bind at 1. destruct (tick s) as [o1 s1] eqn:Ht.
    apply tick_inv in Ht as [(-> & -> & Hf)|[-> Hs1]].
    + intros [= <- <-]. by right; right.
    + unfold bind, log, modify. simpl.
      destruct (to_csv_ok w t) eqn:Hok; intros [= <- <-].
      * left. split_and!; [done..|].
        apply (steps_trans s [] s1 [_]); [done|].
        split; simpl; rewrite ?app_nil_r; try done.
        intros t' Ht'. rewrite lookup_insert_ne; [done|]. set_solver.
      * right; left. split_and!; [done..|].
        apply (steps_trans s [] s1 [_]); [done|].
        by apply log_plain.
Qed.

Lemma download_fundamentals_inv t s o s' :
  download_fundamentals w t s = (o, s') →
  (o = Ok (fundamentals_of w t) ∧ steps s [EvInfo t] s')
  ∨ (o = Err KeyboardInterrupt ∧ s' = s ∧ fuse s ≠ None).
Proof.
  unfold download_fundamentals, try_except, bind at 1.
  destruct (tick s) as [o1 s1] eqn:Ht.
  apply tick_inv in Ht as [(-> & -> & Hf)|[-> Hs1]].
  - intros [= <- <-]. by right.
  - unfold bind, log, modify, fundamentals_of. simpl.
    assert (steps s [EvInfo t] (add_event (EvInfo t) s1)).
    { apply (steps_trans s [] s1 [_]); [done|]. by apply log_plain. }
    destruct (yf_info w t); simpl; intros [= <- <-]; by left.
Qed.

Lemma save_fundamentals_inv t info s o s' :
  save_fundamentals w (extract_metrics w t info) s = (o, s') →
  (o = Ok tt ∧ json_dump_ok w t = true ∧ steps s [EvFundJson t true] s')
  ∨ (o = Err OSError ∧ json_dump_ok w t = false
     ∧ steps s [EvFundJson t false] s')
  ∨ (o = Err KeyboardInterrupt ∧ s' = s ∧ fuse s ≠ None).
Proof.
  unfold save_fundamentals. simpl. unfold bind at 1.
  destruct (tick s) as [o1 s1] eqn:Ht.
  apply tick_inv in Ht as [(-> & -> & Hf)|[-> Hs1]].
  - intros [= <- <-]. by right; right.
  - unfold bind, log, modify. simpl.
    destruct (json_dump_ok w t) eqn:Hok; intros [= <- <-].
    + left. split_and!; [done..|].
      apply (steps_trans s [] s1 [_]); [done|].
      split; simpl; rewrite ?app_nil_r; try done.
      intros t' Ht'. rewrite lookup_insert_ne; [done|]. set_solver.
    + right; left. split_and!; [done..|].
      apply (steps_trans s [] s1 [_]); [done|]. by apply log_plain.
Qed.

(** Processing one ticker. *)
Lemma collect_ticker_inv hist t s o s' :
  collect_ticker w hist t s = (o, s') →
  ∃ evs, steps s evs s'
    ∧ ((o = Ok tt ∧ evs = ticker_events w hist t)
       ∨ (o = Err KeyboardInterrupt ∧ fuse s ≠ None
          ∧ evs `prefix_of` ticker_events w hist t)).
Proof.
  unfold collect_ticker, try_except, ticker_events.
  destruct (hist !! t) as [d|] eqn:Hh.
  2:{ intros [= <- <-]. eexists. split; [apply mark_failed_steps|]. by left. }
  unfold bind at 1.
  destruct (save_historical_data w t d s) as [o1 s1] eqn:H1.
  apply save_historical_data_inv in H1
    as [(-> & Hok & Hs1)|[(-> & Hok & Hs1)|(-> & -> & Hf)]].
  - rewrite Hok. unfold bind at 1.
    destruct (download_fundamentals w t s1) as [o2 s2] eqn:H2.
    apply download_fundamentals_inv in H2 as [(-> & Hs2)|(-> & -> & Hf)].
    + unfold fundamentals_of. destruct (yf_info w t) as [info|]; simpl.
      * unfold bind at 1.
        destruct (save_fundamentals w _ s2) as [o3 s3] eqn:H3.
        apply save_fundamentals_inv in H3
          as [(-> & Hj & Hs3)|[(-> & Hj & Hs3)|(-> & -> & Hf)]]; rewrite ?Hj.
        -- intros [= <- <-]. eexists. split; [|by left].
           eapply steps_trans; [done|]. apply (steps_trans _ [_] s2); [done|].
           apply (steps_trans _ [_] s3 [_]); [done|]. apply mark_successful_steps.
        -- simpl. intros [= <- <-]. eexists. split; [|by left].
           eapply steps_trans; [done|]. apply (steps_trans _ [_] s2); [done|].
           apply (steps_trans _ [_] s3 [_]); [done|]. apply mark_failed_steps.
        -- simpl. intros [= <- <-].
           pose proof (steps_trans _ _ _ _ _ Hs1 Hs2) as Hst.
           eexists. split; [exact Hst|right].
           split_and!; [done|..].
           { intros Hn. apply Hf. by eapply st_fuse. }
           apply prefix_app, prefix_cons. apply prefix_nil.
      * intros [= <- <-]. eexists. split; [|by left].
        eapply steps_trans; [done|]. apply (steps_trans _ [_] s2 [_]); [done|].
        apply mark_successful_steps.
    + simpl. intros [= <- <-]. eexists. split; [|right].
      { rewrite <- (app_nil_r (if df_empty d then _ else _)) in Hs1. apply Hs1. }
      split_and!; [done|..].
      { intros Hn. apply Hf. by eapply st_fuse. }
      rewrite app_nil_r. by apply prefix_app_r.
  - rewrite Hok. simpl. destruct (df_empty d) eqn:Hd; [done|]. simpl in *.
    intros [= <- <-]. eexists. split; [|by left].
    apply (steps_trans _ [_] s1 [_]); [done|]. apply mark_failed_steps.
  - simpl. intros [= <- <-]. exists []. split; [apply steps_refl|right].
    split_and!; [done..|apply prefix_nil].
Qed.

Lemma for_each_ticker_inv hist batch s o s' :
  for_each batch (collect_ticker w hist) s = (o, s') →
  ∃ evs, steps s evs s'
    ∧ ((o = Ok tt ∧ evs = flat_map (ticker_events w hist) batch)
       ∨ (o = Err KeyboardInterrupt ∧ fuse s ≠ None
          ∧ evs `prefix_of` flat_map (ticker_events w hist) batch)).
Proof.
  revert s. induction batch as [|t batch IH]; intros s; simpl.
  - intros [= <- <-]. exists []. split; [apply steps_refl|by left].
  - unfold bind at 1. destruct (collect_ticker w hist t s) as [o1 s1] eqn:H1.
    apply collect_ticker_inv in H1
      as (e1 & Hs1 & [(-> & ->)|(-> & Hf & Hp)]).
    + intros H2. apply IH in H2 as (e2 & Hs2 & [(-> & ->)|(-> & Hf & Hp)]).
      * eexists. split; [by eapply steps_trans|by left].
      * eexists. split; [by eapply steps_trans|right].
        split_and!; [done| |by apply prefix_app].
        intros Hn. apply Hf. by eapply st_fuse.
    + intros [= <- <-]. eexists. split; [done|right].
      split_and!; [done..|by apply prefix_app_r].
Qed.

Lemma download_batch_historical_inv tickers sd ed s o s' :
  download_batch_historical w tickers sd ed s = (o, s') →
  (o = Ok (fetched w tickers sd ed) ∧ steps s [EvDownload tickers] s')
  ∨ (o = Err KeyboardInterrupt ∧ s' = s ∧ fuse s ≠ None).
Proof.
  unfold download_batch_historical, try_except, bind at 1.
  destruct (tick s) as [o1 s1] eqn:Ht.
  apply tick_inv in Ht as [(-> & -> & Hf)|[-> Hs1]].
  - intros [= <- <-]. by right.
  - unfold bind, log, modify, fetched. simpl.
    assert (steps s [EvDownload tickers] (add_event (EvDownload tickers) s1)).
    { apply (steps_trans s [] s1 [_]); [done|]. by apply log_plain. }
    destruct (yf_download w tickers sd ed); simpl; intros [= <- <-]; by left.
Qed.

Lemma save_progress_inv batch_index s o s' :
  save_progress w batch_index s = (o, s') →
  (o = Ok tt
   ∧ steps s [EvProgress
                (progress_record w (successful_tickers s)
                   (failed_tickers s) batch_index)] s')
  ∨ (o = Err KeyboardInterrupt ∧ s' = s ∧ fuse s ≠ None).
Proof.
  unfold save_progress, bind at 1. simpl. unfold bind at 1.
  destruct (tick s) as [o1 s1] eqn:Ht.
  apply tick_inv in Ht as [(-> & -> & Hf)|[-> Hs1]].
  - intros [= <- <-]. by right.
  - unfold bind, log, modify. simpl. intros [= <- <-]. left. split; [done|].
    apply (steps_trans s [] s1 [_]); [done|].
    split; simpl; rewrite ?app_nil_r; done.
Qed.

Lemma sleep_inv d s o s' :
  sleep d s = (o, s') →
  (o = Ok tt ∧ steps s [EvSleep d] s')
  ∨ (o = Err KeyboardInterrupt ∧ s' = s ∧ fuse s ≠ None).
Proof.
  unfold sleep, bind at 1.
  destruct (tick s) as [o1 s1] eqn:Ht.
  apply tick_inv in Ht as [(-> & -> & Hf)|[-> Hs1]].
  - intros [= <- <-]. by right.
  - unfold log, modify. intros [= <- <-]. left. split; [done|].
    apply (steps_trans s [] s1 [_]); [done|]. by apply log_plain.
Qed.

(** Processing one batch. *)
Lemma collect_batch_inv tickers total sd ed idx s o s' :
  collect_batch w cfg tickers total sd ed idx s = (o, s') →
  ∃ evs, steps s evs s'
    ∧ ((o = Ok tt
        ∧ evs = batch_events w cfg tickers total sd ed
                  (successful_tickers s) (failed_tickers s) idx)
       ∨ (o = Err KeyboardInterrupt ∧ fuse s ≠ None
          ∧ evs `prefix_of` batch_events w cfg tickers total sd ed
                  (successful_tickers s) (failed_tickers s) idx)).
Proof.
  unfold collect_batch, batch_events, batch_ticker_events, pause.
  set (batch := batch_of cfg tickers idx).
  unfold bind at 1.
  destruct (download_batch_historical w batch sd ed s) as [o1 s1] eqn:H1.
  apply download_batch_historical_inv in H1 as [(-> & Hs1)|(-> & -> & Hf)].
  2:{ intros [= <- <-]. exists []. split; [apply steps_refl|right].
      split_and!; [done..|apply prefix_nil]. }
  set (hist := fetched w batch sd ed).
  unfold bind at 1.
  destruct (for_each batch (collect_ticker w hist) s1) as [o2 s2] eqn:H2.
  apply for_each_ticker_inv in H2 as (e2 & Hs2 & [(-> & ->)|(-> & Hf & Hp)]).
  2:{ intros [= <- <-]. eexists. split; [by eapply steps_trans|right].
      split_and!; [done| |].
      - intros Hn. apply Hf. by eapply st_fuse.
      - simpl. apply prefix_cons. by apply prefix_app_r. }
  set (e2 := flat_map (ticker_events w hist) batch) in *.
  pose proof (steps_trans _ _ _ _ _ Hs1 Hs2) as Hs12. simpl in Hs12.
  unfold bind at 1.
  destruct (save_progress w (idx + 1) s2) as [o3 s3] eqn:H3.
  apply save_progress_inv in H3 as [(-> & Hs3)|(-> & -> & Hf)].
  2:{ intros [= <- <-]. eexists. split; [done|right].
      split_and!; [done| |].
      - intros Hn. apply Hf. by eapply st_fuse.
      - apply prefix_cons. by apply prefix_app_r. }
  rewrite (st_succ _ _ _ Hs12), (st_fail _ _ _ Hs12) in Hs3.
  change (marked true (EvDownload batch :: e2)) with (marked true e2) in Hs3.
  change (marked false (EvDownload batch :: e2)) with (marked false e2) in Hs3.
  pose proof (steps_trans _ _ _ _ _ Hs12 Hs3) as Hs123.
  cbn [app] in Hs123 |- *.
  destruct (idx <? total - 1).
  - intros H4. apply sleep_inv in H4 as [(-> & Hs4)|(-> & -> & Hf)].
    + pose proof (steps_trans _ _ _ _ _ Hs123 Hs4) as Hs1234.
      cbn [app] in Hs1234. rewrite <- app_assoc in Hs1234.
      eexists. split; [done|by left].
    + eexists. split; [done|right]. split_and!; [done| |].
      * intros Hn. apply Hf. by eapply st_fuse.
      * apply prefix_cons, prefix_app. by exists [EvSleep (delay_between_batches cfg)].
  - intros [= <- <-]. eexists. split; [done|by left].
Qed.

(** The batch loop. *)
Lemma for_each_batch_inv tickers total sd ed idxs s o s' :
  for_each idxs (collect_batch w cfg tickers total sd ed) s = (o, s') →
  ∃ evs, steps s evs s'
    ∧ ((o = Ok tt
        ∧ evs = loop_events w cfg tickers total sd ed
                  (successful_tickers s) (failed_tickers s) idxs)
       ∨ (o = Err KeyboardInterrupt ∧ fuse s ≠ None
          ∧ evs `prefix_of` loop_events w cfg tickers total sd ed
                  (successful_tickers s) (failed_tickers s) idxs)).
Proof.
  revert s. induction idxs as [|i idxs IH]; intros s;
    cbn [for_each loop_events].
  - intros [= <- <-]. exists []. split; [apply steps_refl|by left].
  - unfold bind at 1.
    destruct (collect_batch w cfg tickers total sd ed i s) as [o1 s1] eqn:H1.
    apply collect_batch_inv in H1
      as (e1 & Hs1 & [(-> & He1)|(-> & Hf & Hp)]).
    + intros H2. apply IH in H2 as (e2 & Hs2 & H2).
      rewrite (st_succ _ _ _ Hs1), (st_fail _ _ _ Hs1) in H2.
      rewrite <- He1.
      destruct H2 as [(-> & ->)|(-> & Hf & Hp)].
      * eexists. split; [by eapply steps_trans|by left].
      * eexists. split; [by eapply steps_trans|right].
        split_and!; [done| |by apply prefix_app].
        intros Hn. apply Hf. by eapply st_fuse.
    + intros [= <- <-]. eexists. split; [done|right].
      split_and!; [done..|by apply prefix_app_r].
Qed.

Lemma floordiv_inv a b s o s' :
  floordiv a b s = (o, s') →
  s' = s ∧ ((o = Ok (a `div` b) ∧ b ≠ 0) ∨ (o = Err ZeroDivisionError ∧ b = 0)).
Proof.
  unfold floordiv. destruct (Z.eqb_spec b 0); intros [= <- <-]; naive_solver.
Qed.

Lemma resume_from_progress_eq tickers s :
  resume_from_progress tickers s
  = (Ok (start_of true (store s), working true (store s) tickers),
     resumed true s).
Proof.
  unfold resume_from_progress, load_progress, bind, get, modify. simpl.
  unfold start_of, working, resumed, loaded.
  by destruct (progress_file (store s)).
Qed.

(** The whole run. *)
Lemma collect_all_data_inv tickers resume s o s' :
  collect_all_data w cfg tickers resume s = (o, s') →
  (o = Err KeyboardInterrupt ∧ s' = s ∧ fuse s ≠ None ∧ tickers = None)
  ∨ ∃ evs, steps (resumed resume s) evs s'
      ∧ ((o = Ok tt ∧ batch_size cfg ≠ 0
          ∧ evs = listing_events tickers
                  ++ batches_events w cfg tickers resume s
                  ++ [EvSummary
                        (make_summary w cfg (successful_tickers s')
                           (failed_tickers s') (start_date_of w cfg)
                           (today w))])
         ∨ (o = Err KeyboardInterrupt ∧ fuse s ≠ None
            ∧ evs `prefix_of` listing_events tickers
                              ++ batches_events w cfg tickers resume s)
         ∨ (o = Err ZeroDivisionError ∧ batch_size cfg = 0
            ∧ evs = listing_events tickers)).
Proof.
  unfold collect_all_data. unfold bind at 1.
  set (first := match tickers with None => _ | Some l => _ end).
  assert (first s = (Err KeyboardInterrupt, s) ∧ fuse s ≠ None ∧ tickers = None
          ∨ ∃ s1, first s = (Ok (given w tickers), s1)
              ∧ steps s (listing_events tickers) s1
              ∧ store s1 = store s) as [(-> & Hf & ->)|(s1 & -> & Hs1 & Hst)].
  { subst first. destruct tickers as [l|]; simpl.
    - right. exists s. split_and!; [reflexivity|apply steps_refl|done].
    - unfold get_all_tickers, bind. destruct (tick s) as [o1 s1] eqn:Ht.
      pose proof Ht as Ht'.
      apply tick_inv in Ht as [(-> & -> & Hf)|[-> Hs1]]; [by left|].
      right. exists (add_event EvListing s1). split_and!; [reflexivity| |].
      + apply (steps_trans s [] s1 [_]); [done|]. by apply log_plain.
      + unfold tick in Ht'. simpl.
        destruct (fuse s) as [[|n]|]; by simplify_eq. }
  { intros [= <- <-]. by left. }
  intros H. right. unfold bind at 1 in H.
  assert (∃ s2, (if resume then resume_from_progress (given w tickers)
                 else ret (0, given w tickers)) s1
                = (Ok (start_of resume (store s),
                       working resume (store s) (given w tickers)), s2)
              ∧ steps (resumed resume s) (listing_events tickers) s2)
    as (s2 & H2 & Hs2).
  { destruct resume.
    - rewrite resume_from_progress_eq, Hst. eexists. split; [done|].
      assert (marked true (listing_events tickers) = []
              ∧ marked false (listing_events tickers) = []) as [Ht Hf]
        by by destruct tickers.
      destruct Hs1. unfold resumed.
      split; simpl; rewrite ?Hst, ?Ht, ?Hf, ?app_nil_r in *; done.
    - exists s1. done. }
  rewrite H2 in H. clear H2 first. simpl in H.
  set (wk := working resume (store s) (given w tickers)) in *.
  unfold bind at 1 in H.
  destruct (floordiv _ _ s2) as [o3 s3] eqn:H3.
  apply floordiv_inv in H3 as [-> [[-> Hbs]|[-> Hbs]]].
  2:{ injection H as <- <-. eexists. split; [done|]. by right; right. }
  fold (total_of cfg wk) in H. fold (start_date_of w cfg) in H.
  unfold bind at 1 in H.
  destruct (for_each _ _ s2) as [o4 s4] eqn:H4.
  apply for_each_batch_inv in H4 as (e4 & Hs4 & H4).
  rewrite (st_succ _ _ _ Hs2), (st_fail _ _ _ Hs2) in H4.
  assert (marked true (listing_events tickers) = []
          ∧ marked false (listing_events tickers) = []) as [Ht Hf]
    by by destruct tickers.
  rewrite Ht, Hf, !app_nil_r in H4. fold (batches_events w cfg tickers resume s) in H4.
  pose proof (steps_trans _ _ _ _ _ Hs2 Hs4) as Hs24.
  destruct H4 as [(-> & ->)|(-> & Hf4 & Hp)].
  2:{ injection H as <- <-. eexists. split; [done|right; left].
      split_and!; [done| |by apply prefix_app].
      intros Hn. apply Hf4. eapply st_fuse; [done|]. by destruct resume. }
  unfold bind at 1 in H. simpl in H. unfold bind at 1 in H.
  destruct (tick s4) as [o5 s5] eqn:H5.
  apply tick_inv in H5 as [(-> & -> & Hf5)|[-> Hs5]].
  { injection H as <- <-. eexists. split; [done|right; left].
    split_and!; [done| |done].
    intros Hn. apply Hf5. eapply st_fuse; [done|]. by destruct resume. }
  unfold bind, log, modify in H. simpl in H. injection H as <- <-.
  eexists. split.
  - eapply steps_trans; [exact Hs24|].
    apply (steps_trans s4 [] s5
             [EvSummary (make_summary w cfg (successful_tickers s4)
                           (failed_tickers s4) (start_date_of w cfg)
                           (today w))]); [done|].
    split; simpl; rewrite ?app_nil_r; done.
  - left. split_and!; [done..|].
    pose proof (st_succ _ _ _ Hs5) as E1. pose proof (st_fail _ _ _ Hs5) as E2.
    simpl in *. rewrite app_nil_r in E1, E2. rewrite E1, E2.
    by rewrite <- app_assoc.
Qed.
End Runs.

(** ** Batching arithmetic and the effect lists *)

Section Batching.
Variable cfg : Config.

Lemma batch_of_subseteq (tickers : list string) i :
  batch_of cfg tickers i ⊆ tickers.
Proof.
  unfold batch_of, py_slice.
  etrans; [apply subseteq_take|apply subseteq_drop].
Qed.

(** For a positive batch size and a batch index from [0] on, the slice
    is the plain chunk. *)
Lemma batch_of_chunk (tickers : list string) (k : nat) :
  0 < batch_size cfg →
  batch_of cfg tickers (Z.of_nat k)
  = take (Z.to_nat (batch_size cfg)) (drop (k * Z.to_nat (batch_size cfg)) tickers).
Proof.
  intros HN. unfold batch_of, py_slice, slice_bound, len.
  set (L := Z.of_nat (length tickers)).
  assert (0 ≤ L) by lia.
  assert (0 ≤ Z.of_nat k * batch_size cfg) by nia.
  rewrite !(proj2 (Z.ltb_ge _ 0)) by lia.
  replace (Z.min (Z.min (Z.of_nat k * batch_size cfg + batch_size cfg) L) L)
    with (Z.min (Z.of_nat k * batch_size cfg + batch_size cfg) L) by lia.
  destruct (decide (Z.of_nat k * batch_size cfg ≤ L)) as [Hle|Hgt].
  - rewrite (Z.min_l (Z.of_nat k * batch_size cfg)) by lia.
    replace (Z.to_nat (Z.of_nat k * batch_size cfg)) with (k * Z.to_nat (batch_size cfg))%nat by lia.
    destruct (decide (Z.of_nat k * batch_size cfg + batch_size cfg ≤ L)).
    + f_equal. lia.
    + rewrite !take_ge; [done|rewrite length_drop; lia..].
  - rewrite (Z.min_r (Z.of_nat k * batch_size cfg)) by lia.
    rewrite !drop_ge by lia. by rewrite !take_nil.
Qed.

Lemma flat_map_batches (tickers : list string) (k : nat) :
  0 < batch_size cfg →
  flat_map (batch_of cfg tickers) (seqZ 0 (Z.of_nat k))
  = take (k * Z.to_nat (batch_size cfg)) tickers.
Proof.
  intros HN. induction k as [|k IH].
  - done.
  - rewrite seqZ_S, flat_map_app, IH. cbn [flat_map].
    rewrite app_nil_r, Z.add_0_l.
    rewrite batch_of_chunk by done. rewrite take_take_drop. f_equal. lia.
Qed.

(** [total_batches] is the ceiling of [L / batch_size cfg]. *)
Lemma total_of_ceil (tickers : list string) :
  0 < batch_size cfg →
  batch_size cfg * (total_of cfg tickers - 1) < len tickers ≤ batch_size cfg * total_of cfg tickers.
Proof.
  intros HN. unfold total_of.
  pose proof (Z.div_mod (len tickers + batch_size cfg - 1) (batch_size cfg)).
  pose proof (Z.mod_pos_bound (len tickers + batch_size cfg - 1) (batch_size cfg)).
  lia.
Qed.

Lemma total_of_nonneg (tickers : list string) :
  0 < batch_size cfg → 0 ≤ total_of cfg tickers.
Proof.
  intros HN. pose proof (total_of_ceil tickers HN). unfold len in *. nia.
Qed.

Lemma batches_partition (tickers : list string) :
  0 < batch_size cfg →
  flat_map (batch_of cfg tickers) (range 0 (total_of cfg tickers)) = tickers.
Proof.
  intros HN. unfold range. rewrite Z.sub_0_r.
  pose proof (total_of_ceil tickers HN). pose proof (total_of_nonneg tickers HN).
  rewrite <- (Z2Nat.id (total_of cfg tickers)) by done.
  rewrite flat_map_batches by done. apply take_ge. unfold len in *. nia.
Qed.

Lemma batch_of_length (tickers : list string) i :
  0 < batch_size cfg → 0 ≤ i < total_of cfg tickers →
  len (batch_of cfg tickers i)
  = if i <? total_of cfg tickers - 1 then batch_size cfg
    else len tickers - batch_size cfg * (total_of cfg tickers - 1).
Proof.
  intros HN Hi. pose proof (total_of_ceil tickers HN).
  replace (batch_of cfg tickers i)
    with (batch_of cfg tickers (Z.of_nat (Z.to_nat i)))
    by (f_equal; lia).
  rewrite batch_of_chunk by done.
  unfold len in *. rewrite length_take, length_drop.
  set (T := total_of cfg tickers) in *.
  assert (Z.of_nat (Z.to_nat i * Z.to_nat (batch_size cfg))
          = batch_size cfg * i) as Hm by nia.
  destruct (Z.ltb_spec i (T - 1)).
  - assert (batch_size cfg * (i + 1) ≤ batch_size cfg * (T - 1)) by nia.
    lia.
  - assert (i = T - 1) as -> by lia. lia.
Qed.
End Batching.

Lemma omap_prefix {A B} (f : A → option B) (l1 l2 : list A) :
  l1 `prefix_of` l2 → omap f l1 `prefix_of` omap f l2.
Proof. intros [k ->]. rewrite omap_app. by eexists. Qed.

Lemma marked_marks b evs : marked b evs = (filter (λ m, m.2 = b) (marks evs)).*1.
Proof.
  induction evs as [|e evs IH]; [done|].
  destruct e; simpl; try done.
  rewrite filter_cons. simpl.
  destruct b, ok; simpl; try done; by rewrite IH.
Qed.

Section EffectLists.
Variable w : World.
Variable cfg : Config.

Lemma marks_ticker_events hist t :
  marks (ticker_events w hist t) = [(t, ticker_ok w hist t)].
Proof.
  unfold ticker_events, ticker_ok.
  destruct (hist !! t) as [d|]; [|done].
  destruct (df_empty d), (to_csv_ok w t), (yf_info w t),
    (json_dump_ok w t); done.
Qed.

Lemma quiet_ticker_events hist t :
  downloads (ticker_events w hist t) = []
  ∧ persisted (ticker_events w hist t) = []
  ∧ summaries (ticker_events w hist t) = [].
Proof.
  unfold ticker_events.
  destruct (hist !! t) as [d|]; [|done].
  destruct (df_empty d), (to_csv_ok w t), (yf_info w t),
    (json_dump_ok w t); done.
Qed.

Lemma touched_ticker_events hist t :
  Forall (λ e, touched e = [t]) (ticker_events w hist t).
Proof.
  unfold ticker_events.
  destruct (hist !! t) as [d|]; [|by repeat constructor].
  destruct (df_empty d), (to_csv_ok w t), (yf_info w t),
    (json_dump_ok w t); by repeat constructor.
Qed.

Lemma marks_batch_tickers hist batch :
  marks (flat_map (ticker_events w hist) batch)
  = map (λ t, (t, ticker_ok w hist t)) batch.
Proof.
  induction batch as [|t batch IH]; [done|].
  cbn [flat_map]. by rewrite marks_app, marks_ticker_events, IH.
Qed.

Lemma quiet_batch_tickers hist batch :
  downloads (flat_map (ticker_events w hist) batch) = []
  ∧ persisted (flat_map (ticker_events w hist) batch) = []
  ∧ summaries (flat_map (ticker_events w hist) batch) = [].
Proof.
  induction batch as [|t batch (IH1 & IH2 & IH3)]; [done|].
  cbn [flat_map]. rewrite downloads_app, persisted_app, summaries_app.
  destruct (quiet_ticker_events hist t) as (-> & -> & ->).
  by rewrite IH1, IH2, IH3.
Qed.

Lemma touched_batch_tickers hist batch :
  Forall (λ e, touched e ⊆ batch) (flat_map (ticker_events w hist) batch).
Proof.
  induction batch as [|t batch IH]; [constructor|].
  cbn [flat_map]. apply Forall_app. split.
  - eapply Forall_impl; [apply touched_ticker_events|].
    intros e -> x ->%list_elem_of_singleton. apply list_elem_of_here.
  - eapply Forall_impl; [apply IH|].
    intros e He x Hx. apply list_elem_of_further. by apply He.
Qed.

Lemma pause_quiet total i :
  marks (pause cfg total i) = [] ∧ downloads (pause cfg total i) = []
  ∧ persisted (pause cfg total i) = [] ∧ summaries (pause cfg total i) = []
  ∧ Forall (λ e, touched e = []) (pause cfg total i).
Proof. unfold pause. destruct (i <? total - 1); by repeat constructor. Qed.

Lemma marks_batch_events tickers total sd ed succ fail i :
  marks (batch_events w cfg tickers total sd ed succ fail i)
  = batch_marks w cfg tickers sd ed i.
Proof.
  unfold batch_events, batch_ticker_events, batch_marks.
  rewrite !marks_app, marks_batch_tickers.
  destruct (pause_quiet total i) as (-> & _). simpl. by rewrite app_nil_r.
Qed.

Lemma downloads_batch_events tickers total sd ed succ fail i :
  downloads (batch_events w cfg tickers total sd ed succ fail i)
  = [batch_of cfg tickers i].
Proof.
  unfold batch_events, batch_ticker_events.
  rewrite !downloads_app.
  destruct (quiet_batch_tickers (fetched w (batch_of cfg tickers i) sd ed)
              (batch_of cfg tickers i)) as (-> & _).
  by destruct (pause_quiet total i) as (_ & -> & _).
Qed.

Lemma persisted_batch_events tickers total sd ed succ fail i :
  persisted (batch_events w cfg tickers total sd ed succ fail i)
  = [progress_record w
       (succ ++ marked true (batch_ticker_events w cfg tickers sd ed i))
       (fail ++ marked false (batch_ticker_events w cfg tickers sd ed i))
       (i + 1)].
Proof.
  unfold batch_events. rewrite !persisted_app. unfold batch_ticker_events.
  destruct (quiet_batch_tickers (fetched w (batch_of cfg tickers i) sd ed)
              (batch_of cfg tickers i)) as (_ & -> & _).
  by destruct (pause_quiet total i) as (_ & _ & -> & _).
Qed.

Lemma summaries_batch_events tickers total sd ed succ fail i :
  summaries (batch_events w cfg tickers total sd ed succ fail i) = [].
Proof.
  unfold batch_events, batch_ticker_events. rewrite !summaries_app.
  destruct (quiet_batch_tickers (fetched w (batch_of cfg tickers i) sd ed)
              (batch_of cfg tickers i)) as (_ & _ & ->).
  by destruct (pause_quiet total i) as (_ & _ & _ & -> & _).
Qed.

Lemma touched_batch_events tickers total sd ed succ fail i :
  Forall (λ e, touched e ⊆ batch_of cfg tickers i)
    (batch_events w cfg tickers total sd ed succ fail i).
Proof.
  unfold batch_events, batch_ticker_events.
  repeat (apply Forall_app; split).
  - by repeat constructor.
  - apply touched_batch_tickers.
  - repeat constructor. intros x Hx. by apply elem_of_nil in Hx.
  - destruct (pause_quiet total i) as (_ & _ & _ & _ & Hq).
    eapply Forall_impl; [exact Hq|].
    intros e -> x Hx. by apply elem_of_nil in Hx.
Qed.

Lemma marks_loop_events tickers total sd ed idxs : ∀ succ fail,
  marks (loop_events w cfg tickers total sd ed succ fail idxs)
  = flat_map (batch_marks w cfg tickers sd ed) idxs.
Proof.
  induction idxs as [|i idxs IH]; intros succ fail; [done|].
  cbn [loop_events flat_map].
  by rewrite marks_app, marks_batch_events, IH.
Qed.

Lemma downloads_loop_events tickers total sd ed idxs : ∀ succ fail,
  downloads (loop_events w cfg tickers total sd ed succ fail idxs)
  = map (batch_of cfg tickers) idxs.
Proof.
  induction idxs as [|i idxs IH]; intros succ fail; [done|].
  cbn [loop_events map].
  by rewrite downloads_app, downloads_batch_events, IH.
Qed.

Lemma summaries_loop_events tickers total sd ed idxs : ∀ succ fail,
  summaries (loop_events w cfg tickers total sd ed succ fail idxs) = [].
Proof.
  induction idxs as [|i idxs IH]; intros succ fail; [done|].
  cbn [loop_events].
  by rewrite summaries_app, summaries_batch_events, IH.
Qed.

Lemma persisted_loop_events tickers total sd ed idxs : ∀ succ fail,
  p_last_batch_index <$> persisted
    (loop_events w cfg tickers total sd ed succ fail idxs)
  = (λ i, Some (i + 1)) <$> idxs.
Proof.
  induction idxs as [|i idxs IH]; intros succ fail; [done|].
  cbn [loop_events].
  rewrite persisted_app, persisted_batch_events, fmap_app, IH. done.
Qed.

Lemma touched_loop_events tickers total sd ed idxs : ∀ succ fail,
  Forall (λ e, touched e ⊆ tickers)
    (loop_events w cfg tickers total sd ed succ fail idxs).
Proof.
  induction idxs as [|i idxs IH]; intros succ fail; [constructor|].
  cbn [loop_events]. apply Forall_app. split; [|apply IH].
  eapply Forall_impl; [apply touched_batch_events|].
  intros e He. etrans; [exact He|apply batch_of_subseteq].
Qed.
End EffectLists.

(** ** The ways a run ends *)

Section RunFacts.
Variable w : World.
Variable cfg : Config.

Lemma steps_new_events s0 s evs s' :
  trace s0 = trace s → steps s0 evs s' → new_events s s' = evs.
Proof.
  intros E Hs. unfold new_events.
  by rewrite (st_trace _ _ _ Hs), E, drop_app_length.
Qed.

Lemma resumed_frame resume s :
  trace (resumed resume s) = trace s
  ∧ store (resumed resume s) = store s
  ∧ fuse (resumed resume s) = fuse s.
Proof. by destruct resume. Qed.

(** The three ways a run ends, with the effects it had. *)
Lemma run_cases tickers resume s :
  let r := collect_all_data w cfg tickers resume s in
  let evs := new_events s r.2 in
  (r.1 = Err KeyboardInterrupt ∧ r.2 = s ∧ evs = [] ∧ fuse s ≠ None)
  ∨ (steps (resumed resume s) evs r.2
     ∧ ((r.1 = Ok tt ∧ batch_size cfg ≠ 0
         ∧ evs = listing_events tickers
                 ++ batches_events w cfg tickers resume s
                 ++ [EvSummary
                       (make_summary w cfg (successful_tickers r.2)
                          (failed_tickers r.2) (start_date_of w cfg)
                          (today w))])
        ∨ (r.1 = Err KeyboardInterrupt ∧ fuse s ≠ None
           ∧ evs `prefix_of` listing_events tickers
                             ++ batches_events w cfg tickers resume s)
        ∨ (r.1 = Err ZeroDivisionError ∧ batch_size cfg = 0
           ∧ evs = listing_events tickers))).
Proof.
  intros r evs. subst evs.
  destruct (collect_all_data w cfg tickers resume s) as [o s'] eqn:E.
  subst r. simpl.
  apply collect_all_data_inv in E as [(-> & -> & Hf & _)|(evs & Hs & H)].
  - left. split_and!; [done..| |done].
    unfold new_events. by rewrite drop_all.
  - right.
    rewrite (steps_new_events (resumed resume s) s evs s');
      [done|by destruct resume|done].
Qed.

Lemma run_uninterrupted tickers resume s :
  fuse s = None → batch_size cfg ≠ 0 →
  (collect_all_data w cfg tickers resume s).1 = Ok tt.
Proof.
  intros Hn Hb.
  destruct (run_cases tickers resume s)
    as [(_ & _ & _ & Hf)|(_ & [(H & _)|[(_ & Hf & _)|(_ & H0 & _)]])]; done.
Qed.
End RunFacts.

(** ** The summary and the resume filter *)

Lemma listing_quiet tickers :
  marks (listing_events tickers) = []
  ∧ downloads (listing_events tickers) = []
  ∧ persisted (listing_events tickers) = []
  ∧ summaries (listing_events tickers) = []
  ∧ Forall (λ e, touched e = []) (listing_events tickers).
Proof. destruct tickers; by repeat constructor. Qed.

Lemma written_touched evs t :
  t ∈ csv_written evs ∨ t ∈ json_written evs ∨ t ∈ marked true evs
  ∨ t ∈ marked false evs →
  ∃ e, e ∈ evs ∧ t ∈ touched e.
Proof.
  unfold csv_written, json_written, marked.
  rewrite !list_elem_of_omap.
  intros [(e & He & Ht)|[(e & He & Ht)|[(e & He & Ht)|(e & He & Ht)]]];
    exists e; (split; [done|]);
    destruct e as [| | ? [] | | ? [] | ? [] | | |]; simplify_eq/=;
    apply list_elem_of_here.
Qed.

Section SummaryFile.
Variable w : World.
Variable cfg : Config.

Lemma summaries_batches tickers resume s :
  summaries (listing_events tickers ++ batches_events w cfg tickers resume s)
  = [].
Proof.
  rewrite summaries_app. unfold batches_events.
  rewrite summaries_loop_events.
  by destruct (listing_quiet tickers) as (_ & _ & _ & -> & _).
Qed.

Lemma touched_batches tickers resume s :
  Forall (λ e, touched e ⊆ working resume (store s) (given w tickers))
    (listing_events tickers ++ batches_events w cfg tickers resume s).
Proof.
  apply Forall_app. split.
  - destruct (listing_quiet tickers) as (_ & _ & _ & _ & H).
    eapply Forall_impl; [exact H|]. intros e -> x Hx.
    by apply elem_of_nil in Hx.
  - apply touched_loop_events.
Qed.

(** Every effect of a run is about tickers of its working list. *)
Lemma run_touched tickers resume s :
  Forall (λ e, touched e ⊆ working resume (store s) (given w tickers))
    (new_events s (collect_all_data w cfg tickers resume s).2).
Proof.
  destruct (run_cases w cfg tickers resume s)
    as [(_ & _ & -> & _)|(_ & [(_ & _ & ->)|[(_ & _ & Hp)|(_ & _ & ->)]])].
  - constructor.
  - rewrite app_assoc. apply Forall_app. split; [apply touched_batches|].
    repeat constructor. intros x Hx. by apply elem_of_nil in Hx.
  - destruct Hp as [k Hk]. pose proof (touched_batches tickers resume s) as H.
    rewrite Hk in H. by apply Forall_app in H as [H _].
  - destruct (listing_quiet tickers) as (_ & _ & _ & _ & H).
    eapply Forall_impl; [exact H|]. intros e -> x Hx.
    by apply elem_of_nil in Hx.
Qed.

(** C7, as the code has it: the collection summary is written exactly
    once, as the last effect, by a run that completes; a run that ends in
    an exception, an interrupt included, writes none and leaves the
    summary file as it was. *)
Theorem C7_summary_written_only_on_completion tickers resume s :
  let r := collect_all_data w cfg tickers resume s in
  let evs := new_events s r.2 in
  match r.1 with
  | Ok _ =>
      let x := make_summary w cfg (successful_tickers r.2)
                 (failed_tickers r.2) (start_date_of w cfg) (today w) in
      summaries evs = [x] ∧ last evs = Some (EvSummary x)
      ∧ summary_file (store r.2) = Some x
  | Err _ =>
      summaries evs = [] ∧ summary_file (store r.2) = summary_file (store s)
  end.
Proof.
  intros r evs.
  destruct (run_cases w cfg tickers resume s)
    as [(Ho & Hs & He & _)|(Hst & [(Ho & _ & He)|[(Ho & _ & Hp)|(Ho & _ & He)]])];
    fold r in Ho; fold r evs in He || fold r evs in Hp; try fold r evs in Hst;
    try fold r in Hs; rewrite Ho.
  - rewrite He, Hs. done.
  - pose proof (st_summ _ _ _ Hst) as Hf.
    rewrite He in Hf |- *. rewrite app_assoc, summaries_app in Hf |- *.
    rewrite summaries_batches in Hf |- *. simpl in Hf |- *.
    split_and!; [done| |].
    + by rewrite last_snoc.
    + by rewrite Hf.
  - apply (omap_prefix (λ e, match e with EvSummary x => Some x | _ => None end))
      in Hp.
    fold (summaries evs) in Hp.
    fold (summaries (listing_events tickers
                     ++ batches_events w cfg tickers resume s)) in Hp.
    rewrite summaries_batches in Hp. apply prefix_nil_inv in Hp.
    pose proof (st_summ _ _ _ Hst) as Hf. rewrite Hp in Hf.
    split; [done|]. rewrite Hf. by destruct resume.
  - pose proof (st_summ _ _ _ Hst) as Hf. rewrite He in Hf |- *.
    destruct (listing_quiet tickers) as (_ & _ & _ & Hq & _).
    rewrite Hq in Hf |- *. split; [done|]. rewrite Hf. by destruct resume.
Qed.
End SummaryFile.

Section ResumeFilter.
Variable w : World.
Variable cfg : Config.

Lemma working_resume_spec (st : Store) (tickers : list string) t :
  t ∈ working true st tickers ↔
  t ∈ tickers
  ∧ (t ∉ default [] (p_successful_tickers (loaded st)))
  ∧ (t ∉ default [] (p_failed_tickers (loaded st))).
Proof.
  unfold working. rewrite list_elem_of_filter, elem_of_list_to_set, elem_of_app.
  tauto.
Qed.

(** C2: on a resumed run no effect (no bulk fetch, no ticker lookup, no
    artifact write, no append to either list) is about a ticker of the
    progress record's successful or failed list: such a ticker is not in
    the working list, and its artifacts stay as they were. *)
Theorem C2_resume_skips_processed tickers s t :
  let r := collect_all_data w cfg tickers true s in
  let evs := new_events s r.2 in
  t ∈ default [] (p_successful_tickers (loaded (store s)))
  ∨ t ∈ default [] (p_failed_tickers (loaded (store s))) →
  (t ∉ working true (store s) (given w tickers))
  ∧ (∀ e, e ∈ evs → t ∉ touched e)
  ∧ (t ∉ marked true evs) ∧ (t ∉ marked false evs)
  ∧ historical (store r.2) !! t = historical (store s) !! t
  ∧ fundamentals (store r.2) !! t = fundamentals (store s) !! t.
Proof.
  intros r evs Ht.
  assert (t ∉ working true (store s) (given w tickers)) as Hw.
  { rewrite working_resume_spec. tauto. }
  assert (∀ e, e ∈ evs → t ∉ touched e) as He.
  { intros e Hin Hte. apply Hw.
    pose proof (run_touched w cfg tickers true s) as Hall.
    rewrite Forall_forall in Hall. by apply (Hall e Hin). }
  assert (∀ P : Prop, (P → ∃ e, e ∈ evs ∧ t ∈ touched e) → ¬ P) as Hno.
  { intros P HP Hp. destruct (HP Hp) as (e & Hin & Hte). by apply (He e). }
  split_and!; [exact Hw|exact He| | | |].
  - apply Hno. intros. apply written_touched. auto.
  - apply Hno. intros. apply written_touched. auto.
  - destruct (run_cases w cfg tickers true s)
      as [(_ & Hs & _)|(Hst & _)]; [unfold r; by rewrite Hs|].
    apply (st_hist _ _ _ Hst). apply Hno. intros. apply written_touched. auto.
  - destruct (run_cases w cfg tickers true s)
      as [(_ & Hs & _)|(Hst & _)]; [unfold r; by rewrite Hs|].
    apply (st_fund _ _ _ Hst). apply Hno. intros. apply written_touched. auto.
Qed.
End ResumeFilter.

(** ** Where a progress record sits in a trace *)

Lemma split_skip (A R pre post : list Event) p :
  persisted A = [] →
  A ++ R = pre ++ EvProgress p :: post →
  ∃ pre', pre = A ++ pre' ∧ R = pre' ++ EvProgress p :: post.
Proof.
  revert pre. induction A as [|a A IH]; intros pre HA H.
  - by exists pre.
  - destruct pre as [|b pre]; simpl in H.
    + injection H as -> _. done.
    + injection H as -> H.
      destruct (IH pre) as (pre' & -> & HR); [by destruct b|done|].
      by exists pre'.
Qed.

Lemma seqZ_split a n (l1 l2 : list Z) i :
  seqZ a n = l1 ++ i :: l2 →
  l1 = seqZ a (Z.of_nat (length l1)) ∧ i = a + Z.of_nat (length l1)
  ∧ Z.of_nat (length l1) < n.
Proof.
  intros H.
  assert (seqZ a n !! length l1 = Some i) as Hi
    by (rewrite H; apply list_lookup_middle; done).
  apply lookup_seqZ in Hi as [-> Hlt]. split_and!; [|done..].
  apply list_eq. intros k.
  destruct (decide (k < length l1)%nat) as [Hk|Hk].
  - rewrite lookup_seqZ_lt by lia.
    assert (seqZ a n !! k = Some (a + Z.of_nat k)) as Hk'
      by (apply lookup_seqZ_lt; lia).
    rewrite H, lookup_app_l in Hk' by done. done.
  - rewrite lookup_seqZ_ge by lia. apply lookup_ge_None. lia.
Qed.

Section ProgressPoints.
Variable w : World.
Variable cfg : Config.

Lemma fst_batch_marks tickers sd ed i :
  (batch_marks w cfg tickers sd ed i).*1 = batch_of cfg tickers i.
Proof.
  unfold batch_marks. set (h := ticker_ok w _). clearbody h.
  induction (batch_of cfg tickers i) as [|t l IH]; [done|].
  cbn [map fmap list_fmap fst]. f_equal. exact IH.
Qed.

Lemma batch_split tickers total sd ed succ fail i R pre p post :
  batch_events w cfg tickers total sd ed succ fail i ++ R
  = pre ++ EvProgress p :: post →
  (pre = EvDownload (batch_of cfg tickers i)
         :: batch_ticker_events w cfg tickers sd ed i
   ∧ p = progress_record w
           (succ ++ marked true (batch_ticker_events w cfg tickers sd ed i))
           (fail ++ marked false (batch_ticker_events w cfg tickers sd ed i))
           (i + 1))
  ∨ ∃ pre', pre = batch_events w cfg tickers total sd ed succ fail i ++ pre'
            ∧ R = pre' ++ EvProgress p :: post.
Proof.
  unfold batch_events. rewrite <- !app_assoc. intros H.
  rewrite (app_assoc [_]) in H.
  apply split_skip in H as (pre1 & -> & H).
  2:{ rewrite persisted_app. unfold batch_ticker_events.
      by destruct (quiet_batch_tickers w
            (fetched w (batch_of cfg tickers i) sd ed)
            (batch_of cfg tickers i)) as (_ & -> & _). }
  destruct pre1 as [|e pre1]; simpl in H.
  - injection H as <- _. left.
    split; [by rewrite app_nil_r|done].
  - injection H as <- H. right.
    apply split_skip in H as (pre2 & -> & H).
    2:{ by destruct (pause_quiet cfg total i) as (_ & _ & -> & _). }
    exists pre2. split; [|done]. by rewrite <- !app_assoc.
Qed.

Lemma loop_split tickers total sd ed idxs : ∀ succ fail pre p post,
  loop_events w cfg tickers total sd ed succ fail idxs
  = pre ++ EvProgress p :: post →
  ∃ idxs1 i idxs2,
    idxs = idxs1 ++ i :: idxs2
    ∧ p = progress_record w (succ ++ marked true pre)
            (fail ++ marked false pre) (i + 1)
    ∧ marks pre = flat_map (batch_marks w cfg tickers sd ed) (idxs1 ++ [i])
    ∧ p_last_batch_index <$> persisted pre = (λ j, Some (j + 1)) <$> idxs1.
Proof.
  induction idxs as [|i idxs IH]; intros succ fail pre p post H.
  - by destruct pre.
  - cbn [loop_events] in H.
    apply batch_split in H as [[-> ->]|(pre' & -> & H)].
    + exists [], i, idxs. split_and!; [done..| |].
      * cbn [app flat_map]. rewrite app_nil_r.
        change (marks (EvDownload ?b :: ?l)) with (marks l).
        apply marks_batch_tickers.
      * change (persisted (EvDownload ?b :: ?l)) with (persisted l).
        unfold batch_ticker_events.
        by destruct (quiet_batch_tickers w
              (fetched w (batch_of cfg tickers i) sd ed)
              (batch_of cfg tickers i)) as (_ & -> & _).
    + apply IH in H as (idxs1 & j & idxs2 & -> & -> & Hm & Hp).
      exists (i :: idxs1), j, idxs2. split_and!; [done| | |].
      * by rewrite !marked_app, <- !app_assoc.
      * cbn [app flat_map]. by rewrite marks_app, marks_batch_events, Hm.
      * rewrite persisted_app, persisted_batch_events, fmap_app, Hp. done.
Qed.
End ProgressPoints.

Lemma fmap_prefix {A B} (f : A → B) (l1 l2 : list A) :
  l1 `prefix_of` l2 → f <$> l1 `prefix_of` f <$> l2.
Proof. intros [k ->]. rewrite fmap_app. by eexists. Qed.

Lemma split_last (L pre post : list Event) e p :
  persisted [e] = [] →
  L ++ [e] = pre ++ EvProgress p :: post →
  ∃ post', L = pre ++ EvProgress p :: post'.
Proof.
  intros He H. destruct post as [|x post _] using rev_ind.
  - apply app_inj_tail in H as [_ ->]. done.
  - rewrite app_comm_cons, app_assoc in H.
    apply app_inj_tail in H as [-> _]. by eexists.
Qed.

Lemma marked_listing tickers b : marked b (listing_events tickers) = [].
Proof. by destruct tickers. Qed.

Section Checkpoints.
Variable w : World.
Variable cfg : Config.

Lemma fst_flat_batch_marks tickers sd ed idxs :
  (flat_map (batch_marks w cfg tickers sd ed) idxs).*1
  = flat_map (batch_of cfg tickers) idxs.
Proof.
  induction idxs as [|i idxs IH]; [done|].
  cbn [flat_map]. by rewrite fmap_app, fst_batch_marks, IH.
Qed.

(** Whatever way the run ends, its effects are an initial part of the
    effects of the run that completes. *)
Lemma run_prefix tickers resume s :
  let r := collect_all_data w cfg tickers resume s in
  ∃ x, new_events s r.2 `prefix_of`
         listing_events tickers ++ batches_events w cfg tickers resume s
         ++ [EvSummary x].
Proof.
  intros r.
  set (x0 := make_summary w cfg [] [] 0 0).
  destruct (run_cases w cfg tickers resume s)
    as [(_ & _ & He & _)|(_ & [(_ & _ & He)|[(_ & _ & Hp)|(_ & _ & He)]])];
    fold r in He || fold r in Hp.
  - exists x0. rewrite He. apply prefix_nil.
  - eexists. by rewrite He.
  - exists x0. rewrite app_assoc. by apply prefix_app_r.
  - exists x0. rewrite He. by apply prefix_app_r.
Qed.

Lemma run_progress_point tickers resume s pre p post :
  new_events s (collect_all_data w cfg tickers resume s).2
  = pre ++ EvProgress p :: post →
  ∃ pre' post',
    pre = listing_events tickers ++ pre'
    ∧ batches_events w cfg tickers resume s = pre' ++ EvProgress p :: post'.
Proof.
  intros H. destruct (run_prefix tickers resume s) as (x & k & Hk).
  rewrite H in Hk. rewrite <- app_assoc in Hk. simpl in Hk.
  apply split_skip in Hk as (pre' & -> & Hk);
    [|by destruct (listing_quiet tickers) as (_ & _ & -> & _)].
  apply split_last in Hk as [post' Hk]; [|done].
  by exists pre', post'.
Qed.

Lemma persisted_run_prefix tickers resume s :
  let r := collect_all_data w cfg tickers resume s in
  let wk := working resume (store s) (given w tickers) in
  p_last_batch_index <$> persisted (new_events s r.2)
  `prefix_of` (λ j, Some (j + 1))
              <$> range (start_of resume (store s)) (total_of cfg wk).
Proof.
  intros r wk. destruct (run_prefix tickers resume s) as (x & Hp).
  fold r in Hp.
  apply (omap_prefix (λ e, match e with EvProgress p => Some p | _ => None end))
    in Hp.
  apply (fmap_prefix p_last_batch_index) in Hp.
  etrans; [exact Hp|].
  fold (persisted (listing_events tickers
                   ++ batches_events w cfg tickers resume s ++ [EvSummary x])).
  rewrite !persisted_app.
  destruct (listing_quiet tickers) as (_ & _ & -> & _).
  simpl. rewrite app_nil_r. unfold batches_events.
  by rewrite persisted_loop_events.
Qed.

(** C8: a progress record is persisted only at a batch boundary. When a
    record is written, the appends made so far in the run are exactly
    the tickers of the batches from the start index up to the record's
    batch, in order, the record holds the two lists as they are then and
    the index of the batch plus one, and the records written before it
    are those of the earlier batches, one each. The persisted indices
    therefore strictly increase, and a run that completes has persisted
    exactly one record per batch. *)
Theorem C8_progress_persisted_after_each_batch tickers resume s :
  let r := collect_all_data w cfg tickers resume s in
  let evs := new_events s r.2 in
  let wk := working resume (store s) (given w tickers) in
  let start := start_of resume (store s) in
  let total := total_of cfg wk in
  (∀ pre p post, evs = pre ++ EvProgress p :: post →
     ∃ k : nat,
       start + Z.of_nat k < total
       ∧ p = progress_record w
               (successful_tickers (resumed resume s) ++ marked true pre)
               (failed_tickers (resumed resume s) ++ marked false pre)
               (start + Z.of_nat k + 1)
       ∧ (marks pre).*1
         = flat_map (batch_of cfg wk) (range start (start + Z.of_nat k + 1))
       ∧ p_last_batch_index <$> persisted pre
         = (λ j, Some (j + 1)) <$> range start (start + Z.of_nat k))
  ∧ (r.1 = Ok tt →
     p_last_batch_index <$> persisted evs
     = (λ j, Some (j + 1)) <$> range start total)
  ∧ (∀ (n m : nat) a b,
       (n < m)%nat → persisted evs !! n = Some a → persisted evs !! m = Some b →
       ∃ x y, p_last_batch_index a = Some x ∧ p_last_batch_index b = Some y
              ∧ x < y).
Proof.
  intros r evs wk start total. split_and!.
  - intros pre p post H.
    apply run_progress_point in H as (pre' & post' & -> & H).
    unfold batches_events in H. fold wk start total in H.
    apply loop_split in H as (idxs1 & i & idxs2 & Hr & -> & Hm & Hp).
    apply seqZ_split in Hr as (Hi1 & -> & Hlt).
    exists (length idxs1).
    replace (range start (start + Z.of_nat (length idxs1) + 1))
      with (idxs1 ++ [start + Z.of_nat (length idxs1)]).
    2:{ unfold range.
        replace (start + Z.of_nat (length idxs1) + 1 - start)
          with (Z.of_nat (S (length idxs1))) by lia.
        by rewrite seqZ_S, <- Hi1. }
    replace (range start (start + Z.of_nat (length idxs1))) with idxs1.
    2:{ unfold range.
        replace (start + Z.of_nat (length idxs1) - start)
          with (Z.of_nat (length idxs1)) by lia. done. }
    rewrite !marked_app, !marked_listing, marks_app, persisted_app.
    destruct (listing_quiet tickers) as (-> & _ & -> & _). simpl.
    split_and!; [lia|done| |done].
    by rewrite Hm, fst_flat_batch_marks.
  - intros Ho.
    destruct (run_cases w cfg tickers resume s)
      as [(Ho' & _)|(_ & [(Ho' & _ & He)|[(Ho' & _)|(Ho' & _)]])];
      fold r in Ho'; rewrite Ho in Ho'; try discriminate.
    fold r evs in He. rewrite He, !persisted_app.
    destruct (listing_quiet tickers) as (_ & _ & -> & _).
    simpl. rewrite app_nil_r. unfold batches_events.
    by rewrite persisted_loop_events.
  - intros n m a b Hnm Ha Hb.
    pose proof (persisted_run_prefix tickers resume s) as Hp.
    fold r evs wk start total in Hp.
    assert (∀ k c, persisted evs !! k = Some c →
                   p_last_batch_index c = Some (start + Z.of_nat k + 1)) as Hk.
    { intros k c Hc.
      assert ((p_last_batch_index <$> persisted evs) !! k
              = Some (p_last_batch_index c)) as Hc'
        by (by rewrite list_lookup_fmap, Hc).
      eapply prefix_lookup_Some in Hc'; [|exact Hp].
      apply list_lookup_fmap_Some in Hc' as (j & Hc' & Hj).
      apply lookup_seqZ in Hj as [-> _]. by rewrite Hc'. }
    exists (start + Z.of_nat n + 1), (start + Z.of_nat m + 1).
    split_and!; [by apply Hk..|lia].
Qed.
End Checkpoints.

(** ** The partition into batches *)

Lemma elem_of_flat_map {A B} (f : A → list B) (l : list A) (x : B) :
  x ∈ flat_map f l ↔ ∃ y, y ∈ l ∧ x ∈ f y.
Proof.
  rewrite list_elem_of_In, in_flat_map. setoid_rewrite list_elem_of_In. done.
Qed.

Lemma elem_of_marked b evs t : t ∈ marked b evs ↔ (t, b) ∈ marks evs.
Proof.
  rewrite marked_marks, list_elem_of_fmap. split.
  - intros ([t' b'] & -> & [Hb Hin]%list_elem_of_filter). simpl in *. by subst.
  - intros H. exists (t, b). split; [done|]. by apply list_elem_of_filter.
Qed.

Section Partition.
Variable w : World.
Variable cfg : Config.

Lemma marks_run_prefix tickers resume s :
  let r := collect_all_data w cfg tickers resume s in
  let wk := working resume (store s) (given w tickers) in
  let all := flat_map (batch_marks w cfg wk (start_date_of w cfg) (today w))
               (range (start_of resume (store s)) (total_of cfg wk)) in
  marks (new_events s r.2) `prefix_of` all
  ∧ (r.1 = Ok tt → marks (new_events s r.2) = all).
Proof.
  intros r wk all.
  assert (∀ x, marks (listing_events tickers
                      ++ batches_events w cfg tickers resume s
                      ++ [EvSummary x]) = all) as Hall.
  { intros x. rewrite !marks_app.
    destruct (listing_quiet tickers) as (-> & _).
    simpl. rewrite app_nil_r. unfold batches_events.
    by rewrite marks_loop_events. }
  split.
  - destruct (run_prefix w cfg tickers resume s) as (x & Hp). fold r in Hp.
    rewrite <- (Hall x). by apply omap_prefix.
  - intros Ho.
    destruct (run_cases w cfg tickers resume s)
      as [(Ho' & _)|(_ & [(Ho' & _ & He)|[(Ho' & _)|(Ho' & _)]])];
      fold r in Ho'; rewrite Ho in Ho'; try discriminate.
    fold r in He. rewrite He. apply Hall.
Qed.

Lemma downloads_run_prefix tickers resume s :
  let r := collect_all_data w cfg tickers resume s in
  let wk := working resume (store s) (given w tickers) in
  let all := map (batch_of cfg wk)
               (range (start_of resume (store s)) (total_of cfg wk)) in
  downloads (new_events s r.2) `prefix_of` all
  ∧ (r.1 = Ok tt → downloads (new_events s r.2) = all).
Proof.
  intros r wk all.
  assert (∀ x, downloads (listing_events tickers
                          ++ batches_events w cfg tickers resume s
                          ++ [EvSummary x]) = all) as Hall.
  { intros x. rewrite !downloads_app.
    destruct (listing_quiet tickers) as (_ & -> & _).
    simpl. rewrite app_nil_r. unfold batches_events.
    by rewrite downloads_loop_events. }
  split.
  - destruct (run_prefix w cfg tickers resume s) as (x & Hp). fold r in Hp.
    rewrite <- (Hall x). by apply omap_prefix.
  - intros Ho.
    destruct (run_cases w cfg tickers resume s)
      as [(Ho' & _)|(_ & [(Ho' & _ & He)|[(Ho' & _)|(Ho' & _)]])];
      fold r in Ho'; rewrite Ho in Ho'; try discriminate.
    fold r in He. rewrite He. apply Hall.
Qed.

(** C3: with a positive batch size [N], a fresh run over [L] tickers
    fetches the batches of the partition of the list into
    [ceil (L / N)] consecutive slices, in order (all of them when it
    completes, which it does unless interrupted). Every slice but the
    last has [N] tickers; the last has the rest, between [1] and [N],
    which is [L mod N] when that is not zero. *)
Theorem C3_fresh_run_partitions tickers s :
  0 < batch_size cfg →
  let r := collect_all_data w cfg (Some tickers) false s in
  let fetches := downloads (new_events s r.2) in
  let T := total_of cfg tickers in
  let batches := map (batch_of cfg tickers) (range 0 T) in
  let L := len tickers in
  let N := batch_size cfg in
  fetches `prefix_of` batches
  ∧ (r.1 = Ok tt → fetches = batches)
  ∧ (fuse s = None → r.1 = Ok tt)
  ∧ concat batches = tickers
  ∧ len batches = T
  ∧ N * (T - 1) < L ≤ N * T
  ∧ (∀ (i : nat) b, batches !! i = Some b →
       (Z.of_nat i < T - 1 → len b = N)
       ∧ (Z.of_nat i = T - 1 →
          len b = L - N * (T - 1) ∧ 0 < len b ≤ N
          ∧ (L `mod` N ≠ 0 → len b = L `mod` N))).
Proof.
  intros HN r fetches T batches L N.
  pose proof (total_of_ceil cfg tickers HN) as Hceil.
  pose proof (total_of_nonneg cfg tickers HN) as HT.
  fold T L N in Hceil, HT.
  destruct (downloads_run_prefix (Some tickers) false s) as [Hp He].
  split_and!; [exact Hp|exact He| | | |apply Hceil|apply Hceil|].
  - intros Hf. apply run_uninterrupted; [done|lia].
  - unfold batches. rewrite <- flat_map_concat_map.
    by apply batches_partition.
  - unfold batches, len, range. rewrite length_map, length_seqZ. lia.
  - intros i b Hb. unfold batches in Hb.
    change (map ?f ?l) with (f <$> l) in Hb.
    apply list_lookup_fmap_Some in Hb as (j & -> & Hj).
    apply lookup_seqZ in Hj as [-> Hi].
    pose proof (batch_of_length cfg tickers (0 + Z.of_nat i) HN) as Hlen.
    fold T L N in Hlen. rewrite Hlen by lia.
    split.
    + intros Hlt. by rewrite (proj2 (Z.ltb_lt _ _)) by lia.
    + intros Heq. rewrite (proj2 (Z.ltb_ge _ _)) by lia.
      split_and!; [done|lia|lia|].
      intros Hm. pose proof (Z.div_mod L N ltac:(lia)) as Hdm.
      pose proof (Z.mod_pos_bound L N HN) as Hb.
      assert (L `div` N = T - 1) as Hq by nia.
      rewrite Hq in Hdm. lia.
Qed.
End Partition.

(** ** Failures *)

Lemma all_failed_quiet (l : list string) :
  marked true ((λ t, EvMark t false) <$> l) = []
  ∧ marked false ((λ t, EvMark t false) <$> l) = l
  ∧ csv_written ((λ t, EvMark t false) <$> l) = []
  ∧ json_written ((λ t, EvMark t false) <$> l) = [].
Proof.
  induction l as [|t l (IH1 & IH2 & IH3 & IH4)]; [done|].
  cbn. split_and!; [done| |done..]. by f_equal.
Qed.

Section Failures.
Variable w : World.
Variable cfg : Config.

Lemma ticker_ok_absent hist t : hist !! t = None → ticker_ok w hist t = false.
Proof. unfold ticker_ok. by intros ->. Qed.

Lemma ticker_ok_present hist t : ticker_ok w hist t = true → is_Some (hist !! t).
Proof. unfold ticker_ok. destruct (hist !! t); [eauto|done]. Qed.

(** C6, as the code has it: a ticker for which no batch of the run that
    contains it gets an entry from the bulk fetch is never appended to
    the successful list during the run, every append of it is to the
    failed list, and when the run completes and some batch contains it,
    it is in the failed list. *)
Theorem C6_absent_ticker_is_failed tickers resume s t :
  let r := collect_all_data w cfg tickers resume s in
  let evs := new_events s r.2 in
  let wk := working resume (store s) (given w tickers) in
  let idxs := range (start_of resume (store s)) (total_of cfg wk) in
  (∀ i, i ∈ idxs → t ∈ batch_of cfg wk i →
        fetched w (batch_of cfg wk i) (start_date_of w cfg) (today w) !! t
        = None) →
  (t ∉ marked true evs)
  ∧ (∀ ok, (t, ok) ∈ marks evs → ok = false)
  ∧ (r.1 = Ok tt → (∃ i, i ∈ idxs ∧ t ∈ batch_of cfg wk i) →
     t ∈ marked false evs ∧ t ∈ failed_tickers r.2).
Proof.
  intros r evs wk idxs Habs.
  destruct (marks_run_prefix w cfg tickers resume s) as [Hp He].
  fold r evs wk idxs in Hp, He.
  assert (∀ ok, (t, ok) ∈ marks evs → ok = false) as Hall.
  { intros ok Hin. eapply elem_of_prefix in Hin; [|exact Hp].
    apply elem_of_flat_map in Hin as (i & Hi & Hin).
    unfold batch_marks in Hin. change (map ?f ?l) with (f <$> l) in Hin.
    apply list_elem_of_fmap in Hin as (t' & [= <- ->] & Ht).
    apply ticker_ok_absent. by apply Habs. }
  split_and!; [|exact Hall|].
  - intros Hin%elem_of_marked. by apply Hall in Hin.
  - intros Ho (i & Hi & Ht).
    assert (t ∈ marked false evs) as Hm.
    { apply elem_of_marked. rewrite (He Ho). apply elem_of_flat_map.
      exists i. split; [done|]. unfold batch_marks.
      change (map ?f ?l) with (f <$> l).
      apply list_elem_of_fmap. exists t. split; [|done].
      f_equal. symmetry. apply ticker_ok_absent. by apply Habs. }
    split; [done|].
    destruct (run_cases w cfg tickers resume s)
      as [(Ho' & _)|(Hst & _)]; fold r in Ho' || fold r evs in Hst.
    + rewrite Ho in Ho'. discriminate.
    + rewrite (st_fail _ _ _ Hst). apply elem_of_app. by right.
Qed.

Lemma batch_ticker_events_failed tickers sd ed idx :
  yf_download w (batch_of cfg tickers idx) sd ed = None →
  batch_ticker_events w cfg tickers sd ed idx
  = (λ t, EvMark t false) <$> batch_of cfg tickers idx.
Proof.
  intros H. unfold batch_ticker_events, fetched. rewrite H.
  generalize (batch_of cfg tickers idx). intros l.
  induction l as [|t l IH]; [done|].
  cbn [flat_map]. rewrite IH. unfold ticker_events. by rewrite lookup_empty.
Qed.

(** C5: when the bulk download of a batch raises, the fetch returns the
    empty mapping; processing the batch appends nothing to the
    successful list and writes no artifact; it ends normally or in the
    user's interrupt, never in another exception; and when it ends
    normally (as it does without an interrupt) every ticker of the batch
    has been appended to the failed list, in order, and the loop goes on
    with the next batch. *)
Theorem C5_failed_bulk_download_fails_batch tickers total sd ed idx s :
  let batch := batch_of cfg tickers idx in
  yf_download w batch sd ed = None →
  let d := download_batch_historical w batch sd ed s in
  let r := collect_batch w cfg tickers total sd ed idx s in
  let evs := new_events s r.2 in
  (d.1 = Ok ∅ ∨ d.1 = Err KeyboardInterrupt)
  ∧ (fuse s = None → d.1 = Ok ∅)
  ∧ marked true evs = []
  ∧ successful_tickers r.2 = successful_tickers s
  ∧ csv_written evs = [] ∧ json_written evs = []
  ∧ historical (store r.2) = historical (store s)
  ∧ fundamentals (store r.2) = fundamentals (store s)
  ∧ (r.1 = Ok tt ∨ r.1 = Err KeyboardInterrupt)
  ∧ (fuse s = None → r.1 = Ok tt)
  ∧ (r.1 = Ok tt →
     marked false evs = batch
     ∧ failed_tickers r.2 = failed_tickers s ++ batch
     ∧ ∀ rest,
         for_each (idx :: rest) (collect_batch w cfg tickers total sd ed) s
         = for_each rest (collect_batch w cfg tickers total sd ed) r.2).
Proof.
  intros batch Hraise d r evs.
  assert (fetched w batch sd ed = ∅) as Hfetch
    by (unfold fetched; by rewrite Hraise).
  assert ((d.1 = Ok ∅ ∨ d.1 = Err KeyboardInterrupt)
          ∧ (fuse s = None → d.1 = Ok ∅)) as [Hd1 Hd2].
  { subst d. destruct (download_batch_historical w batch sd ed s)
      as [o1 s1] eqn:E.
    apply download_batch_historical_inv in E as [[-> _]|(-> & _ & Hf)];
      rewrite ?Hfetch; simpl; split; auto. intros; done. }
  destruct (collect_batch w cfg tickers total sd ed idx s) as [o s'] eqn:E.
  pose proof E as E'.
  apply collect_batch_inv in E as (evs' & Hst & Hcase).
  assert (evs = evs') as Hevs
    by (subst evs r; simpl; by apply (steps_new_events s)).
  rewrite <- Hevs in *. clear Hevs evs'.
  set (full := batch_events w cfg tickers total sd ed
                 (successful_tickers s) (failed_tickers s) idx) in *.
  destruct (all_failed_quiet batch) as (Q1 & Q2 & Q3 & Q4).
  destruct (pause_quiet cfg total idx) as (Qp & _).
  assert (marked true full = [] ∧ marked false full = batch
          ∧ csv_written full = [] ∧ json_written full = [])
    as (F1 & F2 & F3 & F4).
  { subst full. unfold batch_events.
    rewrite batch_ticker_events_failed by done. fold batch.
    rewrite !marked_app, !csv_written_app, !json_written_app, Q1, Q2, Q3, Q4.
    unfold pause. destruct (idx <? total - 1); simpl;
      by rewrite ?app_nil_r. }
  assert (evs `prefix_of` full) as Hp.
  { destruct Hcase as [[_ ->]|(_ & _ & Hp)]; done. }
  assert (marked true evs = [] ∧ csv_written evs = []
          ∧ json_written evs = []) as (E1 & E3 & E4).
  { split_and!; apply prefix_nil_inv.
    - rewrite <- F1. by apply omap_prefix.
    - rewrite <- F3. by apply omap_prefix.
    - rewrite <- F4. by apply omap_prefix. }
  subst r. simpl.
  split_and!; try done.
  - by rewrite (st_succ _ _ _ Hst), E1, app_nil_r.
  - apply map_eq. intros t. apply (st_hist _ _ _ Hst).
    rewrite E3. apply not_elem_of_nil.
  - apply map_eq. intros t. apply (st_fund _ _ _ Hst).
    rewrite E4. apply not_elem_of_nil.
  - destruct Hcase as [[-> _]|(-> & _)]; auto.
  - intros Hn. destruct Hcase as [[-> _]|(_ & Hf & _)]; done.
  - intros ->. destruct Hcase as [[_ ->]|(? & _)]; [|done].
    split_and!; [done| |].
    + by rewrite (st_fail _ _ _ Hst), F2.
    + intros rest. cbn [for_each]. unfold bind at 1. by rewrite E'.
Qed.
End Failures.

(** ** Fundamentals, and the first resumed run *)

Lemma filter_all {A} (P : A → Prop) `{∀ x, Decision (P x)} (l : list A) :
  (∀ x, P x) → filter P l = l.
Proof.
  intros HP. induction l as [|t l IH]; [done|].
  rewrite filter_cons_True by done. by rewrite IH.
Qed.

Lemma bind_ext {A B} (m : M A) (k1 k2 : A → M B) s :
  (∀ a s1, m s = (Ok a, s1) → k1 a s1 = k2 a s1) →
  bind m k1 s = bind m k2 s.
Proof. intros H. unfold bind. destruct (m s) as [[a|e] s1]; auto. Qed.

Section Fundamentals.
Variable w : World.
Variable cfg : Config.

(** C9: a ticker with an entry in the bulk-fetch result, whose
    historical artifact is saved without error and whose fundamentals
    download raises (so that it returns the empty mapping), is never
    appended to the failed list; its processing ends normally or in the
    user's interrupt, and when it ends normally (as it does without an
    interrupt) the ticker has been appended to the successful list and no
    fundamentals artifact was written. *)
Theorem C9_fundamentals_failure_keeps_success hist t d s :
  hist !! t = Some d →
  (df_empty d || to_csv_ok w t) = true →
  yf_info w t = None ∨ fundamentals_of w t = [] →
  let r := collect_ticker w hist t s in
  let evs := new_events s r.2 in
  fundamentals_of w t = []
  ∧ ticker_ok w hist t = true
  ∧ marked false evs = []
  ∧ failed_tickers r.2 = failed_tickers s
  ∧ json_written evs = []
  ∧ (r.1 = Ok tt ∨ r.1 = Err KeyboardInterrupt)
  ∧ (fuse s = None → r.1 = Ok tt)
  ∧ (r.1 = Ok tt →
     marks evs = [(t, true)]
     ∧ successful_tickers r.2 = successful_tickers s ++ [t]).
Proof.
  intros Hh Hsave Hfund r evs.
  assert (yf_info w t = None) as Hinfo.
  { destruct Hfund as [|Hf]; [done|]. unfold fundamentals_of in Hf.
    by destruct (yf_info w t). }
  assert (fundamentals_of w t = []) as Hempty
    by (unfold fundamentals_of; by rewrite Hinfo).
  assert (ticker_ok w hist t = true) as Hok
    by (unfold ticker_ok; by rewrite Hh, Hsave, Hinfo).
  destruct (collect_ticker w hist t s) as [o s'] eqn:E.
  apply collect_ticker_inv in E as (evs' & Hst & Hcase).
  assert (evs = evs') as Hevs
    by (subst evs r; simpl; by apply (steps_new_events s)).
  rewrite <- Hevs in *. clear Hevs evs'.
  set (full := ticker_events w hist t) in *.
  assert (marked false full = [] ∧ json_written full = []
          ∧ marks full = [(t, true)] ∧ marked true full = [t])
    as (F1 & F2 & F3 & F4).
  { subst full. unfold ticker_events. rewrite Hh, Hsave, Hinfo.
    by destruct (df_empty d). }
  assert (evs `prefix_of` full) as Hp.
  { destruct Hcase as [[_ ->]|(_ & _ & Hp)]; done. }
  assert (marked false evs = [] ∧ json_written evs = []) as (E1 & E2).
  { split; apply prefix_nil_inv.
    - rewrite <- F1. by apply omap_prefix.
    - rewrite <- F2. by apply omap_prefix. }
  subst r. simpl. split_and!; try done.
  - by rewrite (st_fail _ _ _ Hst), E1, app_nil_r.
  - destruct Hcase as [[-> _]|(-> & _)]; auto.
  - intros Hn. destruct Hcase as [[-> _]|(_ & Hf & _)]; done.
  - intros ->. destruct Hcase as [[_ ->]|(? & _)]; [|done].
    split; [done|]. by rewrite (st_succ _ _ _ Hst), F4.
Qed.

Lemma resume_from_nothing (l : list string) s :
  successful_tickers s = [] → failed_tickers s = [] →
  progress_file (store s) = None →
  resume_from_progress l s = (Ok (0, l), s).
Proof.
  intros Hs Hf Hp. rewrite resume_from_progress_eq.
  unfold start_of, working, resumed, loaded. rewrite Hp.
  cbn [default no_progress p_successful_tickers p_failed_tickers
       p_last_batch_index app].
  unfold id. cbn [app].
  rewrite filter_all by (intros x; apply not_elem_of_empty). f_equal.
  destruct s; simpl in *; by subst.
Qed.

(** C10: without a progress file [load_progress] returns empty lists
    and index [0], and the first run of a new collector is the same with
    and without [resume]: same outcome, same effects in the same order,
    same final state. *)
Theorem C10_first_resumed_run_is_fresh tickers st f :
  progress_file st = None →
  let s := new_collector st f in
  (∃ p, load_progress s = (Ok p, s)
        ∧ p_successful_tickers p = Some []
        ∧ p_failed_tickers p = Some []
        ∧ p_last_batch_index p = Some 0)
  ∧ collect_all_data w cfg tickers true s
    = collect_all_data w cfg tickers false s.
Proof.
  intros Hp s. split.
  - exists no_progress. unfold load_progress, bind, get. simpl.
    by rewrite Hp.
  - unfold collect_all_data.
    set (first := match tickers with None => _ | Some l => _ end).
    assert (∀ o s1, first s = (o, s1) →
              successful_tickers s1 = [] ∧ failed_tickers s1 = []
              ∧ progress_file (store s1) = None) as Hfirst.
    { intros o s1. subst first. destruct tickers as [l|].
      - by intros [= <- <-].
      - unfold get_all_tickers, bind, tick, log, modify, ret. subst s. simpl.
        destruct f as [[|n]|]; by intros [= <- <-]. }
    apply bind_ext. intros l s1 E.
    destruct (Hfirst _ _ E) as (H1 & H2 & H3).
    unfold bind at 1 3. by rewrite resume_from_nothing.
Qed.
End Fundamentals.

(** ** The ten-ticker scenario *)

Section TenTickers.
Variable w : World.
Variable cfg : Config.

Lemma ticker_ok_saved hist t :
  is_Some (hist !! t) → to_csv_ok w t = true → json_dump_ok w t = true →
  ticker_ok w hist t = true.
Proof.
  intros [d Hd] Hc Hj. unfold ticker_ok.
  rewrite Hd, Hc, Hj, orb_true_r. by destruct (yf_info w t).
Qed.

(** C4: a fresh run of a new collector over ten tickers with batch size
    4, where the bulk fetch of each batch has an entry exactly for the
    tickers at even positions of the list and the artifacts can be
    written, completes after fetching three batches; the successful list
    is the five tickers at even positions, the failed list the five at
    odd positions, and the one summary written records successful = 5,
    failed = 5, total_tickers = 10. *)
Theorem C4_ten_tickers_batches_of_four
    (t0 t1 t2 t3 t4 t5 t6 t7 t8 t9 : string) (st : Store) :
  let tickers := [t0; t1; t2; t3; t4; t5; t6; t7; t8; t9] in
  batch_size cfg = 4 →
  (∀ (i k : nat) t,
     (i < 3)%nat → batch_of cfg tickers (Z.of_nat i) !! k = Some t →
     (is_Some (fetched w (batch_of cfg tickers (Z.of_nat i))
                 (start_date_of w cfg) (today w) !! t)
      ↔ Nat.even (4 * i + k) = true)) →
  (∀ t, t ∈ tickers → to_csv_ok w t = true ∧ json_dump_ok w t = true) →
  let r := collect_all_data w cfg (Some tickers) false
             (new_collector st None) in
  r.1 = Ok tt
  ∧ downloads (trace r.2) = [[t0; t1; t2; t3]; [t4; t5; t6; t7]; [t8; t9]]
  ∧ successful_tickers r.2 = [t0; t2; t4; t6; t8]
  ∧ failed_tickers r.2 = [t1; t3; t5; t7; t9]
  ∧ ∃ x, summaries (trace r.2) = [x] ∧ summary_file (store r.2) = Some x
         ∧ successful x = 5 ∧ failed x = 5 ∧ total_tickers x = 10.
Proof.
  intros tickers Hbs Hfetch Hdisk r.
  assert (r.1 = Ok tt) as Ho
    by (apply run_uninterrupted; [done|by rewrite Hbs]).
  assert (∀ s', new_events (new_collector st None) s' = trace s') as Hev by done.
  assert (total_of cfg tickers = 3) as HT
    by (unfold total_of; by rewrite Hbs).
  assert (batch_of cfg tickers 0 = [t0; t1; t2; t3]) as B0
    by (unfold batch_of; by rewrite Hbs).
  assert (batch_of cfg tickers 1 = [t4; t5; t6; t7]) as B1
    by (unfold batch_of; by rewrite Hbs).
  assert (batch_of cfg tickers 2 = [t8; t9]) as B2
    by (unfold batch_of; by rewrite Hbs).
  destruct (downloads_run_prefix w cfg (Some tickers) false (new_collector st None)) as [_ Hd].
  destruct (marks_run_prefix w cfg (Some tickers) false (new_collector st None)) as [_ Hm].
  specialize (Hd Ho). specialize (Hm Ho).
  rewrite Hev in Hd, Hm. fold r in Hd, Hm.
  change (working false (store (new_collector st None)) (given w (Some tickers))) with tickers
    in Hd, Hm.
  change (start_of false (store (new_collector st None))) with 0 in Hd, Hm.
  rewrite HT in Hd, Hm.
  change (range 0 3) with [0; 1; 2] in Hd, Hm.
  cbn [map flat_map] in Hd, Hm. unfold batch_marks in Hm.
  rewrite B0, B1, B2 in Hd, Hm. cbn [map app] in Hm.
  assert (∀ (i k : nat) t b,
            (i < 3)%nat → batch_of cfg tickers (Z.of_nat i) = b →
            b !! k = Some t →
            ticker_ok w (fetched w b (start_date_of w cfg) (today w)) t
            = Nat.even (4 * i + k)) as Hok.
  { intros i k t b Hi <- Hk. pose proof (Hfetch i k t Hi Hk) as Hiff.
    assert (t ∈ tickers) as Hin.
    { apply (batch_of_subseteq cfg tickers (Z.of_nat i)).
      by eapply list_elem_of_lookup_2. }
    destruct (Hdisk t Hin) as [Hc Hj].
    destruct (Nat.even (4 * i + k)).
    - apply ticker_ok_saved; [by apply Hiff|done..].
    - apply ticker_ok_absent. apply eq_None_not_Some.
      intros HS. by apply Hiff in HS. }
  rewrite (Hok 0%nat 0%nat t0 _ ltac:(lia) B0 eq_refl),
          (Hok 0%nat 1%nat t1 _ ltac:(lia) B0 eq_refl),
          (Hok 0%nat 2%nat t2 _ ltac:(lia) B0 eq_refl),
          (Hok 0%nat 3%nat t3 _ ltac:(lia) B0 eq_refl),
          (Hok 1%nat 0%nat t4 _ ltac:(lia) B1 eq_refl),
          (Hok 1%nat 1%nat t5 _ ltac:(lia) B1 eq_refl),
          (Hok 1%nat 2%nat t6 _ ltac:(lia) B1 eq_refl),
          (Hok 1%nat 3%nat t7 _ ltac:(lia) B1 eq_refl),
          (Hok 2%nat 0%nat t8 _ ltac:(lia) B2 eq_refl),
          (Hok 2%nat 1%nat t9 _ ltac:(lia) B2 eq_refl) in Hm.
  destruct (run_cases w cfg (Some tickers) false (new_collector st None))
    as [(Ho' & _)|(Hst & [(_ & _ & He)|[(Ho' & _)|(Ho' & _)]])];
    try (unfold r in Ho; rewrite Ho in Ho'; discriminate).
  rewrite Hev in Hst, He. fold r in Hst, He.
  assert (successful_tickers r.2 = [t0; t2; t4; t6; t8]) as Hs.
  { rewrite (st_succ _ _ _ Hst), marked_marks, Hm. done. }
  assert (failed_tickers r.2 = [t1; t3; t5; t7; t9]) as Hf.
  { rewrite (st_fail _ _ _ Hst), marked_marks, Hm. done. }
  split_and!; [done..|].
  eexists. split_and!.
  - rewrite He. cbn [listing_events app]. rewrite summaries_app.
    unfold batches_events. rewrite summaries_loop_events. reflexivity.
  - rewrite (st_summ _ _ _ Hst). rewrite He at 1.
    cbn [listing_events app]. rewrite summaries_app.
    unfold batches_events. rewrite summaries_loop_events. reflexivity.
  - simpl. by rewrite Hs.
  - simpl. by rewrite Hf.
  - simpl. by rewrite Hs, Hf.
Qed.
End TenTickers.

(** ** The scenarios, evaluated *)

(** C1, at the failing input: the first run over the ten tickers with
    batch size 4 is interrupted during the pause after batch 1 of 3, with
    the progress record of batch 1 on disk. The run that resumes it filters
    the four processed tickers out, then starts at index 1 of the two
    batches of the six that remain: it fetches and processes JPM and BAC
    only, and TSLA, META, NVDA and NFLX, which are in neither persisted
    list, are never processed. *)
Theorem C1_resumed_run_skips_unprocessed_tickers :
  interrupted_run.1 = Err KeyboardInterrupt
  ∧ progress_file (store interrupted_run.2)
    = Some (progress_record world_even ["AAPL"; "MSFT"] ["GOOGL"; "AMZN"] 1)
  ∧ working true (store interrupted_run.2) ten_tickers
    = ["TSLA"; "META"; "NVDA"; "NFLX"; "JPM"; "BAC"]
  ∧ resumed_run.1 = Ok tt
  ∧ downloads (trace resumed_run.2) = [["JPM"; "BAC"]]
  ∧ marks (trace resumed_run.2) = [("JPM", true); ("BAC", false)]
  ∧ successful_tickers resumed_run.2 = ["AAPL"; "MSFT"; "JPM"]
  ∧ failed_tickers resumed_run.2 = ["GOOGL"; "AMZN"; "BAC"]
  ∧ total_tickers <$> summary_file (store resumed_run.2) = Some 6.
Proof. vm_compute. repeat split. Qed.

(** C7 fails as stated: the interrupted run ends in [KeyboardInterrupt]
    without a summary, and [main], which catches the interrupt and exits
    with status 0, leaves no summary file either. *)
Lemma C7_interrupted_run_writes_no_summary :
  interrupted_run.1 = Err KeyboardInterrupt
  ∧ summaries (trace interrupted_run.2) = []
  ∧ summary_file (store interrupted_run.2) = None
  ∧ (main world_even "yes" empty_store (Some 6%nat)).1 = 0
  ∧ summaries (trace (main world_even "yes" empty_store (Some 6%nat)).2) = []
  ∧ summary_file (store (main world_even "yes" empty_store (Some 6%nat)).2)
    = None.
Proof. vm_compute. repeat split. Qed.

(** C6 fails as stated: AAPL is in the first batch, whose bulk fetch has
    no entry for it, and is appended to the failed list; it is in the
    second batch too, whose fetch has one, and is then appended to the
    successful list in the same run. *)
Lemma C6_repeated_ticker_fails_and_succeeds :
  repeated_ticker_run.1 = Ok tt
  ∧ batch_of batches_of_two ["AAPL"; "MSFT"; "AAPL"] 0 = ["AAPL"; "MSFT"]
  ∧ fetched world_flaky ["AAPL"; "MSFT"]
      (start_date_of world_flaky batches_of_two) (today world_flaky)
    !! "AAPL" = None
  ∧ marks (trace repeated_ticker_run.2)
    = [("AAPL", false); ("MSFT", false); ("AAPL", true)]
  ∧ successful_tickers repeated_ticker_run.2 = ["AAPL"]
  ∧ failed_tickers repeated_ticker_run.2 = ["AAPL"; "MSFT"].
Proof. vm_compute. repeat split. Qed.

(** ** The theorems at concrete inputs *)

(** C2 on the resumed scenario: AAPL is in the record's successful list
    and no effect of the resumed run is about it. *)
Lemma C2_witness :
  let s := new_collector (store interrupted_run.2) None in
  ("AAPL" ∈ default [] (p_successful_tickers (loaded (store s)))
   ∨ "AAPL" ∈ default [] (p_failed_tickers (loaded (store s))))
  ∧ ("AAPL" ∉ working true (store s) (given world_even (Some ten_tickers)))
  ∧ ("AAPL" ∉ marked true (new_events s resumed_run.2)).
Proof.
  intros s.
  assert ("AAPL" ∈ default [] (p_successful_tickers (loaded (store s)))
          ∨ "AAPL" ∈ default [] (p_failed_tickers (loaded (store s)))) as H.
  { left. vm_compute. apply list_elem_of_here. }
  split; [exact H|].
  destruct (C2_resume_skips_processed world_even batches_of_four
              (Some ten_tickers) s "AAPL" H) as (H1 & _ & H3 & _).
  split; [exact H1|exact H3].
Defined.

(** C3 on the ten tickers with batch size 4. *)
Lemma C3_witness :
  0 < batch_size batches_of_four
  ∧ concat (map (batch_of batches_of_four ten_tickers)
              (range 0 (total_of batches_of_four ten_tickers)))
    = ten_tickers
  ∧ len (map (batch_of batches_of_four ten_tickers)
           (range 0 (total_of batches_of_four ten_tickers)))
    = total_of batches_of_four ten_tickers.
Proof.
  assert (0 < batch_size batches_of_four) as H by reflexivity.
  split; [exact H|].
  destruct (C3_fresh_run_partitions world_even batches_of_four ten_tickers
              (new_collector empty_store None) H) as (_ & _ & _ & H4 & H5 & _).
  split; [exact H4|exact H5].
Defined.

(** C4 on the ten tickers of the test mode, with [world_even]. *)
Lemma C4_witness :
  batch_size batches_of_four = 4
  ∧ (∀ (i k : nat) t,
       (i < 3)%nat →
       batch_of batches_of_four ten_tickers (Z.of_nat i) !! k = Some t →
       (is_Some (fetched world_even
                   (batch_of batches_of_four ten_tickers (Z.of_nat i))
                   (start_date_of world_even batches_of_four)
                   (today world_even) !! t)
        ↔ Nat.even (4 * i + k) = true))
  ∧ (∀ t, t ∈ ten_tickers →
          to_csv_ok world_even t = true ∧ json_dump_ok world_even t = true)
  ∧ successful_tickers
      (collect_all_data world_even batches_of_four (Some ten_tickers) false
         (new_collector empty_store None)).2
    = ["AAPL"; "MSFT"; "TSLA"; "NVDA"; "JPM"]
  ∧ failed_tickers
      (collect_all_data world_even batches_of_four (Some ten_tickers) false
         (new_collector empty_store None)).2
    = ["GOOGL"; "AMZN"; "META"; "NFLX"; "BAC"].
Proof.
  assert (batch_size batches_of_four = 4) as H1 by reflexivity.
  assert (∀ (i k : nat) t,
            (i < 3)%nat →
            batch_of batches_of_four ten_tickers (Z.of_nat i) !! k = Some t →
            (is_Some (fetched world_even
                        (batch_of batches_of_four ten_tickers (Z.of_nat i))
                        (start_date_of world_even batches_of_four)
                        (today world_even) !! t)
             ↔ Nat.even (4 * i + k) = true)) as H2.
  { intros i k t Hi Hk.
    destruct i as [|[|[|i]]]; [| | |lia];
      (destruct k as [|[|[|[|k]]]]; vm_compute in Hk; simplify_eq;
       vm_compute; split;
       first [ by eauto | intros [? ?]; discriminate | discriminate ]). }
  assert (∀ t, t ∈ ten_tickers →
               to_csv_ok world_even t = true
               ∧ json_dump_ok world_even t = true) as H3 by done.
  split; [exact H1|]. split; [exact H2|]. split; [exact H3|].
  destruct (C4_ten_tickers_batches_of_four world_even batches_of_four
              "AAPL" "GOOGL" "MSFT" "AMZN" "TSLA" "META" "NVDA" "NFLX"
              "JPM" "BAC" empty_store H1 H2 H3) as (_ & _ & E1 & E2 & _).
  split; [exact E1|exact E2].
Defined.

(** C5 on the first batch of the repeated-ticker scenario, whose bulk
    download raises. *)
Lemma C5_witness :
  let tickers := ["AAPL"; "MSFT"; "AAPL"] in
  let s := new_collector empty_store None in
  yf_download world_flaky (batch_of batches_of_two tickers 0) 0 0 = None
  ∧ (collect_batch world_flaky batches_of_two tickers 2 0 0 0 s).1 = Ok tt
  ∧ failed_tickers (collect_batch world_flaky batches_of_two tickers 2 0 0 0 s).2
    = (failed_tickers s ++ batch_of batches_of_two tickers 0)%list
  ∧ successful_tickers
      (collect_batch world_flaky batches_of_two tickers 2 0 0 0 s).2
    = successful_tickers s.
Proof.
  intros tickers s.
  assert (yf_download world_flaky (batch_of batches_of_two tickers 0) 0 0
          = None) as H by reflexivity.
  split; [exact H|].
  destruct (C5_failed_bulk_download_fails_batch world_flaky batches_of_two
              tickers 2 0 0 0 s H)
    as (_ & _ & _ & E4 & _ & _ & _ & _ & _ & E10 & E11).
  split; [exact (E10 eq_refl)|].
  split; [exact (proj1 (proj2 (E11 (E10 eq_refl))))|exact E4].
Defined.

(** C6 on the repeated-ticker scenario: MSFT is in the first batch only,
    whose bulk fetch has no entry for it. *)
Lemma C6_witness :
  let tickers := Some ["AAPL"; "MSFT"; "AAPL"] in
  let s := new_collector empty_store None in
  let wk := working false (store s) (given world_flaky tickers) in
  (∀ i, i ∈ range (start_of false (store s)) (total_of batches_of_two wk) →
        "MSFT" ∈ batch_of batches_of_two wk i →
        fetched world_flaky (batch_of batches_of_two wk i)
          (start_date_of world_flaky batches_of_two) (today world_flaky)
        !! "MSFT" = None)
  ∧ ("MSFT" ∉ marked true (new_events s repeated_ticker_run.2))
  ∧ "MSFT" ∈ failed_tickers repeated_ticker_run.2.
Proof.
  intros tickers s wk.
  assert (∀ i, i ∈ range (start_of false (store s))
                       (total_of batches_of_two wk) →
               "MSFT" ∈ batch_of batches_of_two wk i →
               fetched world_flaky (batch_of batches_of_two wk i)
                 (start_date_of world_flaky batches_of_two)
                 (today world_flaky)
               !! "MSFT" = None) as H.
  { intros i Hi Hin.
    change (range (start_of false (store s)) (total_of batches_of_two wk))
      with [0; 1] in Hi.
    apply elem_of_cons in Hi as [->|Hi]; [reflexivity|].
    apply elem_of_cons in Hi as [->|Hi]; [|by apply elem_of_nil in Hi].
    vm_compute in Hin. apply elem_of_cons in Hin as [Hin|Hin];
      [discriminate|by apply elem_of_nil in Hin]. }
  split; [exact H|].
  destruct (C6_absent_ticker_is_failed world_flaky batches_of_two tickers
              false s "MSFT" H) as (E1 & _ & E3).
  split; [exact E1|].
  apply E3; [reflexivity|]. exists 0. split.
  - change (range (start_of false (store s)) (total_of batches_of_two wk))
      with [0; 1]. apply list_elem_of_here.
  - change (batch_of batches_of_two wk 0) with ["AAPL"; "MSFT"].
    apply list_elem_of_further, list_elem_of_here.
Defined.

(** C9 on AAPL with [world_flaky], whose fundamentals lookup raises. *)
Lemma C9_witness :
  let hist : gmap string DataFrame := {[ "AAPL" := one_row ]} in
  let s := new_collector empty_store None in
  hist !! "AAPL" = Some one_row
  ∧ (df_empty one_row || to_csv_ok world_flaky "AAPL") = true
  ∧ (yf_info world_flaky "AAPL" = None
     ∨ fundamentals_of world_flaky "AAPL" = [])
  ∧ (collect_ticker world_flaky hist "AAPL" s).1 = Ok tt
  ∧ successful_tickers (collect_ticker world_flaky hist "AAPL" s).2
    = (successful_tickers s ++ ["AAPL"])%list
  ∧ failed_tickers (collect_ticker world_flaky hist "AAPL" s).2
    = failed_tickers s.
Proof.
  intros hist s.
  assert (hist !! "AAPL" = Some one_row) as H1 by reflexivity.
  assert ((df_empty one_row || to_csv_ok world_flaky "AAPL") = true) as H2
    by reflexivity.
  assert (yf_info world_flaky "AAPL" = None
          ∨ fundamentals_of world_flaky "AAPL" = []) as H3
    by (left; reflexivity).
  split; [exact H1|]. split; [exact H2|]. split; [exact H3|].
  destruct (C9_fundamentals_failure_keeps_success world_flaky hist "AAPL"
              one_row s H1 H2 H3) as (_ & _ & _ & E4 & _ & _ & E7 & E8).
  split; [exact (E7 eq_refl)|].
  split; [exact (proj2 (E8 (E7 eq_refl)))|exact E4].
Defined.

(** C10 on an empty data directory. *)
Lemma C10_witness :
  progress_file empty_store = None
  ∧ collect_all_data world_even batches_of_four (Some ten_tickers) true
      (new_collector empty_store None)
    = collect_all_data world_even batches_of_four (Some ten_tickers) false
        (new_collector empty_store None).
Proof.
  assert (progress_file empty_store = None) as H by reflexivity.
  split; [exact H|].
  exact (proj2 (C10_first_resumed_run_is_fresh world_even batches_of_four
                  (Some ten_tickers) empty_store None H)).
Defined.


(** * Further properties of the collector *)

(** ** The bulk fetch *)

(* [naive_solver] clears hypotheses that are already gone. *)
Local Set Warnings "-clear-no-such-hyp".

Lemma parse_download_fold (data : RawFrame) (tickers : list string) :
  ∀ (acc : gmap string DataFrame) t d,
  foldl (λ result ticker,
           match groups data !! ticker with
           | Some ticker_data =>
               if df_empty ticker_data then result
               else <[ ticker := ticker_data ]> result
           | None => result
           end) acc tickers !! t = Some d ↔
  (t ∈ tickers ∧ df_empty d = false ∧ groups data !! t = Some d)
  ∨ (¬ (t ∈ tickers
        ∧ ∃ d', groups data !! t = Some d' ∧ df_empty d' = false)
     ∧ acc !! t = Some d).
Proof.
  induction tickers as [|x l IH]; intros acc t d; simpl.
  - split; [|intros [(H & _)|(_ & H)]; [by apply elem_of_nil in H|done]].
    intros H. right. split; [|done]. intros [H' _]. by apply elem_of_nil in H'.
  - rewrite IH. clear IH. rewrite elem_of_cons.
    destruct (decide (t ∈ l)) as [Hin|Hin];
      (destruct (decide (t = x)) as [->|Hne];
       [destruct (groups data !! x) as [dx|] eqn:Hx;
          [destruct (df_empty dx) eqn:He;
             [assert (¬ ∃ d', Some dx = Some d' ∧ df_empty d' = false)
                 by (intros (? & [= <-] & ?); congruence)
             |assert (∃ d', Some dx = Some d' ∧ df_empty d' = false)
                 by eauto]|];
          rewrite ?lookup_insert_eq; naive_solver
       |destruct (groups data !! x) as [dx|] eqn:Hx;
          [destruct (df_empty dx) eqn:He|];
          try rewrite lookup_insert_ne by done; naive_solver]).
Qed.


Lemma parse_download_spec (tickers : list string) (data : RawFrame) t d :
  parse_download tickers data !! t = Some d ↔
  t ∈ tickers ∧ df_empty d = false
  ∧ (if len tickers =? 1 then d = whole data
     else groups data !! t = Some d).
Proof.
  unfold parse_download.
  destruct (len tickers =? 1) eqn:Hlen.
  - apply Z.eqb_eq in Hlen. unfold len in Hlen.
    destruct tickers as [|t0 [|t1 l]]; simpl in Hlen; try lia.
    destruct (df_empty (whole data)) eqn:He.
    + rewrite lookup_empty. split; [done|].
      intros (_ & Hd & ->). congruence.
    + rewrite lookup_singleton_Some, list_elem_of_singleton.
      split; [intros [-> <-]; done|intros (-> & _ & ->); done].
  - rewrite parse_download_fold. rewrite lookup_empty. naive_solver.
Qed.

Lemma parse_download_nonempty (tickers : list string) (data : RawFrame) t d :
  parse_download tickers data !! t = Some d →
  t ∈ tickers ∧ df_empty d = false.
Proof. intros H%parse_download_spec. split; apply H. Qed.

Lemma fetched_nonempty (w : World) (tickers : list string) sd ed t d :
  fetched w tickers sd ed !! t = Some d → t ∈ tickers ∧ df_empty d = false.
Proof.
  unfold fetched. destruct (yf_download w tickers sd ed); [|done].
  apply parse_download_nonempty.
Qed.

(** ** What a run processes *)

Section BatchingFrom.
Variable cfg : Config.

Lemma flat_map_batches_from (tickers : list string) (a k : nat) :
  0 < batch_size cfg →
  flat_map (batch_of cfg tickers) (seqZ (Z.of_nat a) (Z.of_nat k))
  = take (k * Z.to_nat (batch_size cfg))
      (drop (a * Z.to_nat (batch_size cfg)) tickers).
Proof.
  intros HN. induction k as [|k IH]; [done|].
  rewrite seqZ_S, flat_map_app, IH. cbn [flat_map]. rewrite app_nil_r.
  rewrite <- Nat2Z.inj_add, batch_of_chunk by done.
  replace (drop ((a + k) * Z.to_nat (batch_size cfg)) tickers)
    with (drop (k * Z.to_nat (batch_size cfg))
            (drop (a * Z.to_nat (batch_size cfg)) tickers))
    by (rewrite drop_drop; f_equal; lia).
  rewrite take_take_drop. f_equal. lia.
Qed.

(** The batches from [start] on are the list without its first
    [start * batch_size] tickers. *)
Lemma range_batches_drop (tickers : list string) start :
  0 < batch_size cfg → 0 ≤ start →
  flat_map (batch_of cfg tickers) (range start (total_of cfg tickers))
  = drop (Z.to_nat (start * batch_size cfg)) tickers.
Proof.
  intros HN Hs. unfold range.
  pose proof (total_of_ceil cfg tickers HN) as Hceil.
  set (T := total_of cfg tickers) in *. unfold len in Hceil.
  destruct (decide (T ≤ start)) as [Hle|Hgt].
  - rewrite seqZ_nil by lia. simpl. symmetry. apply drop_ge. nia.
  - replace (seqZ start (T - start))
      with (seqZ (Z.of_nat (Z.to_nat start)) (Z.of_nat (Z.to_nat (T - start))))
      by (f_equal; lia).
    rewrite flat_map_batches_from by done.
    replace (Z.to_nat start * Z.to_nat (batch_size cfg))%nat
      with (Z.to_nat (start * batch_size cfg)) by nia.
    apply take_ge. rewrite length_drop. nia.
Qed.

Lemma batch_of_short (tickers : list string) i :
  0 < batch_size cfg → 0 ≤ i →
  len (batch_of cfg tickers i) ≤ batch_size cfg.
Proof.
  intros HN Hi.
  replace i with (Z.of_nat (Z.to_nat i)) by lia.
  rewrite batch_of_chunk by done. unfold len. rewrite length_take. lia.
Qed.
End BatchingFrom.

Lemma marked_Permutation evs :
  marked true evs ++ marked false evs ≡ₚ (marks evs).*1.
Proof.
  induction evs as [|e evs IH]; [done|].
  destruct e as [| | | | |t [] | | |]; cbn; try exact IH.
  - by f_equiv.
  - rewrite <- Permutation_middle. by f_equiv.
Qed.

Lemma marked_length evs :
  len (marked true evs) + len (marked false evs) = len (marks evs).
Proof.
  unfold len. rewrite <- Nat2Z.inj_add, <- length_app.
  by rewrite marked_Permutation, length_fmap.
Qed.

Section Processed.
Variable w : World.
Variable cfg : Config.

Lemma run_processed tickers resume s :
  0 < batch_size cfg → 0 ≤ start_of resume (store s) →
  let r := collect_all_data w cfg tickers resume s in
  let rest := drop (Z.to_nat (start_of resume (store s) * batch_size cfg))
                (working resume (store s) (given w tickers)) in
  (marks (new_events s r.2)).*1 `prefix_of` rest
  ∧ (r.1 = Ok tt → (marks (new_events s r.2)).*1 = rest).
Proof.
  intros HN Hs r rest.
  destruct (marks_run_prefix w cfg tickers resume s) as [Hp He].
  fold r in Hp, He. unfold rest.
  rewrite <- (range_batches_drop cfg) by done.
  rewrite <- (fst_flat_batch_marks w cfg _ (start_date_of w cfg) (today w)).
  split; [by apply fmap_prefix|]. intros Ho. by rewrite He.
Qed.

(** A run that completes. *)
Lemma run_completed tickers resume s :
  let r := collect_all_data w cfg tickers resume s in
  let evs := new_events s r.2 in
  r.1 = Ok tt →
  let x := make_summary w cfg (successful_tickers r.2) (failed_tickers r.2)
             (start_date_of w cfg) (today w) in
  steps (resumed resume s) evs r.2
  ∧ batch_size cfg ≠ 0
  ∧ evs = listing_events tickers ++ batches_events w cfg tickers resume s
          ++ [EvSummary x]
  ∧ summary_file (store r.2) = Some x.
Proof.
  intros r evs Ho x.
  destruct (run_cases w cfg tickers resume s)
    as [(Ho' & _)|(Hs & [(_ & HN & He)|[(Ho' & _)|(Ho' & _)]])];
    try (fold r in Ho'; rewrite Ho in Ho'; discriminate).
  fold r evs in Hs, He. split_and!; [done..|].
  rewrite (st_summ _ _ _ Hs). unfold evs in He. fold x in He. fold evs in He.
  rewrite He, app_assoc, summaries_app, summaries_batches. done.
Qed.

End Processed.

Section ProcessedLists.
Variable w : World.
Variable cfg : Config.

(** X2: with a positive batch size, a run that does not resume and
    completes appends every ticker of its list to one of the two lists,
    once per position and in the order of the list. The two lists end as
    a rearrangement of what they held before followed by the list, and
    the total of the summary is what they held plus the length of the
    list. *)
Theorem fresh_run_marks_every_ticker tickers s :
  0 < batch_size cfg →
  let r := collect_all_data w cfg tickers false s in
  let evs := new_events s r.2 in
  r.1 = Ok tt →
  (marks evs).*1 = given w tickers
  ∧ successful_tickers r.2 ++ failed_tickers r.2
    ≡ₚ (successful_tickers s ++ failed_tickers s) ++ given w tickers
  ∧ ∃ x, summary_file (store r.2) = Some x
         ∧ total_tickers x
           = len (successful_tickers s) + len (failed_tickers s)
             + len (given w tickers).
Proof.
  intros HN r evs Ho.
  destruct (run_processed w cfg tickers false s HN) as [_ He]; [done|].
  fold r evs in He. specialize (He Ho).
  change ((marks evs).*1 = given w tickers) in He.
  destruct (run_completed w cfg tickers false s Ho) as (Hs & _ & _ & Hx).
  fold r evs in Hs, Hx. simpl in Hs.
  assert (successful_tickers r.2 ++ failed_tickers r.2
          ≡ₚ (successful_tickers s ++ failed_tickers s) ++ given w tickers)
    as Hperm.
  { rewrite (st_succ _ _ _ Hs), (st_fail _ _ _ Hs), <- He.
    rewrite <- marked_Permutation. solve_Permutation. }
  split_and!; [done..|].
  eexists. split; [exact Hx|]. cbn [total_tickers make_summary].
  unfold len. rewrite <- !Nat2Z.inj_add, <- !length_app. by rewrite Hperm.
Qed.

(** X3: with a positive batch size and a recorded batch index [b] that
    is not negative, a resumed run that completes appends exactly the
    tickers of the filtered list from position [b * batch_size] on, in
    order; the filtered tickers before that position are not
    appended. *)
Theorem resumed_run_marks_rest tickers s :
  0 < batch_size cfg →
  0 ≤ start_of true (store s) →
  let r := collect_all_data w cfg tickers true s in
  let evs := new_events s r.2 in
  let wk := working true (store s) (given w tickers) in
  let skipped := Z.to_nat (start_of true (store s) * batch_size cfg) in
  r.1 = Ok tt →
  (marks evs).*1 = drop skipped wk
  ∧ successful_tickers r.2 ++ failed_tickers r.2
    ≡ₚ (default [] (p_successful_tickers (loaded (store s)))
        ++ default [] (p_failed_tickers (loaded (store s))))
       ++ drop skipped wk.
Proof.
  intros HN Hst r evs wk skipped Ho.
  destruct (run_processed w cfg tickers true s HN Hst) as [_ He].
  fold r evs in He. specialize (He Ho). fold wk skipped in He.
  destruct (run_completed w cfg tickers true s Ho) as (Hs & _ & _ & _).
  fold r evs in Hs. split; [done|].
  rewrite (st_succ _ _ _ Hs), (st_fail _ _ _ Hs), <- He.
  rewrite <- marked_Permutation. simpl. solve_Permutation.
Qed.

End ProcessedLists.

(** ** The last progress record of a run *)

Lemma prefix_before_progress (l A B : list Event) p :
  l `prefix_of` A ++ EvProgress p :: B → persisted l = [] → l `prefix_of` A.
Proof.
  revert l. induction A as [|a A IH]; intros l Hp Hl.
  - destruct l as [|e l]; [done|]. simpl in Hp.
    apply prefix_cons_inv_1 in Hp. by subst e.
  - destruct l as [|e l]; [apply prefix_nil|]. simpl in Hp.
    pose proof (prefix_cons_inv_1 _ _ _ _ Hp) as ->.
    apply prefix_cons_inv_2 in Hp. apply prefix_cons, IH; [done|].
    by destruct a.
Qed.

Lemma last_persisted_split (evs : list Event) p :
  last (persisted evs) = Some p →
  ∃ pre post, evs = pre ++ EvProgress p :: post ∧ persisted post = [].
Proof.
  induction evs as [|e evs IH] using rev_ind; [done|].
  rewrite persisted_app.
  destruct (persisted [e]) as [|q l] eqn:He.
  - rewrite app_nil_r. intros (pre & post & -> & Hq)%IH.
    exists pre, (post ++ [e]). split; [by rewrite <- app_assoc|].
    by rewrite persisted_app, Hq, He.
  - destruct e; try discriminate. injection He as <- <-.
    rewrite last_snoc. intros [= ->]. by exists evs, [].
Qed.

Lemma marked_nil_of_marks b evs : marks evs = [] → marked b evs = [].
Proof. intros H. by rewrite marked_marks, H. Qed.

Section LastRecord.
Variable w : World.
Variable cfg : Config.

Lemma marked_batch_events b tickers total sd ed succ fail i :
  marked b (batch_events w cfg tickers total sd ed succ fail i)
  = marked b (batch_ticker_events w cfg tickers sd ed i).
Proof.
  rewrite !marked_marks, marks_batch_events. unfold batch_ticker_events.
  by rewrite marks_batch_tickers.
Qed.

Lemma batch_split_post tickers total sd ed succ fail i R pre p post :
  batch_events w cfg tickers total sd ed succ fail i ++ R
  = pre ++ EvProgress p :: post →
  (pre = EvDownload (batch_of cfg tickers i)
         :: batch_ticker_events w cfg tickers sd ed i
   ∧ p = progress_record w
           (succ ++ marked true (batch_ticker_events w cfg tickers sd ed i))
           (fail ++ marked false (batch_ticker_events w cfg tickers sd ed i))
           (i + 1)
   ∧ post = pause cfg total i ++ R)
  ∨ ∃ pre', pre = batch_events w cfg tickers total sd ed succ fail i ++ pre'
            ∧ R = pre' ++ EvProgress p :: post.
Proof.
  unfold batch_events. rewrite <- !app_assoc. intros H.
  rewrite (app_assoc [_]) in H.
  apply split_skip in H as (pre1 & -> & H).
  2:{ rewrite persisted_app. unfold batch_ticker_events.
      by destruct (quiet_batch_tickers w
            (fetched w (batch_of cfg tickers i) sd ed)
            (batch_of cfg tickers i)) as (_ & -> & _). }
  destruct pre1 as [|e pre1]; simpl in H.
  - injection H as <- <-. left.
    split_and!; [by rewrite app_nil_r|done..].
  - injection H as <- H. right.
    apply split_skip in H as (pre2 & -> & H).
    2:{ by destruct (pause_quiet cfg total i) as (_ & _ & -> & _). }
    exists pre2. split; [|done]. by rewrite <- !app_assoc.
Qed.

(** Where a progress record sits in the effects of the batch loop, and
    what follows it. *)
Lemma loop_split_post tickers total sd ed idxs : ∀ succ fail pre p post,
  loop_events w cfg tickers total sd ed succ fail idxs
  = pre ++ EvProgress p :: post →
  ∃ idxs1 i idxs2,
    idxs = idxs1 ++ i :: idxs2
    ∧ p = progress_record w (succ ++ marked true pre)
            (fail ++ marked false pre) (i + 1)
    ∧ post = pause cfg total i
             ++ loop_events w cfg tickers total sd ed
                  (succ ++ marked true pre) (fail ++ marked false pre) idxs2.
Proof.
  induction idxs as [|i idxs IH]; intros succ fail pre p post H.
  - by destruct pre.
  - cbn [loop_events] in H.
    apply batch_split_post in H as [(-> & -> & ->)|(pre' & -> & H)].
    + exists [], i, idxs. split_and!; [done..|].
      rewrite !marked_batch_events.
      by change (marked ?b (EvDownload ?x :: ?l)) with (marked b l).
    + apply IH in H as (idxs1 & j & idxs2 & -> & -> & ->).
      exists (i :: idxs1), j, idxs2.
      by rewrite !marked_app, <- !app_assoc.
Qed.

(** The effects of a run within those of the run that completes. *)
Lemma run_within tickers resume s :
  let r := collect_all_data w cfg tickers resume s in
  ∃ x k, listing_events tickers ++ batches_events w cfg tickers resume s
         ++ [EvSummary x] = new_events s r.2 ++ k
         ∧ (r.1 = Ok tt → k = []).
Proof.
  intros r.
  set (x0 := make_summary w cfg [] [] 0 0).
  destruct (run_cases w cfg tickers resume s)
    as [(Ho & _ & He & _)|(_ & [(Ho & _ & He)|[(Ho & _ & Hp)|(Ho & _ & He)]])];
    fold r in Ho; fold r in He || fold r in Hp.
  - exists x0. rewrite He. eexists. split; [done|]. by rewrite Ho.
  - eexists _, []. by rewrite He, app_nil_r.
  - destruct Hp as [k Hk]. exists x0, (k ++ [EvSummary x0]).
    split; [|by rewrite Ho]. by rewrite app_assoc, Hk, <- app_assoc.
  - exists x0. rewrite He. eexists. split; [done|]. by rewrite Ho.
Qed.

Lemma run_last_record tickers resume s pre p post :
  let r := collect_all_data w cfg tickers resume s in
  let wk := working resume (store s) (given w tickers) in
  let start := start_of resume (store s) in
  let total := total_of cfg wk in
  new_events s r.2 = pre ++ EvProgress p :: post →
  persisted post = [] →
  ∃ k : nat,
    start + Z.of_nat k < total
    ∧ p = progress_record w
            (successful_tickers (resumed resume s) ++ marked true pre)
            (failed_tickers (resumed resume s) ++ marked false pre)
            (start + Z.of_nat k + 1)
    ∧ marks post `prefix_of`
        (if start + Z.of_nat k + 1 <? total
         then batch_marks w cfg wk (start_date_of w cfg) (today w)
                (start + Z.of_nat k + 1)
         else [])
    ∧ (r.1 = Ok tt → start + Z.of_nat k + 1 = total).
Proof.
  intros r wk start total He Hq.
  destruct (run_within tickers resume s) as (x & kk & Hk & Hok).
  fold r in Hk, Hok. rewrite He in Hk.
  rewrite <- (app_assoc pre) in Hk. cbn [app] in Hk.
  apply split_skip in Hk as (pre' & -> & Hk);
    [|by destruct (listing_quiet tickers) as (_ & _ & -> & _)].
  pose proof Hk as Hk'.
  apply split_last in Hk' as [post' Hb]; [|done].
  rewrite Hb in Hk. rewrite <- app_assoc in Hk. cbn [app] in Hk.
  apply app_inv_head in Hk. injection Hk as Hk.
  unfold batches_events in Hb. fold wk start total in Hb.
  apply loop_split_post in Hb as (idxs1 & i & idxs2 & Hr & -> & ->).
  pose proof Hr as Hr'.
  apply seqZ_split in Hr' as (Hi1 & -> & Hlt).
  exists (length idxs1).
  rewrite !marked_app, !marked_listing. cbn [app].
  split_and!; [lia|done| |].
  - assert (marks post `prefix_of` marks (post ++ kk)) as Hpre
      by (rewrite marks_app; by apply prefix_app_r).
    destruct idxs2 as [|j idxs2].
    + rewrite <- Hk, !marks_app in Hpre. cbn in Hpre.
      destruct (pause_quiet cfg total (start + Z.of_nat (length idxs1)))
        as (Hm & _).
      rewrite Hm in Hpre. simpl in Hpre.
      apply prefix_nil_inv in Hpre. rewrite Hpre. apply prefix_nil.
    + assert (range start total
              = (idxs1 ++ [start + Z.of_nat (length idxs1)]) ++ j :: idxs2)
        as Hr2 by (by rewrite Hr, <- app_assoc).
      clear Hr. rename Hr2 into Hr.
      apply seqZ_split in Hr as (_ & Hj & Hjlt).
      rewrite length_app in Hj, Hjlt. simpl in Hj, Hjlt.
      assert (j = start + Z.of_nat (length idxs1) + 1) as -> by lia.
      rewrite (proj2 (Z.ltb_lt _ _)) by lia.
      assert (post `prefix_of`
                pause cfg total (start + Z.of_nat (length idxs1))
                ++ [EvDownload
                      (batch_of cfg wk (start + Z.of_nat (length idxs1) + 1))]
                ++ batch_ticker_events w cfg wk (start_date_of w cfg)
                     (today w) (start + Z.of_nat (length idxs1) + 1))
        as Hpp.
      { pose proof Hk as Hs. cbn [loop_events] in Hs.
        unfold batch_events at 1 in Hs.
        rewrite <- !app_assoc in Hs. cbn [app] in Hs.
        eapply prefix_before_progress; [|exact Hq].
        exists kk. rewrite <- !app_assoc. cbn [app]. exact Hs. }
      apply (omap_prefix (λ e, match e with
                               | EvMark t b => Some (t, b) | _ => None
                               end)) in Hpp.
      etrans; [exact Hpp|].
      fold (marks (pause cfg total (start + Z.of_nat (length idxs1))
                   ++ [EvDownload
                         (batch_of cfg wk
                            (start + Z.of_nat (length idxs1) + 1))]
                   ++ batch_ticker_events w cfg wk (start_date_of w cfg)
                        (today w) (start + Z.of_nat (length idxs1) + 1))).
      rewrite !marks_app.
      destruct (pause_quiet cfg total (start + Z.of_nat (length idxs1)))
        as (-> & _).
      cbn [marks omap app]. unfold batch_ticker_events.
      rewrite marks_batch_tickers. done.
  - intros Ho. specialize (Hok Ho). subst kk. rewrite app_nil_r in Hk.
    destruct idxs2 as [|j idxs2].
    + unfold range in Hr.
      apply (f_equal length) in Hr.
      rewrite length_seqZ, length_app in Hr. simpl in Hr. lia.
    + exfalso. rewrite <- Hk in Hq. cbn [loop_events] in Hq.
      rewrite !persisted_app, persisted_batch_events in Hq.
      destruct (pause_quiet cfg total (start + Z.of_nat (length idxs1)))
        as (_ & _ & Hpq & _).
      rewrite Hpq in Hq. done.
Qed.

End LastRecord.

(** ** Checkpoints and restarts *)

Lemma prefix_sublist {A} (l1 l2 : list A) :
  l1 `prefix_of` l2 → l1 `sublist_of` l2.
Proof. intros [k ->]. by apply sublist_inserts_r. Qed.

Lemma prefix_elem_of {A} (l1 l2 : list A) x :
  l1 `prefix_of` l2 → x ∈ l1 → x ∈ l2.
Proof. intros [k ->] H. apply elem_of_app. by left. Qed.

Lemma lists_NoDup (l1 l2 : list string) evs :
  NoDup (l1 ++ l2) → NoDup (marks evs).*1 →
  (∀ t, t ∈ (marks evs).*1 → t ∉ l1 ++ l2) →
  NoDup ((l1 ++ marked true evs) ++ (l2 ++ marked false evs)).
Proof.
  intros H1 H2 H3.
  assert ((l1 ++ marked true evs) ++ (l2 ++ marked false evs)
          ≡ₚ (l1 ++ l2) ++ (marks evs).*1) as ->.
  { rewrite <- marked_Permutation. solve_Permutation. }
  apply NoDup_app. split_and!; [done| |done].
  intros t Ht Ht'. by apply (H3 t).
Qed.

Lemma marks_progress_split pre p post :
  marks (pre ++ EvProgress p :: post) = marks pre ++ marks post.
Proof. by rewrite marks_app. Qed.

Lemma marked_progress_split b pre p post :
  marked b (pre ++ EvProgress p :: post) = marked b pre ++ marked b post.
Proof. by rewrite marked_app. Qed.

Section Durability.
Variable w : World.
Variable cfg : Config.

Lemma run_marks_NoDup tickers resume s :
  0 < batch_size cfg → 0 ≤ start_of resume (store s) →
  NoDup (given w tickers) →
  let r := collect_all_data w cfg tickers resume s in
  NoDup (marks (new_events s r.2)).*1
  ∧ ∀ t, t ∈ (marks (new_events s r.2)).*1 →
         t ∈ working resume (store s) (given w tickers).
Proof.
  intros HN Hs Hg r.
  destruct (run_processed w cfg tickers resume s HN Hs) as [Hp _].
  fold r in Hp. split.
  - eapply sublist_NoDup; [|etrans; [by apply prefix_sublist|apply sublist_drop]].
    unfold working. destruct resume; [by apply NoDup_filter|done].
  - intros t Ht. eapply subseteq_drop, prefix_elem_of; done.
Qed.

(** The appends of a run that persists no record stay within its first
    batch. *)
Lemma run_without_record tickers resume s :
  0 < batch_size cfg → 0 ≤ start_of resume (store s) →
  let r := collect_all_data w cfg tickers resume s in
  persisted (new_events s r.2) = [] →
  len (marks (new_events s r.2)) ≤ batch_size cfg.
Proof.
  intros HN Hs r Hq.
  destruct (run_within w cfg tickers resume s) as (x & kk & Hk & _).
  fold r in Hk.
  assert (new_events s r.2 `prefix_of`
            listing_events tickers
            ++ batches_events w cfg tickers resume s ++ [EvSummary x])
    as Hp by (by exists kk).
  unfold batches_events in Hp.
  set (wk := working resume (store s) (given w tickers)) in *.
  set (start := start_of resume (store s)) in *.
  destruct (range start (total_of cfg wk)) as [|i idxs] eqn:Hr.
  - apply (omap_prefix (λ e, match e with
                             | EvMark t b => Some (t, b) | _ => None
                             end)) in Hp.
    fold (marks (new_events s r.2)) in Hp.
    replace (omap _ _) with (@nil (string * bool)) in Hp
      by (by destruct tickers).
    apply prefix_nil_inv in Hp. rewrite Hp. unfold len. simpl. lia.
  - assert (i = start) as ->.
    { unfold range in Hr.
      assert (seqZ start (total_of cfg wk - start) !! 0%nat = Some i)
        as Hi by (by rewrite Hr).
      apply lookup_seqZ in Hi as [-> _]. lia. }
    assert (new_events s r.2 `prefix_of`
              listing_events tickers
              ++ [EvDownload (batch_of cfg wk start)]
              ++ batch_ticker_events w cfg wk (start_date_of w cfg)
                   (today w) start) as Hp'.
    { destruct Hp as [k' Hk']. cbn [loop_events] in Hk'.
      unfold batch_events at 1 in Hk'.
      rewrite <- !app_assoc in Hk'. cbn [app] in Hk'.
      eapply prefix_before_progress; [|exact Hq].
      exists k'. rewrite <- !app_assoc. cbn [app]. exact Hk'. }
    clear Hp. rename Hp' into Hp.
    apply (omap_prefix (λ e, match e with
                             | EvMark t b => Some (t, b) | _ => None
                             end)) in Hp.
    apply prefix_length in Hp.
    fold (marks (new_events s r.2)) in Hp.
    fold (marks (listing_events tickers
                 ++ [EvDownload (batch_of cfg wk start)]
                 ++ batch_ticker_events w cfg wk (start_date_of w cfg)
                      (today w) start)) in Hp.
    rewrite !marks_app in Hp.
    destruct (listing_quiet tickers) as (Hl & _). rewrite Hl in Hp.
    cbn [marks omap app] in Hp. unfold batch_ticker_events in Hp.
    rewrite marks_batch_tickers in Hp.
    change (marks [EvDownload ?b]) with (@nil (string * bool)) in Hp.
    cbn [app] in Hp. rewrite length_map in Hp.
    pose proof (batch_of_short cfg wk start HN Hs). unfold len in *. lia.
Qed.

(** X4: with a positive batch size (and a recorded batch index that is
    not negative), however a run ends, the lists in memory are those of
    the progress file followed by the appends of at most one batch, and
    nothing when the run completes. When the run has persisted no
    record, the file is as it was and the run has appended at most one
    batch. *)
Theorem interruption_loses_at_most_one_batch tickers resume s :
  0 < batch_size cfg → 0 ≤ start_of resume (store s) →
  let r := collect_all_data w cfg tickers resume s in
  let evs := new_events s r.2 in
  (persisted evs = []
   ∧ progress_file (store r.2) = progress_file (store s)
   ∧ len (marks evs) ≤ batch_size cfg)
  ∨ ∃ p l1 l2 ds df,
      progress_file (store r.2) = Some p
      ∧ p_successful_tickers p = Some l1 ∧ p_failed_tickers p = Some l2
      ∧ successful_tickers r.2 = l1 ++ ds
      ∧ failed_tickers r.2 = l2 ++ df
      ∧ len ds + len df ≤ batch_size cfg
      ∧ (r.1 = Ok tt → ds = [] ∧ df = []).
Proof.
  intros HN Hst r evs.
  pose proof (run_without_record tickers resume s HN Hst) as Hnone.
  fold r evs in Hnone.
  destruct (run_cases w cfg tickers resume s)
    as [(_ & Hr2 & He & _)|(Hs & _)]; fold r in Hr2 || fold r evs in Hs.
  { left. fold r evs in He. rewrite He, Hr2. unfold len. simpl.
    split_and!; [done..|lia]. }
  pose proof (st_prog _ _ _ Hs) as Hfile.
  destruct (resumed_frame resume s) as (_ & Hstore & _).
  rewrite Hstore in Hfile. unfold last_write in Hfile.
  destruct (last (persisted evs)) as [p|] eqn:Hlast.
  - right. apply last_persisted_split in Hlast as (pre & post & He & Hq).
    destruct (run_last_record w cfg tickers resume s pre p post He Hq)
      as (k & Hk & Hp & Hpost & Hok).
    fold r in Hok. apply prefix_length in Hpost.
    exists p, (successful_tickers (resumed resume s) ++ marked true pre),
      (failed_tickers (resumed resume s) ++ marked false pre),
      (marked true post), (marked false post).
    split_and!; [done|by rewrite Hp..| | | |].
    + rewrite (st_succ _ _ _ Hs). fold evs. rewrite He.
      by rewrite marked_progress_split, app_assoc.
    + rewrite (st_fail _ _ _ Hs). fold evs. rewrite He.
      by rewrite marked_progress_split, app_assoc.
    + rewrite marked_length. etrans; [apply inj_le, Hpost|].
      destruct (_ <? _).
      * unfold batch_marks. rewrite length_map.
        apply (batch_of_short cfg); [done|lia].
      * simpl. lia.
    + intros Ho. specialize (Hok Ho).
      rewrite (proj2 (Z.ltb_ge _ _)) in Hpost by lia.
      destruct (marks post) eqn:Hm; [|simpl in Hpost; lia].
      split; by apply marked_nil_of_marks.
  - left. apply last_None in Hlast. split_and!; [done..|by apply Hnone].
Qed.

End Durability.

Section Restarts.
Variable w : World.
Variable cfg : Config.

(** X5: a progress file that names no ticker twice and has a batch
    index that is not negative stays so: after a run (resumed or not,
    however it ends) of a new collector over a list without duplicates,
    with a positive batch size, the file is again of that kind, and the
    two lists in memory name no ticker twice. *)
Theorem progress_stays_duplicate_free tickers resume st f :
  0 < batch_size cfg → progress_wf st → NoDup (given w tickers) →
  let r := collect_all_data w cfg tickers resume (new_collector st f) in
  progress_wf (store r.2)
  ∧ NoDup (successful_tickers r.2 ++ failed_tickers r.2).
Proof.
  intros HN [Hnd Hidx] Hg r.
  set (s := new_collector st f) in *.
  set (evs := new_events s r.2).
  assert (0 ≤ start_of resume (store s)) as Hst
    by (destruct resume; [exact Hidx|done]).
  destruct (run_marks_NoDup w cfg tickers resume s HN Hst Hg) as [Hm Hin].
  fold r evs in Hm, Hin.
  set (succ0 := successful_tickers (resumed resume s)).
  set (fail0 := failed_tickers (resumed resume s)).
  assert (NoDup (succ0 ++ fail0)) as Hbase
    by (destruct resume; [exact Hnd|constructor]).
  assert (∀ t, t ∈ (marks evs).*1 → t ∉ succ0 ++ fail0) as Hfresh.
  { intros t Ht%Hin. destruct resume; [|apply not_elem_of_nil].
    apply working_resume_spec in Ht as (_ & H1 & H2).
    apply not_elem_of_app. done. }
  destruct (run_cases w cfg tickers resume s)
    as [(_ & Hr2 & _)|(Hs & _)]; fold r in Hr2 || fold r evs in Hs.
  { rewrite Hr2. split; [done|constructor]. }
  split.
  - pose proof (st_prog _ _ _ Hs) as Hfile.
    destruct (resumed_frame resume s) as (_ & Hstore & _).
    rewrite Hstore in Hfile. unfold last_write in Hfile.
    destruct (last (persisted evs)) as [p|] eqn:Hlast.
    + apply last_persisted_split in Hlast as (pre & post & He & Hq).
      destruct (run_last_record w cfg tickers resume s pre p post He Hq)
        as (k & Hk & Hp & _).
      set (start := start_of resume (store s)) in *. clearbody start.
      unfold progress_wf, loaded. rewrite Hfile, Hp. simpl.
      fold succ0 fail0. fold evs in He.
      rewrite He, marks_progress_split, fmap_app in Hm, Hfresh.
      apply NoDup_app in Hm as (Hm & _).
      split; [|lia]. apply lists_NoDup; [done..|].
      intros t Ht. apply Hfresh, elem_of_app. by left.
    + unfold progress_wf, loaded. rewrite Hfile. done.
  - rewrite (st_succ _ _ _ Hs), (st_fail _ _ _ Hs).
    by apply lists_NoDup.
Qed.

Lemma working_nothing_left (st : Store) (l : list string) :
  (∀ t, t ∈ l → t ∈ default [] (p_successful_tickers (loaded st))
                ∨ t ∈ default [] (p_failed_tickers (loaded st))) →
  working true st l = [].
Proof.
  intros H. apply elem_of_nil_inv. intros t.
  rewrite working_resume_spec. intros (Ht & H1 & H2).
  by destruct (H t Ht).
Qed.

Lemma total_of_nil : 0 < batch_size cfg → total_of cfg [] = 0.
Proof. intros HN. unfold total_of, len. simpl. apply Z.div_small. lia. Qed.

(** A resumed run with nothing left and a start index that is not
    negative has no batch. *)
Lemma run_nothing_left tickers s :
  0 < batch_size cfg →
  working true (store s) (given w tickers) = [] →
  0 ≤ start_of true (store s) →
  let r := collect_all_data w cfg tickers true s in
  let evs := new_events s r.2 in
  downloads evs = [] ∧ marks evs = [] ∧ persisted evs = []
  ∧ csv_written evs = [] ∧ json_written evs = [].
Proof.
  intros HN Hwk Hst r evs.
  destruct (run_prefix w cfg tickers true s) as (x & Hp).
  fold r evs in Hp. unfold batches_events in Hp.
  rewrite Hwk, total_of_nil in Hp by done.
  unfold range in Hp. rewrite seqZ_nil in Hp by lia.
  cbn [loop_events app] in Hp.
  split_and!.
  - apply (omap_prefix (λ e, match e with
                             | EvDownload ts => Some ts | _ => None
                             end)) in Hp.
    destruct tickers; by apply prefix_nil_inv in Hp.
  - apply (omap_prefix (λ e, match e with
                             | EvMark t b => Some (t, b) | _ => None
                             end)) in Hp.
    destruct tickers; by apply prefix_nil_inv in Hp.
  - apply (omap_prefix (λ e, match e with
                             | EvProgress p => Some p | _ => None
                             end)) in Hp.
    destruct tickers; by apply prefix_nil_inv in Hp.
  - apply (omap_prefix (λ e, match e with
                             | EvToCsv t true => Some t | _ => None
                             end)) in Hp.
    destruct tickers; by apply prefix_nil_inv in Hp.
  - apply (omap_prefix (λ e, match e with
                             | EvFundJson t true => Some t | _ => None
                             end)) in Hp.
    destruct tickers; by apply prefix_nil_inv in Hp.
Qed.

(** X6: after a first collection over a data directory without a
    progress file has completed (with a positive batch size), running
    the collection again with resume over the same list fetches nothing,
    appends nothing, writes no artifact and no progress record; unless
    interrupted it completes. *)
Theorem completed_collection_resumes_to_nothing tickers resume st f f' :
  0 < batch_size cfg → progress_file st = None →
  let r1 := collect_all_data w cfg tickers resume (new_collector st f) in
  r1.1 = Ok tt →
  let s2 := new_collector (store r1.2) f' in
  let r2 := collect_all_data w cfg tickers true s2 in
  let evs2 := new_events s2 r2.2 in
  downloads evs2 = [] ∧ marks evs2 = [] ∧ persisted evs2 = []
  ∧ csv_written evs2 = [] ∧ json_written evs2 = []
  ∧ (f' = None → r2.1 = Ok tt).
Proof.
  intros HN Hnone r1 Ho s2 r2 evs2.
  set (s1 := new_collector st f) in *.
  set (evs1 := new_events s1 r1.2).
  assert (start_of resume (store s1) = 0) as Hst0.
  { unfold start_of, loaded. simpl. rewrite Hnone. by destruct resume. }
  assert (working resume (store s1) (given w tickers) = given w tickers)
    as Hwk1.
  { unfold working, loaded. simpl. rewrite Hnone. destruct resume; [|done].
    simpl. apply filter_all. intros x. apply not_elem_of_empty. }
  assert (successful_tickers (resumed resume s1) = []
          ∧ failed_tickers (resumed resume s1) = []) as [Hs0 Hf0].
  { unfold resumed, loaded. simpl. rewrite Hnone. by destruct resume. }
  destruct (run_processed w cfg tickers resume s1 HN) as [_ Hall];
    [rewrite Hst0; done|].
  fold r1 evs1 in Hall. specialize (Hall Ho).
  rewrite Hst0, Hwk1, Z.mul_0_l in Hall.
  change ((marks evs1).*1 = given w tickers) in Hall.
  destruct (run_completed w cfg tickers resume s1 Ho) as (Hs & _ & He & _).
  fold r1 evs1 in Hs, He.
  pose proof (st_prog _ _ _ Hs) as Hfile.
  destruct (resumed_frame resume s1) as (_ & Hstore & _).
  rewrite Hstore in Hfile. unfold last_write in Hfile.
  assert (working true (store s2) (given w tickers) = []
          ∧ 0 ≤ start_of true (store s2)) as [Hwk2 Hst2].
  { destruct (last (persisted evs1)) as [p|] eqn:Hlast.
    - apply last_persisted_split in Hlast as (pre & post & Hev & Hq).
      destruct (run_last_record w cfg tickers resume s1 pre p post Hev Hq)
        as (k & Hk & Hp & Hpost & Hok).
      fold r1 in Hok. specialize (Hok Ho).
      rewrite (proj2 (Z.ltb_ge _ _)) in Hpost by lia.
      apply prefix_nil_inv in Hpost.
      fold evs1 in Hev.
      rewrite Hev, marks_progress_split, Hpost, app_nil_r in Hall.
      rewrite Hs0, Hf0, Hst0 in Hp. simpl in Hp.
      split.
      + apply working_nothing_left. intros t Ht.
        unfold loaded. simpl. rewrite Hfile, Hp. simpl.
        rewrite <- Hall, <- marked_Permutation in Ht.
        by apply elem_of_app in Ht.
      + unfold start_of, loaded. simpl. rewrite Hfile, Hp. simpl. lia.
    - apply last_None in Hlast.
      assert (given w tickers = []) as Hg.
      { rewrite <- Hall. rewrite He in Hlast |- *.
        rewrite !persisted_app in Hlast.
        apply app_eq_nil in Hlast as [_ Hlast].
        apply app_eq_nil in Hlast as [Hlast _].
        unfold batches_events in Hlast |- *.
        destruct (range _ _) as [|i idxs]; [by destruct tickers|].
        cbn [loop_events] in Hlast.
        rewrite persisted_app, persisted_batch_events in Hlast. done. }
      split.
      + unfold working. rewrite Hg. done.
      + unfold start_of, loaded. simpl. rewrite Hfile. simpl.
        rewrite Hnone. done. }
  destruct (run_nothing_left tickers s2 HN Hwk2 Hst2)
    as (H1 & H2 & H3 & H4 & H5).
  split_and!; [done..|].
  intros ->. apply run_uninterrupted; [done|lia].
Qed.

End Restarts.

(** ** The artifacts of the tickers marked successful *)

Lemma new_events_app s s1 s2 :
  trace s `prefix_of` trace s1 → trace s1 `prefix_of` trace s2 →
  new_events s s2 = new_events s s1 ++ new_events s1 s2.
Proof.
  intros [k1 H1] [k2 H2]. unfold new_events.
  rewrite H2, H1, <- app_assoc, !drop_app_length.
  by rewrite app_assoc, drop_app_length.
Qed.

Lemma new_events_same s s' : trace s' = trace s → new_events s s' = [].
Proof. intros H. unfold new_events. rewrite H. apply drop_all. Qed.

Lemma new_events_add e s : new_events s (add_event e s) = [e].
Proof. unfold new_events. simpl. apply drop_app_length. Qed.

Section Artifacts.
Variable w : World.

Lemma artifacts_kept_refl s : artifacts_kept w s s.
Proof.
  split; [done..|]. intros t. rewrite new_events_same by done.
  by intros ?%elem_of_nil.
Qed.

Lemma artifacts_kept_trans s s1 s2 :
  artifacts_kept w s s1 → artifacts_kept w s1 s2 → artifacts_kept w s s2.
Proof.
  intros [T1 C1 J1 M1] [T2 C2 J2 M2]. split.
  - by etrans.
  - auto.
  - auto.
  - intros t. rewrite (new_events_app s s1 s2) by done.
    rewrite marked_app, elem_of_app. intros [Ht|Ht].
    + destruct (M1 t Ht). split; auto.
    + by apply M2.
Qed.

(** A step that adds no successful mark and leaves the artifacts. *)
Lemma artifacts_kept_quiet s s' :
  trace s `prefix_of` trace s' →
  marked true (new_events s s') = [] →
  historical (store s') = historical (store s) →
  fundamentals (store s') = fundamentals (store s) →
  artifacts_kept w s s'.
Proof.
  intros HT HM HH HF. split; [done| | |].
  - unfold has_csv. by rewrite HH.
  - unfold has_json. by rewrite HF.
  - intros t. rewrite HM. by intros ?%elem_of_nil.
Qed.

Lemma keeps_ret {A} (a : A) : keeps w (ret a).
Proof. intros s. apply artifacts_kept_refl. Qed.

Lemma keeps_raise {A} e : keeps w (@raise A e).
Proof. intros s. apply artifacts_kept_refl. Qed.

Lemma keeps_get : keeps w get.
Proof. intros s. apply artifacts_kept_refl. Qed.

Lemma keeps_bind {A B} (m : M A) (k : A → M B) :
  keeps w m → (∀ a, keeps w (k a)) → keeps w (bind m k).
Proof.
  intros Hm Hk s. unfold bind. specialize (Hm s).
  destruct (m s) as [[a|e] s1]; [|done].
  eapply artifacts_kept_trans; [exact Hm|apply Hk].
Qed.

(** The same, knowing something about what [m] returns. *)
Lemma keeps_bind_post {A B} (P : A → Prop) (m : M A) (k : A → M B) :
  keeps w m → (∀ s a s1, m s = (Ok a, s1) → P a) →
  (∀ a, P a → keeps w (k a)) → keeps w (bind m k).
Proof.
  intros Hm HP Hk s. unfold bind. specialize (Hm s). specialize (HP s).
  destruct (m s) as [[a|e] s1]; [|done].
  eapply artifacts_kept_trans; [exact Hm|]. apply Hk. by eapply HP.
Qed.

Lemma keeps_try {A} (body : M A) (handler : exn → M A) :
  keeps w body → (∀ e, keeps w (handler e)) → keeps w (try_except body handler).
Proof.
  intros Hb Hh s. unfold try_except. specialize (Hb s).
  destruct (body s) as [[a|e] s1]; [done|].
  destruct (is_Exception e); [|done].
  eapply artifacts_kept_trans; [exact Hb|apply Hh].
Qed.

Lemma keeps_for_each {A} (xs : list A) (body : A → M unit) :
  (∀ x, x ∈ xs → keeps w (body x)) → keeps w (for_each xs body).
Proof.
  induction xs as [|x xs IH]; intros H; [apply keeps_ret|].
  cbn [for_each]. apply keeps_bind.
  - apply H. by left.
  - intros _. apply IH. intros y Hy. apply H. by right.
Qed.

Lemma keeps_tick : keeps w tick.
Proof.
  intros s. unfold tick. destruct (fuse s) as [[|n]|];
    try apply artifacts_kept_refl.
  simpl. apply artifacts_kept_quiet; try done.
  by rewrite new_events_same.
Qed.

Lemma keeps_log e : marked true [e] = [] → keeps w (log e).
Proof.
  intros He s. apply artifacts_kept_quiet; try done.
  - by apply prefix_app_r.
  - unfold log, modify. simpl. by rewrite new_events_add.
Qed.

(** An update that touches neither the trace nor the artifacts. *)
Lemma keeps_modify (f : State → State) :
  (∀ s, trace (f s) = trace s
        ∧ historical (store (f s)) = historical (store s)
        ∧ fundamentals (store (f s)) = fundamentals (store s)) →
  keeps w (modify f).
Proof.
  intros H s. destruct (H s) as (HT & HH & HF).
  apply artifacts_kept_quiet; simpl; [by rewrite HT| |done..].
  by rewrite new_events_same.
Qed.

Lemma keeps_write_historical t d :
  df_empty d = false →
  keeps w (modify (λ s, set_store (write_historical t d (store s)) s)).
Proof.
  intros Hd s. split; simpl.
  - done.
  - intros t' (d' & H1 & H2). unfold has_csv. simpl.
    destruct (decide (t' = t)) as [->|Hne].
    + exists d. by rewrite lookup_insert_eq.
    + exists d'. by rewrite lookup_insert_ne.
  - done.
  - intros t'. rewrite new_events_same by done. by intros ?%elem_of_nil.
Qed.

Lemma keeps_write_fundamentals t f :
  dict_get "ticker" f = Some (Some t) →
  keeps w (modify (λ s, set_store (write_fundamentals t f (store s)) s)).
Proof.
  intros Hf s. split; simpl.
  - done.
  - done.
  - intros t' (f' & H1 & H2). unfold has_json. simpl.
    destruct (decide (t' = t)) as [->|Hne].
    + exists f. by rewrite lookup_insert_eq.
    + exists f'. by rewrite lookup_insert_ne.
  - intros t'. rewrite new_events_same by done. by intros ?%elem_of_nil.
Qed.

Lemma keeps_download_batch_historical tickers sd ed :
  keeps w (download_batch_historical w tickers sd ed).
Proof.
  unfold download_batch_historical.
  apply keeps_try; [|intros _; apply keeps_ret].
  apply keeps_bind; [apply keeps_tick|intros _].
  apply keeps_bind; [by apply keeps_log|intros _].
  destruct (yf_download w tickers sd ed); [apply keeps_ret|apply keeps_raise].
Qed.

Lemma keeps_download_fundamentals t : keeps w (download_fundamentals w t).
Proof.
  unfold download_fundamentals.
  apply keeps_try; [|intros _; apply keeps_ret].
  apply keeps_bind; [apply keeps_tick|intros _].
  apply keeps_bind; [by apply keeps_log|intros _].
  destruct (yf_info w t); [apply keeps_ret|apply keeps_raise].
Qed.

Lemma keeps_save_historical_data t d : keeps w (save_historical_data w t d).
Proof.
  unfold save_historical_data.
  destruct (df_empty d) eqn:Hd; [apply keeps_ret|].
  apply keeps_bind; [apply keeps_tick|intros _].
  apply keeps_bind; [by apply keeps_log|intros _].
  destruct (to_csv_ok w t); [by apply keeps_write_historical|apply keeps_raise].
Qed.

Lemma keeps_save_fundamentals t info :
  keeps w (save_fundamentals w (extract_metrics w t info)).
Proof.
  unfold save_fundamentals. cbn.
  apply keeps_bind; [apply keeps_tick|intros _].
  apply keeps_bind; [by apply keeps_log|intros _].
  destruct (json_dump_ok w t); [by apply keeps_write_fundamentals|].
  apply keeps_raise.
Qed.

Lemma keeps_mark_failed t : keeps w (mark_failed t).
Proof.
  unfold mark_failed.
  apply keeps_bind; [by apply keeps_modify|intros _]. by apply keeps_log.
Qed.

Lemma keeps_save_progress batch_index : keeps w (save_progress w batch_index).
Proof.
  unfold save_progress.
  apply keeps_bind; [apply keeps_get|intros s0].
  apply keeps_bind; [apply keeps_tick|intros _].
  apply keeps_bind; [by apply keeps_log|intros _].
  by apply keeps_modify.
Qed.

Lemma keeps_sleep d : keeps w (sleep d).
Proof.
  unfold sleep. apply keeps_bind; [apply keeps_tick|intros _].
  by apply keeps_log.
Qed.

End Artifacts.

Section ArtifactsOfARun.
Variable w : World.
Variable cfg : Config.

Lemma kept_bind {A B} s0 (m : M A) (k : A → M B) s :
  (∀ a s1, m s = (Ok a, s1) → artifacts_kept w s0 (k a s1).2) →
  (∀ e s1, m s = (Err e, s1) → artifacts_kept w s0 s1) →
  artifacts_kept w s0 (bind m k s).2.
Proof.
  intros H1 H2. unfold bind. destruct (m s) as [[a|e] s1]; eauto.
Qed.

Lemma kept_try {A} s0 (body : M A) (handler : exn → M A) s :
  artifacts_kept w s0 (body s).2 → (∀ e, keeps w (handler e)) →
  artifacts_kept w s0 (try_except body handler s).2.
Proof.
  intros Hb Hh. unfold try_except.
  destruct (body s) as [[a|e] s1]; [done|].
  destruct (is_Exception e); [|done].
  eapply artifacts_kept_trans; [exact Hb|apply Hh].
Qed.

Lemma kept_of {A} (m : M A) s o s1 :
  keeps w m → m s = (o, s1) → artifacts_kept w s s1.
Proof. intros H Hm. specialize (H s). by rewrite Hm in H. Qed.

Lemma save_historical_data_post t d s s1 :
  save_historical_data w t d s = (Ok tt, s1) → df_empty d = false →
  has_csv (store s1) t.
Proof.
  unfold save_historical_data, bind, log, modify, tick. intros H Hd.
  rewrite Hd in H. exists d. split; [|done].
  destruct (fuse s) as [[|n]|]; try discriminate;
    simpl in H; destruct (to_csv_ok w t); try discriminate;
    injection H as <-; simpl; apply lookup_insert_eq.
Qed.

Lemma save_fundamentals_post t info s s1 :
  save_fundamentals w (extract_metrics w t info) s = (Ok tt, s1) →
  has_json (store s1) t.
Proof.
  unfold save_fundamentals. cbn.
  unfold bind, log, modify, tick. intros H.
  exists (extract_metrics w t info). split; [|done].
  destruct (fuse s) as [[|n]|]; try discriminate;
    simpl in H; destruct (json_dump_ok w t); try discriminate;
    injection H as <-; simpl; apply lookup_insert_eq.
Qed.

Lemma mark_successful_kept s0 s t :
  artifacts_kept w s0 s → has_csv (store s) t →
  (is_Some (yf_info w t) → has_json (store s) t) →
  artifacts_kept w s0 (mark_successful t s).2.
Proof.
  intros [T C J M] Hc Hj. split; simpl.
  - etrans; [exact T|]. by apply prefix_app_r.
  - done.
  - done.
  - intros t'.
    rewrite (new_events_app s0 s) by first [done|by apply prefix_app_r].
    rewrite marked_app, elem_of_app.
    intros [Ht|Ht]; [by apply M|].
    unfold new_events in Ht. simpl in Ht. rewrite drop_app_length in Ht.
    apply list_elem_of_singleton in Ht as ->. done.
Qed.

Lemma keeps_collect_ticker hist t :
  (∀ d, hist !! t = Some d → df_empty d = false) →
  keeps w (collect_ticker w hist t).
Proof.
  intros Hne s. unfold collect_ticker.
  apply kept_try; [|intros _; apply keeps_mark_failed].
  destruct (hist !! t) as [d|] eqn:Hd; [|apply keeps_mark_failed].
  specialize (Hne d eq_refl).
  apply kept_bind.
  2:{ intros e s1 H1. eapply kept_of; [|exact H1].
      apply keeps_save_historical_data. }
  intros [] s1 H1.
  pose proof (kept_of _ _ _ _ (keeps_save_historical_data w t d) H1) as K1.
  pose proof (save_historical_data_post _ _ _ _ H1 Hne) as Hc1.
  apply kept_bind.
  2:{ intros e s2 H2. eapply artifacts_kept_trans; [exact K1|].
      eapply kept_of; [|exact H2]. apply keeps_download_fundamentals. }
  intros f s2 H2.
  pose proof (kept_of _ _ _ _ (keeps_download_fundamentals w t) H2) as K2.
  assert (f = fundamentals_of w t) as ->.
  { apply download_fundamentals_inv in H2 as [[[= ->] _]|[[=] _]]. done. }
  pose proof (artifacts_kept_trans w _ _ _ K1 K2) as K12.
  pose proof (ak_csv _ _ _ K2 t Hc1) as Hc2.
  unfold fundamentals_of. destruct (yf_info w t) as [info|] eqn:Hinfo.
  - change (dict_truthy (extract_metrics w t info)) with true. cbv iota.
    apply kept_bind.
    2:{ intros e s3 H3. eapply artifacts_kept_trans; [exact K12|].
        eapply kept_of; [|exact H3]. apply keeps_save_fundamentals. }
    intros [] s3 H3.
    pose proof (kept_of _ _ _ _ (keeps_save_fundamentals w t info) H3) as K3.
    apply mark_successful_kept.
    + by eapply artifacts_kept_trans.
    + by apply (ak_csv _ _ _ K3).
    + intros _. by eapply save_fundamentals_post.
  - change (dict_truthy []) with false. cbv iota. apply kept_bind.
    2:{ intros e s3 H3. unfold ret in H3. discriminate. }
    intros [] s3 H3. unfold ret in H3. injection H3 as <-.
    apply mark_successful_kept; [done..|].
    intros [? Hi]. rewrite Hinfo in Hi. discriminate.
Qed.

Lemma keeps_collect_batch tickers total sd ed idx :
  keeps w (collect_batch w cfg tickers total sd ed idx).
Proof.
  unfold collect_batch.
  apply (keeps_bind_post w
           (λ hist : gmap string DataFrame,
              ∀ t d, hist !! t = Some d → df_empty d = false)).
  - apply keeps_download_batch_historical.
  - intros s hist s1 H t d Ht.
    apply download_batch_historical_inv in H as [[[= ->] _]|[[=] _]].
    by apply fetched_nonempty in Ht as [_ Ht].
  - intros hist Hne.
    apply keeps_bind.
    { apply keeps_for_each. intros t _. apply keeps_collect_ticker.
      apply Hne. }
    intros _. apply keeps_bind; [apply keeps_save_progress|intros _].
    destruct (_ <? _); [apply keeps_sleep|apply keeps_ret].
Qed.

Lemma keeps_collect_all_data tickers resume :
  keeps w (collect_all_data w cfg tickers resume).
Proof.
  unfold collect_all_data.
  apply keeps_bind.
  { destruct tickers; [apply keeps_ret|].
    unfold get_all_tickers.
    apply keeps_bind; [apply keeps_tick|intros _].
    apply keeps_bind; [by apply keeps_log|intros _]. apply keeps_ret. }
  intros l. apply keeps_bind.
  { destruct resume; [|apply keeps_ret].
    unfold resume_from_progress, load_progress.
    apply keeps_bind.
    { apply keeps_bind; [apply keeps_get|intros s0].
      destruct (progress_file (store s0)); apply keeps_ret. }
    intros p. apply keeps_bind; [by apply keeps_modify|intros _].
    apply keeps_bind; [by apply keeps_modify|intros _].
    apply keeps_bind; [apply keeps_get|intros s0]. apply keeps_ret. }
  intros plan. apply keeps_bind.
  { unfold floordiv. destruct (_ =? _); [apply keeps_raise|apply keeps_ret]. }
  intros total. apply keeps_bind.
  { apply keeps_for_each. intros i _. apply keeps_collect_batch. }
  intros _. apply keeps_bind; [apply keeps_get|intros s0].
  apply keeps_bind; [apply keeps_tick|intros _].
  apply keeps_bind; [by apply keeps_log|intros _].
  by apply keeps_modify.
Qed.

(** X7: however a run ends, every ticker it has appended to the
    successful list has a non-empty CSV under [historical/] at the end
    and, when the provider has fundamentals for it, a JSON under
    [fundamentals/] whose ticker field names it; and no ticker that had
    such an artifact before the run is without one after it. *)
Theorem successful_ticker_has_its_artifacts tickers resume s :
  let r := collect_all_data w cfg tickers resume s in
  (∀ t, t ∈ marked true (new_events s r.2) →
        has_csv (store r.2) t
        ∧ (is_Some (yf_info w t) → has_json (store r.2) t))
  ∧ (∀ t, has_csv (store s) t → has_csv (store r.2) t)
  ∧ (∀ t, has_json (store s) t → has_json (store r.2) t).
Proof.
  intros r. destruct (keeps_collect_all_data tickers resume s) as [_ C J M].
  done.
Qed.

End ArtifactsOfARun.

(** ** The bulk fetch, and batch sizes that are not positive *)

Section Edges.
Variable w : World.
Variable cfg : Config.

(** X1: [download_batch_historical] never raises an exception of its
    own: it returns a mapping, or the interrupt passes through before
    anything is done. The mapping has an entry for a ticker exactly
    when the provider answered, the ticker is in the request and its
    frame is not empty: the whole frame for a request of one ticker,
    the ticker's group otherwise. A failed call gives the empty
    mapping. *)
Theorem download_batch_historical_result tickers sd ed s :
  let r := download_batch_historical w tickers sd ed s in
  (∀ e, r.1 = Err e → e = KeyboardInterrupt ∧ r.2 = s)
  ∧ (∀ m, r.1 = Ok m →
       ∀ t d, m !! t = Some d ↔
         ∃ data, yf_download w tickers sd ed = Some data
                 ∧ t ∈ tickers ∧ df_empty d = false
                 ∧ (if len tickers =? 1 then d = whole data
                    else groups data !! t = Some d)).
Proof.
  intros r.
  destruct (download_batch_historical w tickers sd ed s) as [o s'] eqn:Hr.
  apply download_batch_historical_inv in Hr as [[-> _]|(-> & -> & _)];
    subst r; simpl.
  - split; [done|]. intros m [= <-] t d. unfold fetched.
    destruct (yf_download w tickers sd ed) as [data|].
    + rewrite parse_download_spec. split; [by exists data|].
      by intros (data' & [= <-] & H).
    + rewrite lookup_empty. split; [done|by intros (? & [=] & _)].
  - split; [by intros e [= <-]|done].
Qed.

Lemma store_eq (a b : Store) :
  historical a = historical b → fundamentals a = fundamentals b →
  progress_file a = progress_file b → summary_file a = summary_file b →
  a = b.
Proof. destruct a, b. simpl. by intros -> -> -> ->. Qed.




(** With a negative batch size every batch of a run that starts at a
    batch index that is not negative is empty. *)
Lemma negative_batch_empty (tickers : list string) i :
  batch_size cfg < 0 → 0 ≤ i < total_of cfg tickers →
  batch_of cfg tickers i = [].
Proof.
  intros HN [Hi HT]. unfold total_of in HT.
  unfold batch_of, py_slice, slice_bound.
  set (L := len tickers) in *. set (N := batch_size cfg) in *.
  assert (0 ≤ L) by (unfold L, len; lia).
  assert (L ≤ 1) as HL.
  { pose proof (Z.div_mod (L + N - 1) N ltac:(lia)) as Hdm.
    pose proof (Z.mod_neg_bound (L + N - 1) N HN) as Hb. nia. }
  assert (i * N ≤ 0) by nia.
  assert (i = 0 ∨ i * N ≤ N) as Hcase by nia.
  replace (Z.to_nat _) with 0%nat; [done|].
  destruct (Z.ltb_spec (i * N) 0), (Z.ltb_spec (Z.min (i * N + N) L) 0); lia.
Qed.

(** X9: with a negative batch size, a run that starts at a batch index
    that is not negative appends no ticker and asks the provider for
    empty batches only; unless it is interrupted it completes all the
    same. *)
Theorem negative_batch_size_processes_nothing tickers resume s :
  batch_size cfg < 0 → 0 ≤ start_of resume (store s) →
  let r := collect_all_data w cfg tickers resume s in
  let evs := new_events s r.2 in
  marks evs = []
  ∧ Forall (λ batch, batch = []) (downloads evs)
  ∧ (fuse s = None → r.1 = Ok tt).
Proof.
  intros HN Hst r evs.
  set (wk := working resume (store s) (given w tickers)).
  assert (∀ i, i ∈ range (start_of resume (store s)) (total_of cfg wk) →
               batch_of cfg wk i = []) as Hempty.
  { intros i Hi. apply negative_batch_empty; [done|].
    unfold range in Hi. apply elem_of_seqZ in Hi. lia. }
  destruct (marks_run_prefix w cfg tickers resume s) as [Hm _].
  destruct (downloads_run_prefix w cfg tickers resume s) as [Hd _].
  fold r evs wk in Hm, Hd. split_and!.
  - apply prefix_nil_inv. etrans; [exact Hm|].
    revert Hempty. generalize (range (start_of resume (store s))
                                 (total_of cfg wk)).
    intros idxs Hempty. induction idxs as [|i idxs IH]; [done|].
    cbn [flat_map]. unfold batch_marks at 1.
    rewrite Hempty by (by left). cbn [map app].
    apply IH. intros j Hj. apply Hempty. by right.
  - destruct Hd as [k Hk].
    assert (Forall (λ batch, batch = [])
              (map (batch_of cfg wk)
                 (range (start_of resume (store s)) (total_of cfg wk))))
      as Hall.
    { apply Forall_forall. intros b Hb.
      change (map ?f ?l) with (f <$> l) in Hb.
      apply list_elem_of_fmap in Hb as (i & -> & Hi). by apply Hempty. }
    rewrite Hk in Hall. by apply Forall_app in Hall as [Hall _].
  - intros Hf. apply run_uninterrupted; [done|lia].
Qed.

End Edges.


Lemma negative_batch_size_processes_nothing_witness :
  batch_size {| batch_size := -4; years_of_history := 5;
                delay_between_batches := 2000 |} < 0
  ∧ 0 ≤ start_of true (store (new_collector empty_store None))
  ∧ marks (new_events (new_collector empty_store None)
             (collect_all_data world_even
                {| batch_size := -4; years_of_history := 5;
                   delay_between_batches := 2000 |}
                (Some ten_tickers) true (new_collector empty_store None)).2)
    = [].
Proof.
  assert (batch_size {| batch_size := -4; years_of_history := 5;
                        delay_between_batches := 2000 |} < 0) as H
    by reflexivity.
  assert (0 ≤ start_of true (store (new_collector empty_store None))) as H'
    by (vm_compute; discriminate).
  split_and!; [exact H|exact H'|].
  exact (proj1 (negative_batch_size_processes_nothing world_even
                  {| batch_size := -4; years_of_history := 5;
                     delay_between_batches := 2000 |}
                  (Some ten_tickers) true (new_collector empty_store None)
                  H H')).
Defined.

(** ** Fundamentals, the two savers and the progress file *)

Section Savers.
Variable w : World.

(** X10: [download_fundamentals] never raises an exception of its own.
    When the provider has no answer it returns the empty dict;
    otherwise a dict of 31 entries whose [ticker] is the ticker asked
    for, whose [timestamp] is the time of the call, and in which every
    metric is what [info.get] gives: [None] for a key that the answer
    lacks. *)
Theorem download_fundamentals_result t s :
  let r := download_fundamentals w t s in
  (∀ e, r.1 = Err e → e = KeyboardInterrupt ∧ r.2 = s)
  ∧ (∀ f, r.1 = Ok f →
       match yf_info w t with
       | None => f = []
       | Some info =>
           dict_get "ticker" f = Some (Some t)
           ∧ dict_get "timestamp" f = Some (Some (now_iso w))
           ∧ len f = 31
           ∧ ∀ k k', (k, k') ∈ info_keys →
                     dict_get k f = Some (info_get k' info)
       end).
Proof.
  intros r.
  destruct (download_fundamentals w t s) as [o s'] eqn:Hr.
  apply download_fundamentals_inv in Hr as [[-> _]|(-> & -> & _)];
    subst r; simpl.
  - split; [done|]. intros f [= <-]. unfold fundamentals_of.
    destruct (yf_info w t) as [info|]; [|done].
    split_and!; [done..|].
    intros k k' Hin. unfold info_keys in Hin.
    repeat (apply elem_of_cons in Hin as [[= -> ->]|Hin]; [reflexivity|]).
    by apply elem_of_nil in Hin.
  - split; [by intros e [= <-]|done].
Qed.

(** X11: [save_fundamentals] writes at most one file, the JSON named by
    the [ticker] entry of the dict ([None.json] when that entry is
    [None]), and touches nothing else; for an empty dict or a dict
    without a [ticker] entry it does nothing at all. *)
Theorem save_fundamentals_writes_one_file (f : Dict) s :
  let r := save_fundamentals w f s in
  historical (store r.2) = historical (store s)
  ∧ progress_file (store r.2) = progress_file (store s)
  ∧ summary_file (store r.2) = summary_file (store s)
  ∧ successful_tickers r.2 = successful_tickers s
  ∧ failed_tickers r.2 = failed_tickers s
  ∧ (∀ t, fundamentals (store r.2) !! t ≠ fundamentals (store s) !! t →
          ∃ v, dict_get "ticker" f = Some v ∧ t = default "None" v
               ∧ json_dump_ok w t = true ∧ r.1 = Ok tt
               ∧ fundamentals (store r.2) !! t = Some f)
  ∧ (f = [] ∨ dict_get "ticker" f = None → r = (Ok tt, s)).
Proof.
  intros r. subst r. unfold save_fundamentals.
  destruct (dict_truthy f) eqn:Ht; [|by destruct f].
  destruct (dict_get "ticker" f) as [v|] eqn:Hv.
  2:{ split_and!; try done. }
  unfold bind, tick, log, modify, raise.
  set (name := default "None" v).
  destruct (fuse s) as [[|n]|]; simpl;
    try (split_and!; [done..| |by intros [->|]]; done);
    (destruct (json_dump_ok w name) eqn:Hok; simpl;
     (split_and!; [done..| |by intros [->|]]);
     intros t Hne; [|done];
     destruct (decide (t = name)) as [->|Hn];
     [exists v; by rewrite lookup_insert_eq
     |by rewrite lookup_insert_ne in Hne]).
Qed.

(** X12: [save_historical_data] does nothing at all for an empty frame;
    for any other frame it writes the CSV of its ticker and no other
    file, or fails leaving every file as it was. *)
Theorem save_historical_data_writes_one_file t (d : DataFrame) s :
  let r := save_historical_data w t d s in
  fundamentals (store r.2) = fundamentals (store s)
  ∧ progress_file (store r.2) = progress_file (store s)
  ∧ summary_file (store r.2) = summary_file (store s)
  ∧ (∀ t', t' ≠ t →
           historical (store r.2) !! t' = historical (store s) !! t')
  ∧ (r.1 = Ok tt ∧ df_empty d = false →
     historical (store r.2) !! t = Some d)
  ∧ (r.1 ≠ Ok tt → historical (store r.2) = historical (store s))
  ∧ (df_empty d = true → r = (Ok tt, s)).
Proof.
  intros r. subst r. unfold save_historical_data.
  destruct (df_empty d) eqn:Hd.
  { split_and!; try done. by intros [_ ?]. }
  unfold bind, tick, log, modify, raise.
  destruct (fuse s) as [[|n]|]; simpl;
    try (split_and!; try done; by intros [? _]);
    (destruct (to_csv_ok w t) eqn:Hok; simpl;
     [split_and!; try done;
      [by intros t' Hne; rewrite lookup_insert_ne
      |by intros _; rewrite lookup_insert_eq]
     |split_and!; try done; by intros [? _]]).
Qed.

(** X13: what [save_progress] writes is what a new process reads back:
    [load_progress] returns the two lists and the batch index that
    were saved, and the resume block restores the two lists, starts at
    that index and keeps of a ticker list exactly the tickers that are
    in neither list. *)
Theorem saved_progress_is_read_back batch_index s f tickers :
  (save_progress w batch_index s).1 = Ok tt →
  let s1 := (save_progress w batch_index s).2 in
  let s2 := new_collector (store s1) f in
  load_progress s2
  = (Ok (progress_record w (successful_tickers s) (failed_tickers s)
           batch_index), s2)
  ∧ ∃ s3 rest,
      resume_from_progress tickers s2 = (Ok (batch_index, rest), s3)
      ∧ successful_tickers s3 = successful_tickers s
      ∧ failed_tickers s3 = failed_tickers s
      ∧ store s3 = store s1
      ∧ ∀ t, t ∈ rest ↔
             t ∈ tickers ∧ (t ∉ successful_tickers s)
             ∧ (t ∉ failed_tickers s).
Proof.
  intros Hok s1 s2.
  assert (progress_file (store s1)
          = Some (progress_record w (successful_tickers s)
                    (failed_tickers s) batch_index)) as Hfile.
  { subst s1. revert Hok.
    unfold save_progress, bind, get, tick, log, modify.
    destruct (fuse s) as [[|n]|]; simpl; done. }
  split.
  - unfold load_progress, bind, get. simpl. by rewrite Hfile.
  - rewrite resume_from_progress_eq.
    exists (resumed true s2), (working true (store s2) tickers).
    split_and!.
    + do 3 f_equal. unfold start_of, loaded. simpl. by rewrite Hfile.
    + unfold resumed, loaded. simpl. by rewrite Hfile.
    + unfold resumed, loaded. simpl. by rewrite Hfile.
    + done.
    + intros t. rewrite working_resume_spec. unfold loaded. simpl.
      by rewrite Hfile.
Qed.

End Savers.

Lemma saved_progress_is_read_back_witness :
  (save_progress world_even 3 (new_collector empty_store None)).1 = Ok tt
  ∧ load_progress
      (new_collector
         (store (save_progress world_even 3
                   (new_collector empty_store None)).2) None)
    = (Ok (progress_record world_even
             (successful_tickers (new_collector empty_store None))
             (failed_tickers (new_collector empty_store None)) 3),
       new_collector
         (store (save_progress world_even 3
                   (new_collector empty_store None)).2) None).
Proof.
  assert ((save_progress world_even 3 (new_collector empty_store None)).1
          = Ok tt) as H by reflexivity.
  split; [exact H|].
  exact (proj1 (saved_progress_is_read_back world_even 3
                  (new_collector empty_store None) None ten_tickers H)).
Defined.

(** ** Ticker discovery *)

Lemma string_leb_trans s1 : ∀ s2 s3,
  String.leb s1 s2 = true → String.leb s2 s3 = true →
  String.leb s1 s3 = true.
Proof.
  unfold String.leb.
  induction s1 as [|a s1 IH]; intros [|b s2] [|c s3]; simpl; try done.
  unfold Ascii.compare.
  destruct (N.compare_spec (N_of_ascii a) (N_of_ascii b)),
    (N.compare_spec (N_of_ascii b) (N_of_ascii c)),
    (N.compare_spec (N_of_ascii a) (N_of_ascii c));
    try done; try lia.
  apply IH.
Qed.

Lemma insert_sorted_Permutation x l : insert_sorted x l ≡ₚ x :: l.
Proof.
  induction l as [|y l IH]; [done|]. simpl.
  destruct (String.leb x y); [done|]. rewrite IH. apply Permutation_swap.
Qed.

Lemma sorted_Permutation l : sorted l ≡ₚ l.
Proof.
  induction l as [|x l IH]; [done|]. unfold sorted in *. simpl.
  by rewrite insert_sorted_Permutation, IH.
Qed.

Lemma insert_sorted_Sorted x l :
  Sorted (λ a b, String.leb a b = true) l →
  Sorted (λ a b, String.leb a b = true) (insert_sorted x l).
Proof.
  induction l as [|y l IH]; intros Hl; simpl.
  - by repeat constructor.
  - destruct (String.leb x y) eqn:Hxy.
    + constructor; [done|]. by constructor.
    + apply Sorted_inv in Hl as [Hl Hy].
      assert (String.leb y x = true) as Hyx
        by (destruct (String.leb_total x y); congruence).
      constructor; [by apply IH|].
      destruct l as [|z l]; simpl; [by constructor|].
      destruct (String.leb x z); constructor; [done|].
      by inversion Hy.
Qed.

Lemma sorted_Sorted l : Sorted (λ a b, String.leb a b = true) (sorted l).
Proof.
  induction l as [|x l IH]; [constructor|].
  unfold sorted in *. simpl. by apply insert_sorted_Sorted.
Qed.

(** [sorted] does not depend on the order of its argument. *)
Lemma sorted_unique l1 l2 : l1 ≡ₚ l2 → sorted l1 = sorted l2.
Proof.
  intros H.
  assert (Transitive (λ a b : string, String.leb a b = true)) as HT
    by (intros a b c; apply string_leb_trans).
  assert (AntiSymm eq (λ a b : string, String.leb a b = true)) as HA
    by (intros a b; apply String.leb_antisym).
  apply (Sorted_unique (λ a b, String.leb a b = true));
    [apply sorted_Sorted..|by rewrite !sorted_Permutation].
Qed.

Lemma symbols_spec (column : list (option string)) t :
  t ∈ exchanges.symbols column ↔ Some t ∈ column.
Proof.
  unfold exchanges.symbols. rewrite list_elem_of_omap. split.
  - intros (y & Hy & Hid). unfold id in Hid. by subst y.
  - intros H. by exists (Some t).
Qed.

Lemma without_footer_spec (l : list string) t :
  t ∈ exchanges.without_footer l ↔ t ∈ l ∧ t ≠ "File Creation Time".
Proof.
  unfold exchanges.without_footer. rewrite list_elem_of_filter. tauto.
Qed.

Lemma contains_spec c t :
  exchanges.contains c t = true ↔ c ∈ list_ascii_of_string t.
Proof.
  induction t as [|c' t IH]; simpl.
  - split; [done|by intros ?%elem_of_nil].
  - rewrite orb_true_iff, IH, elem_of_cons, Ascii.eqb_eq. done.
Qed.

Lemma clean_spec t :
  exchanges.clean t = true ↔
  t ≠ "" ∧ ∀ c, c ∈ ["$"; "^"; "~"]%char → c ∉ list_ascii_of_string t.
Proof.
  unfold exchanges.clean. cbn [existsb].
  rewrite andb_true_iff, !negb_true_iff, !orb_false_iff.
  rewrite String.eqb_neq.
  assert (∀ c, exchanges.contains c t = false ↔ c ∉ list_ascii_of_string t)
    as Hc.
  { intros c. rewrite <- contains_spec. by destruct (exchanges.contains c t). }
  rewrite !Hc. split.
  - intros (Hne & H1 & H2 & H3 & _). split; [done|].
    intros c Hin. repeat (apply elem_of_cons in Hin as [->|Hin]; [done|]).
    by apply elem_of_nil in Hin.
  - intros (Hne & H). split; [done|].
    split_and!; [apply H; set_solver..|done].
Qed.

(** X14: the list [get_all_tickers] returns is the list it writes to
    [all_tickers.json]. It is in ascending order without duplicates, and
    holds exactly the symbols of the listings that are not empty and
    contain none of [$], [^] and [~]. The NASDAQ symbols are those of
    the GitHub file when it can be read and otherwise those of the FTP
    file, the others those of the FTP file of the other exchanges; the
    line [File Creation Time] of an FTP file is not a symbol, and a file
    that cannot be read contributes nothing. *)
Theorem get_all_tickers_spec (src : exchanges.Listings) :
  let r := exchanges.get_all_tickers src in
  r.1 = r.2
  ∧ Sorted (λ a b, String.leb a b = true) r.2
  ∧ NoDup r.2
  ∧ ∀ t, t ∈ r.2 ↔
      (match exchanges.nasdaq_github src with
       | Some column => Some t ∈ column
       | None =>
           match exchanges.nasdaq_ftp src with
           | Some column => Some t ∈ column ∧ t ≠ "File Creation Time"
           | None => False
           end
       end
       ∨ match exchanges.other_listed src with
         | Some column => Some t ∈ column ∧ t ≠ "File Creation Time"
         | None => False
         end)
      ∧ t ≠ ""
      ∧ ∀ c, c ∈ ["$"; "^"; "~"]%char → c ∉ list_ascii_of_string t.
Proof.
  intros r. subst r. unfold exchanges.get_all_tickers. cbn [fst snd].
  split_and!; [done|apply sorted_Sorted| |].
  - rewrite sorted_Permutation. apply NoDup_filter.
    unfold exchanges.distinct. apply NoDup_elements.
  - intros t. rewrite sorted_Permutation, list_elem_of_filter, clean_spec.
    unfold exchanges.distinct.
    rewrite elem_of_elements, elem_of_list_to_set, elem_of_app.
    unfold exchanges.nasdaq_tickers, exchanges.nyse_tickers.
    assert (t ∈ [] ↔ False) as Hnil
      by (split; [by intros ?%elem_of_nil|done]).
    destruct (exchanges.nasdaq_github src), (exchanges.nasdaq_ftp src),
      (exchanges.other_listed src);
      rewrite ?without_footer_spec, ?symbols_spec, ?Hnil; tauto.
Qed.

(** X15: the list [get_all_tickers] returns does not depend on the
    order in which [list(set(...))] enumerates the distinct symbols:
    sorting the clean symbols of any enumeration gives it. Two groups
    of listings with the same symbols therefore give the same list. *)
Theorem get_all_tickers_any_enumeration (src : exchanges.Listings)
    (enumeration : list string) :
  enumeration
  ≡ₚ exchanges.distinct
       (exchanges.nasdaq_tickers src ++ exchanges.nyse_tickers src) →
  sorted (filter (λ t, exchanges.clean t = true) enumeration)
  = (exchanges.get_all_tickers src).2.
Proof.
  intros H. unfold exchanges.get_all_tickers. cbn [snd].
  apply sorted_unique. by rewrite H.
Qed.

Lemma get_all_tickers_any_enumeration_witness :
  reverse
    (exchanges.distinct
       (exchanges.nasdaq_tickers
          {| exchanges.nasdaq_github := None;
             exchanges.nasdaq_ftp :=
               Some [Some "MSFT"; None; Some "AAPL";
                     Some "File Creation Time"];
             exchanges.other_listed :=
               Some [Some "BRK$A"; Some "JPM"; Some "MSFT"] |}
        ++ exchanges.nyse_tickers
             {| exchanges.nasdaq_github := None;
                exchanges.nasdaq_ftp :=
                  Some [Some "MSFT"; None; Some "AAPL";
                        Some "File Creation Time"];
                exchanges.other_listed :=
                  Some [Some "BRK$A"; Some "JPM"; Some "MSFT"] |}))
  ≡ₚ exchanges.distinct
       (exchanges.nasdaq_tickers
          {| exchanges.nasdaq_github := None;
             exchanges.nasdaq_ftp :=
               Some [Some "MSFT"; None; Some "AAPL";
                     Some "File Creation Time"];
             exchanges.other_listed :=
               Some [Some "BRK$A"; Some "JPM"; Some "MSFT"] |}
        ++ exchanges.nyse_tickers
             {| exchanges.nasdaq_github := None;
                exchanges.nasdaq_ftp :=
                  Some [Some "MSFT"; None; Some "AAPL";
                        Some "File Creation Time"];
                exchanges.other_listed :=
                  Some [Some "BRK$A"; Some "JPM"; Some "MSFT"] |})
  ∧ (exchanges.get_all_tickers
       {| exchanges.nasdaq_github := None;
          exchanges.nasdaq_ftp :=
            Some [Some "MSFT"; None; Some "AAPL";
                  Some "File Creation Time"];
          exchanges.other_listed :=
            Some [Some "BRK$A"; Some "JPM"; Some "MSFT"] |}).2
    = ["AAPL"; "JPM"; "MSFT"].
Proof.
  split; [apply reverse_Permutation|].
  rewrite <- (get_all_tickers_any_enumeration _ _
                (reverse_Permutation _)).
  vm_compute. reflexivity.
Defined.

(** ** The command lines *)

Lemma same_collector_refl s : same_collector s s.
Proof. by repeat split. Qed.

Lemma files_blind_ret {A} (a : A) : files_blind (ret a) (ret a).
Proof. by intros s s' H. Qed.

Lemma files_blind_raise {A} e : files_blind (@raise A e) (raise e).
Proof. by intros s s' H. Qed.

Lemma files_blind_bind {A B} (m m' : M A) (k k' : A → M B) :
  files_blind m m' → (∀ a, files_blind (k a) (k' a)) →
  files_blind (bind m k) (bind m' k').
Proof.
  intros Hm Hk s s' H. unfold bind. destruct (Hm s s' H) as [Ho Hs].
  destruct (m s) as [[a|e] s1], (m' s') as [[a'|e'] s1'];
    simpl in Ho; try discriminate.
  - injection Ho as <-. by apply Hk.
  - by injection Ho as <-.
Qed.

(** [s <- get ;; k s] *)
Lemma files_blind_get {B} (k k' : State → M B) :
  (∀ s s', same_collector s s' → files_blind (k s) (k' s')) →
  files_blind (bind get k) (bind get k').
Proof. intros Hk s s' H. unfold bind, get. by apply Hk. Qed.

Lemma files_blind_try {A} (body body' : M A) (h h' : exn → M A) :
  files_blind body body' → (∀ e, files_blind (h e) (h' e)) →
  files_blind (try_except body h) (try_except body' h').
Proof.
  intros Hb Hh s s' H. unfold try_except. destruct (Hb s s' H) as [Ho Hs].
  destruct (body s) as [[a|e] s1], (body' s') as [[a'|e'] s1'];
    simpl in Ho; try discriminate.
  - by injection Ho as <-.
  - injection Ho as <-. destruct (is_Exception e); [by apply Hh|done].
Qed.

Lemma files_blind_for_each {A} (xs : list A) (body body' : A → M unit) :
  (∀ x, files_blind (body x) (body' x)) →
  files_blind (for_each xs body) (for_each xs body').
Proof.
  intros H. induction xs as [|x xs IH]; [apply files_blind_ret|].
  cbn [for_each]. apply files_blind_bind; [apply H|done].
Qed.

Lemma files_blind_tick : files_blind tick tick.
Proof.
  intros s s' (H1 & H2 & H3 & H4). unfold tick. rewrite <- H4.
  destruct (fuse s) as [[|n]|] eqn:Hf; simpl; repeat split; simpl;
    congruence.
Qed.

Lemma files_blind_log e : files_blind (log e) (log e).
Proof.
  intros s s' (H1 & H2 & H3 & H4). unfold log, modify. simpl.
  repeat split; simpl; congruence.
Qed.

(** Writing a file. *)
Lemma files_blind_write (g g' : Store → Store) :
  files_blind (modify (λ s, set_store (g (store s)) s))
    (modify (λ s, set_store (g' (store s)) s)).
Proof.
  intros s s' (H1 & H2 & H3 & H4). unfold modify. simpl.
  repeat split; simpl; congruence.
Qed.

Lemma files_blind_append_successful t :
  files_blind (mark_successful t) (mark_successful t).
Proof.
  intros s s' (H1 & H2 & H3 & H4). unfold mark_successful, bind, log, modify.
  simpl. repeat split; simpl; congruence.
Qed.

Lemma files_blind_append_failed t :
  files_blind (mark_failed t) (mark_failed t).
Proof.
  intros s s' (H1 & H2 & H3 & H4). unfold mark_failed, bind, log, modify.
  simpl. repeat split; simpl; congruence.
Qed.

Section FilesBlind.
Variable w : World.
Variable cfg : Config.

Lemma files_blind_download_batch_historical tickers sd ed :
  files_blind (download_batch_historical w tickers sd ed)
    (download_batch_historical w tickers sd ed).
Proof.
  unfold download_batch_historical.
  apply files_blind_try; [|intros _; apply files_blind_ret].
  apply files_blind_bind; [apply files_blind_tick|intros _].
  apply files_blind_bind; [apply files_blind_log|intros _].
  destruct (yf_download w tickers sd ed);
    [apply files_blind_ret|apply files_blind_raise].
Qed.

Lemma files_blind_download_fundamentals t :
  files_blind (download_fundamentals w t) (download_fundamentals w t).
Proof.
  unfold download_fundamentals.
  apply files_blind_try; [|intros _; apply files_blind_ret].
  apply files_blind_bind; [apply files_blind_tick|intros _].
  apply files_blind_bind; [apply files_blind_log|intros _].
  destruct (yf_info w t); [apply files_blind_ret|apply files_blind_raise].
Qed.

Lemma files_blind_save_historical_data t d :
  files_blind (save_historical_data w t d) (save_historical_data w t d).
Proof.
  unfold save_historical_data.
  destruct (df_empty d); [apply files_blind_ret|].
  apply files_blind_bind; [apply files_blind_tick|intros _].
  apply files_blind_bind; [apply files_blind_log|intros _].
  destruct (to_csv_ok w t); [apply files_blind_write|apply files_blind_raise].
Qed.

Lemma files_blind_save_fundamentals f :
  files_blind (save_fundamentals w f) (save_fundamentals w f).
Proof.
  unfold save_fundamentals.
  destruct (dict_truthy f); [|apply files_blind_ret].
  destruct (dict_get "ticker" f) as [v|]; [|apply files_blind_ret].
  apply files_blind_bind; [apply files_blind_tick|intros _].
  apply files_blind_bind; [apply files_blind_log|intros _].
  destruct (json_dump_ok w _); [apply files_blind_write|].
  apply files_blind_raise.
Qed.

Lemma files_blind_save_progress i :
  files_blind (save_progress w i) (save_progress w i).
Proof.
  unfold save_progress. apply files_blind_get.
  intros s s' (H1 & H2 & H3 & H4). rewrite H1, H2.
  apply files_blind_bind; [apply files_blind_tick|intros _].
  apply files_blind_bind; [apply files_blind_log|intros _].
  apply files_blind_write.
Qed.

Lemma files_blind_collect_ticker hist t :
  files_blind (collect_ticker w hist t) (collect_ticker w hist t).
Proof.
  unfold collect_ticker.
  apply files_blind_try; [|intros _; apply files_blind_append_failed].
  destruct (hist !! t) as [d|]; [|apply files_blind_append_failed].
  apply files_blind_bind; [apply files_blind_save_historical_data|intros _].
  apply files_blind_bind; [apply files_blind_download_fundamentals|intros f].
  apply files_blind_bind; [|intros _; apply files_blind_append_successful].
  destruct (dict_truthy f);
    [apply files_blind_save_fundamentals|apply files_blind_ret].
Qed.

Lemma files_blind_collect_batch tickers total sd ed i :
  files_blind (collect_batch w cfg tickers total sd ed i)
    (collect_batch w cfg tickers total sd ed i).
Proof.
  unfold collect_batch.
  apply files_blind_bind;
    [apply files_blind_download_batch_historical|intros hist].
  apply files_blind_bind.
  { apply files_blind_for_each. intros t. apply files_blind_collect_ticker. }
  intros _. apply files_blind_bind; [apply files_blind_save_progress|intros _].
  destruct (_ <? _); [|apply files_blind_ret].
  unfold sleep. apply files_blind_bind; [apply files_blind_tick|intros _].
  apply files_blind_log.
Qed.

(** A run that does not resume reads none of the files. *)
Lemma files_blind_collect_all_data tickers :
  files_blind (collect_all_data w cfg tickers false)
    (collect_all_data w cfg tickers false).
Proof.
  unfold collect_all_data.
  apply files_blind_bind.
  { destruct tickers; [apply files_blind_ret|]. unfold get_all_tickers.
    apply files_blind_bind; [apply files_blind_tick|intros _].
    apply files_blind_bind; [apply files_blind_log|intros _].
    apply files_blind_ret. }
  intros l. apply files_blind_bind; [apply files_blind_ret|intros plan].
  apply files_blind_bind.
  { unfold floordiv.
    destruct (_ =? _); [apply files_blind_raise|apply files_blind_ret]. }
  intros total. apply files_blind_bind.
  { apply files_blind_for_each. intros i. apply files_blind_collect_batch. }
  intros _. apply files_blind_get.
  intros s s' (H1 & H2 & H3 & H4). rewrite H1, H2.
  apply files_blind_bind; [apply files_blind_tick|intros _].
  apply files_blind_bind; [apply files_blind_log|intros _].
  apply files_blind_write.
Qed.

End FilesBlind.

(** X16: with [--no-resume], [stock_data_collector.main] reads none of
    the files of the data directory, the progress file included: over
    any two data directories it ends the same way, after the same
    effects in the same order and with the same two lists, whether or
    not it is interrupted. In test mode it collects the ten test
    tickers whatever [--tickers] says. *)
Theorem no_resume_reads_no_file w (args : stock_data_collector.Args)
    (st st' : Store) f :
  stock_data_collector.opt_no_resume args = true →
  let r := stock_data_collector.main w args st f in
  let r' := stock_data_collector.main w args st' f in
  r.1 = r'.1 ∧ trace r.2 = trace r'.2
  ∧ successful_tickers r.2 = successful_tickers r'.2
  ∧ failed_tickers r.2 = failed_tickers r'.2
  ∧ (stock_data_collector.opt_test args = true →
     r = collect_all_data w (stock_data_collector.config args)
           (Some ten_tickers) false (new_collector st f)).
Proof.
  intros Hno r r'. subst r r'. unfold stock_data_collector.main.
  rewrite Hno. cbn [negb].
  destruct (files_blind_collect_all_data w (stock_data_collector.config args)
              (if stock_data_collector.opt_test args then Some ten_tickers
               else stock_data_collector.opt_tickers args)
              (new_collector st f) (new_collector st' f))
    as (Ho & H1 & H2 & H3 & _); [by repeat split|].
  split_and!; [done..|]. by intros ->.
Qed.


Lemma no_resume_reads_no_file_witness :
  stock_data_collector.opt_no_resume
    {| stock_data_collector.opt_batch_size := 4;
       stock_data_collector.opt_years := 5;
       stock_data_collector.opt_delay := 2000;
       stock_data_collector.opt_no_resume := true;
       stock_data_collector.opt_tickers := None;
       stock_data_collector.opt_test := true |} = true
  ∧ (stock_data_collector.main world_even
       {| stock_data_collector.opt_batch_size := 4;
          stock_data_collector.opt_years := 5;
          stock_data_collector.opt_delay := 2000;
          stock_data_collector.opt_no_resume := true;
          stock_data_collector.opt_tickers := None;
          stock_data_collector.opt_test := true |}
       empty_store None).1
    = (stock_data_collector.main world_even
         {| stock_data_collector.opt_batch_size := 4;
            stock_data_collector.opt_years := 5;
            stock_data_collector.opt_delay := 2000;
            stock_data_collector.opt_no_resume := true;
            stock_data_collector.opt_tickers := None;
            stock_data_collector.opt_test := true |}
         (store interrupted_run.2) None).1.
Proof.
  split; [reflexivity|].
  refine (proj1 (no_resume_reads_no_file world_even _ empty_store
                   (store interrupted_run.2) None _)).
  reflexivity.
Defined.

(** ** Pauses and request sizes *)

Lemma sleeps_app e1 e2 : sleeps (e1 ++ e2) = sleeps e1 ++ sleeps e2.
Proof. apply omap_app. Qed.

Section Pauses.
Variable w : World.
Variable cfg : Config.

Lemma sleeps_ticker_events hist t : sleeps (ticker_events w hist t) = [].
Proof.
  unfold ticker_events. destruct (hist !! t) as [d|]; [|done].
  destruct (df_empty d); simpl; destruct (to_csv_ok w t); simpl;
    destruct (yf_info w t); done.
Qed.

Lemma sleeps_batch_tickers hist batch :
  sleeps (flat_map (ticker_events w hist) batch) = [].
Proof.
  induction batch as [|t l IH]; [done|].
  cbn [flat_map]. by rewrite sleeps_app, sleeps_ticker_events, IH.
Qed.

Lemma sleeps_batch_events tickers total sd ed succ fail i :
  sleeps (batch_events w cfg tickers total sd ed succ fail i)
  = if i <? total - 1 then [delay_between_batches cfg] else [].
Proof.
  unfold batch_events, batch_ticker_events.
  rewrite !sleeps_app, sleeps_batch_tickers. unfold pause.
  by destruct (i <? total - 1).
Qed.

Lemma sleeps_loop_events tickers total sd ed idxs : ∀ succ fail,
  sleeps (loop_events w cfg tickers total sd ed succ fail idxs)
  = flat_map (λ i, if i <? total - 1 then [delay_between_batches cfg]
                   else []) idxs.
Proof.
  induction idxs as [|i idxs IH]; intros succ fail; [done|].
  cbn [loop_events flat_map]. by rewrite sleeps_app, sleeps_batch_events, IH.
Qed.

Lemma sleeps_range (d : N) total start :
  flat_map (λ i, if i <? total - 1 then [d] else []) (range start total)
  = replicate (Z.to_nat (total - start - 1)) d.
Proof.
  unfold range.
  destruct (decide (total - start ≤ 0)) as [Hle|Hgt].
  { rewrite seqZ_nil by lia. by replace (Z.to_nat _) with 0%nat by lia. }
  set (m := Z.to_nat (total - start - 1)).
  assert (Z.of_nat m = total - start - 1) as Hm by lia. clearbody m.
  replace (total - start) with (Z.of_nat (S m)) by lia.
  rewrite seqZ_S, flat_map_app. cbn [flat_map].
  rewrite (proj2 (Z.ltb_ge _ _)) by lia. rewrite !app_nil_r.
  assert (∀ n : nat, (n ≤ m)%nat →
            flat_map (λ i, if i <? total - 1 then [d] else [])
              (seqZ start (Z.of_nat n)) = replicate n d) as Hn.
  { induction n as [|n IH]; intros Hb; [done|].
    rewrite seqZ_S, flat_map_app, IH by lia. cbn [flat_map].
    rewrite (proj2 (Z.ltb_lt _ _)) by lia. rewrite app_nil_r.
    change [d] with (replicate 1 d). rewrite <- replicate_add.
    f_equal. lia. }
  by apply Hn.
Qed.

(** X18: the run pauses for the configured delay after every batch but
    the last and nowhere else: a run that completes has paused once for
    each batch it has processed but one, and a run that ends otherwise
    has paused at most that many times. *)
Theorem pauses_between_batches tickers resume s :
  let r := collect_all_data w cfg tickers resume s in
  let evs := new_events s r.2 in
  let wk := working resume (store s) (given w tickers) in
  let all := replicate
               (Z.to_nat (total_of cfg wk - start_of resume (store s) - 1))
               (delay_between_batches cfg) in
  sleeps evs `prefix_of` all ∧ (r.1 = Ok tt → sleeps evs = all).
Proof.
  intros r evs wk all.
  assert (∀ x, sleeps (listing_events tickers
                       ++ batches_events w cfg tickers resume s
                       ++ [EvSummary x]) = all) as Hall.
  { intros x. rewrite !sleeps_app. unfold batches_events.
    rewrite sleeps_loop_events, sleeps_range. fold wk.
    destruct tickers; simpl; by rewrite app_nil_r. }
  split.
  - destruct (run_prefix w cfg tickers resume s) as (x & Hp).
    fold r evs in Hp. rewrite <- (Hall x). by apply omap_prefix.
  - intros Ho.
    destruct (run_completed w cfg tickers resume s Ho) as (_ & _ & He & _).
    fold r evs in He. rewrite He. apply Hall.
Qed.

(** X19: with a positive batch size, no bulk request of a run that
    starts at a batch index that is not negative asks for more tickers
    than the batch size, and every ticker it asks for is one of the
    working list. *)
Theorem requests_within_batch_size tickers resume s :
  0 < batch_size cfg → 0 ≤ start_of resume (store s) →
  let r := collect_all_data w cfg tickers resume s in
  let wk := working resume (store s) (given w tickers) in
  Forall (λ batch, len batch ≤ batch_size cfg ∧ batch ⊆ wk)
    (downloads (new_events s r.2)).
Proof.
  intros HN Hst r wk.
  destruct (downloads_run_prefix w cfg tickers resume s) as [[k Hk] _].
  fold r wk in Hk.
  assert (Forall (λ batch, len batch ≤ batch_size cfg ∧ batch ⊆ wk)
            (map (batch_of cfg wk)
               (range (start_of resume (store s)) (total_of cfg wk))))
    as Hall.
  { apply Forall_forall. intros b Hb.
    change (map ?f ?l) with (f <$> l) in Hb.
    apply list_elem_of_fmap in Hb as (i & -> & Hi).
    unfold range in Hi. apply elem_of_seqZ in Hi.
    split; [apply batch_of_short; [done|lia]|apply batch_of_subseteq]. }
  rewrite Hk in Hall. by apply Forall_app in Hall as [Hall _].
Qed.

End Pauses.

Lemma requests_within_batch_size_witness :
  0 < batch_size batches_of_four
  ∧ 0 ≤ start_of true (store (new_collector (store interrupted_run.2) None))
  ∧ Forall (λ batch, len batch ≤ batch_size batches_of_four
                     ∧ batch ⊆ working true
                                 (store (new_collector
                                           (store interrupted_run.2) None))
                                 (given world_even (Some ten_tickers)))
      (downloads
         (new_events (new_collector (store interrupted_run.2) None)
            (collect_all_data world_even batches_of_four (Some ten_tickers)
               true (new_collector (store interrupted_run.2) None)).2)).
Proof.
  assert (0 < batch_size batches_of_four) as H by reflexivity.
  assert (0 ≤ start_of true
                (store (new_collector (store interrupted_run.2) None)))
    as H' by (vm_compute; discriminate).
  split_and!; [exact H|exact H'|].
  exact (requests_within_batch_size world_even batches_of_four
           (Some ten_tickers) true
           (new_collector (store interrupted_run.2) None) H H').
Defined.

Lemma fresh_run_marks_every_ticker_witness :
  0 < batch_size batches_of_four
  ∧ (marks (new_events (new_collector empty_store None)
              (collect_all_data world_even batches_of_four
                 (Some ten_tickers) false
                 (new_collector empty_store None)).2)).*1
    = given world_even (Some ten_tickers).
Proof.
  assert (0 < batch_size batches_of_four) as H by reflexivity.
  split; [exact H|].
  refine (proj1 (fresh_run_marks_every_ticker world_even batches_of_four
                   (Some ten_tickers) (new_collector empty_store None) H _)).
  vm_compute. reflexivity.
Defined.

Lemma resumed_run_marks_rest_witness :
  0 ≤ start_of true (store (new_collector (store interrupted_run.2) None))
  ∧ (marks (new_events (new_collector (store interrupted_run.2) None)
              (collect_all_data world_even batches_of_four
                 (Some ten_tickers) true
                 (new_collector (store interrupted_run.2) None)).2)).*1
    = drop (Z.to_nat
              (start_of true
                 (store (new_collector (store interrupted_run.2) None))
               * batch_size batches_of_four))
        (working true (store (new_collector (store interrupted_run.2) None))
           (given world_even (Some ten_tickers))).
Proof.
  assert (0 < batch_size batches_of_four) as H by reflexivity.
  assert (0 ≤ start_of true
                (store (new_collector (store interrupted_run.2) None)))
    as H' by (vm_compute; discriminate).
  split; [exact H'|].
  refine (proj1 (resumed_run_marks_rest world_even batches_of_four
                   (Some ten_tickers)
                   (new_collector (store interrupted_run.2) None) H H' _)).
  vm_compute. reflexivity.
Defined.

Lemma interruption_loses_at_most_one_batch_witness :
  0 < batch_size batches_of_four
  ∧ 0 ≤ start_of true (store (new_collector empty_store (Some 8%nat)))
  ∧ ((persisted
        (new_events (new_collector empty_store (Some 8%nat))
           (collect_all_data world_even batches_of_four (Some ten_tickers)
              true (new_collector empty_store (Some 8%nat))).2) = []
      ∧ progress_file
          (store (collect_all_data world_even batches_of_four
                    (Some ten_tickers) true
                    (new_collector empty_store (Some 8%nat))).2)
        = progress_file (store (new_collector empty_store (Some 8%nat)))
      ∧ len (marks
               (new_events (new_collector empty_store (Some 8%nat))
                  (collect_all_data world_even batches_of_four
                     (Some ten_tickers) true
                     (new_collector empty_store (Some 8%nat))).2))
        ≤ batch_size batches_of_four)
     ∨ ∃ p l1 l2 ds df,
         progress_file
           (store (collect_all_data world_even batches_of_four
                     (Some ten_tickers) true
                     (new_collector empty_store (Some 8%nat))).2) = Some p
         ∧ p_successful_tickers p = Some l1 ∧ p_failed_tickers p = Some l2
         ∧ successful_tickers
             (collect_all_data world_even batches_of_four (Some ten_tickers)
                true (new_collector empty_store (Some 8%nat))).2 = l1 ++ ds
         ∧ failed_tickers
             (collect_all_data world_even batches_of_four (Some ten_tickers)
                true (new_collector empty_store (Some 8%nat))).2 = l2 ++ df
         ∧ len ds + len df ≤ batch_size batches_of_four
         ∧ ((collect_all_data world_even batches_of_four (Some ten_tickers)
               true (new_collector empty_store (Some 8%nat))).1 = Ok tt →
            ds = [] ∧ df = [])).
Proof.
  assert (0 < batch_size batches_of_four) as H by reflexivity.
  assert (0 ≤ start_of true (store (new_collector empty_store (Some 8%nat))))
    as H' by (vm_compute; discriminate).
  split; [exact H|]. split; [exact H'|].
  exact (interruption_loses_at_most_one_batch world_even batches_of_four
           (Some ten_tickers) true (new_collector empty_store (Some 8%nat))
           H H').
Defined.

Lemma progress_stays_duplicate_free_witness :
  0 < batch_size batches_of_four
  ∧ progress_wf empty_store
  ∧ NoDup (given world_even (Some ten_tickers))
  ∧ progress_wf
      (store (collect_all_data world_even batches_of_four (Some ten_tickers)
                true (new_collector empty_store None)).2).
Proof.
  assert (0 < batch_size batches_of_four) as H by reflexivity.
  assert (progress_wf empty_store) as H'
    by (split; [constructor|vm_compute; discriminate]).
  assert (NoDup (given world_even (Some ten_tickers))) as H''
    by (apply (bool_decide_unpack _); vm_compute; exact I).
  split_and!; [exact H|exact H'|exact H''|].
  exact (proj1 (progress_stays_duplicate_free world_even batches_of_four
                  (Some ten_tickers) true empty_store None H H' H'')).
Defined.

Lemma completed_collection_resumes_to_nothing_witness :
  0 < batch_size batches_of_four
  ∧ progress_file empty_store = None
  ∧ downloads
      (new_events
         (new_collector
            (store (collect_all_data world_even batches_of_four
                      (Some ten_tickers) true
                      (new_collector empty_store None)).2) None)
         (collect_all_data world_even batches_of_four (Some ten_tickers) true
            (new_collector
               (store (collect_all_data world_even batches_of_four
                         (Some ten_tickers) true
                         (new_collector empty_store None)).2) None)).2)
    = [].
Proof.
  assert (0 < batch_size batches_of_four) as H by reflexivity.
  assert (progress_file empty_store = None) as H' by reflexivity.
  split_and!; [exact H|exact H'|].
  refine (proj1 (completed_collection_resumes_to_nothing world_even
                   batches_of_four (Some ten_tickers) true empty_store
                   None None H H' _)).
  vm_compute. reflexivity.
Defined.
